(** * waveformCompare: the correlation and phase-velocity core

    A shallow embedding of the numerical core of
    [waveformCompare_20170110_master.py] (distance classification,
    resampling policy, arrival times, windowed correlation, backazimuth
    estimation, phase velocities, signal-to-noise ratio), of its time
    windows and backazimuth analysis and of the event file it writes,
    together with the properties of that code.

    Conventions of the embedding.
    - Python [int] is [Z]; [//] is [Z.div] (both round towards minus
      infinity) and raises on a zero divisor.
    - Python and numpy floating-point numbers are exact rationals [Q];
      rounding errors are outside the model.  Values that numpy can make
      non-finite ([np.nan], a division by zero, the mean of an empty slice)
      live in [npfloat].  Zero carries no sign.
    - numpy arrays and lists are [list]; slicing and indexing follow Python
      (clamping, negative indices counted from the end).
    - Exceptions are the [Raise] results of a small error monad.
    - obspy's [xcorr], [rotate_ne_rt], [Stream.decimate], [Stream.trim] and
      the TauP model are library code: they are the variables of Section
      [Pipeline].  The checks that [xcorr] and [rotate_ne_rt] make on their
      arguments before they compute are written out ([xcorr_checked],
      [rotate_ne_rt_checked]); the variables stand for what they compute
      once the checks have passed.

    The embedding comes first, the properties after it. *)

From Stdlib Require Import ZArith QArith Qround Qabs List String Bool Lia Lqa.
From Stdlib Require Import Permutation.
Import ListNotations.

(** ** Exceptions *)

Inductive exn : Type :=
| ValueError
| IndexError
| ZeroDivisionError
| OverflowError
| UnboundLocalError
| TypeError.

Inductive result (A : Type) : Type :=
| Ok (a : A)
| Raise (e : exn).

Arguments Ok {A} a.
Arguments Raise {A} e.

Definition bind {A B : Type} (c : result A) (k : A -> result B) : result B :=
  match c with
  | Ok a => k a
  | Raise e => Raise e
  end.

Fixpoint mapM {A B : Type} (f : A -> result B) (l : list A) : result (list B) :=
  match l with
  | [] => Ok []
  | x :: tl =>
      bind (f x) (fun y => bind (mapM f tl) (fun ys => Ok (y :: ys)))
  end.

Notation "x <- c ;; k" := (bind c (fun x => k))
  (at level 61, c at next level, right associativity).

(** ** Python builtins *)

Module Py.

Definition len {A : Type} (l : list A) : Z := Z.of_nat (List.length l).

(** [range(a, b)] *)
Definition range (a b : Z) : list Z :=
  map (fun k => a + Z.of_nat k)%Z (seq 0 (Z.to_nat (b - a))).

(** The position a slice bound denotes in a sequence of [n] items. *)
Definition clamp (n i : Z) : Z :=
  if (i <? 0)%Z then Z.max (i + n) 0 else Z.min i n.

(** [l[a:b]] *)
Definition slice {A : Type} (l : list A) (a b : Z) : list A :=
  let lo := clamp (len l) a in
  let hi := clamp (len l) b in
  firstn (Z.to_nat (hi - lo)) (skipn (Z.to_nat lo) l).

(** [l[i]] *)
Definition index {A : Type} (l : list A) (i : Z) : result A :=
  let j := if (i <? 0)%Z then (i + len l)%Z else i in
  if (j <? 0)%Z then Raise IndexError
  else match nth_error l (Z.to_nat j) with
       | Some x => Ok x
       | None => Raise IndexError
       end.

(** [a // b] *)
Definition floordiv (a b : Z) : result Z :=
  if (b =? 0)%Z then Raise ZeroDivisionError else Ok (a / b)%Z.

Definition Qlt_bool (a b : Q) : bool := negb (Qle_bool b a).

(** [int(x)] of a float: truncation towards zero. *)
Definition int (x : Q) : Z := Z.quot (Qnum x) (Zpos (Qden x)).

(** [round(x)]: to the nearest integer, ties to the even one. *)
Definition round (x : Q) : Z :=
  let f := Qfloor x in
  let r := (x - inject_Z f)%Q in
  if Qlt_bool r (1 # 2) then f
  else if Qlt_bool (1 # 2) r then (f + 1)%Z
  else if Z.even f then f else (f + 1)%Z.

(** The builtin [max] over a sequence: the first of the greatest items. *)
Definition max (l : list Q) : result Q :=
  match l with
  | [] => Raise ValueError
  | x :: tl => Ok (fold_left (fun m y => if Qlt_bool m y then y else m) tl x)
  end.

(** The builtin [min] over a sequence: the first of the least items. *)
Definition min (l : list Q) : result Q :=
  match l with
  | [] => Raise ValueError
  | x :: tl => Ok (fold_left (fun m y => if Qlt_bool y m then y else m) tl x)
  end.

(** The builtin [sum], starting from 0. *)
Definition sum (l : list Q) : Q := fold_left Qplus l 0%Q.

End Py.

(** ** numpy *)

Module Np.

(** [np.floor(x)] *)
Definition floor (x : Q) : Q := inject_Z (Qfloor x).

(** [np.argmax]: the first index of the greatest item. *)
Fixpoint argmax_from (l : list Q) (i : nat) (best : nat) (m : Q) : nat :=
  match l with
  | [] => best
  | y :: tl =>
      if Py.Qlt_bool m y then argmax_from tl (S i) i y
      else argmax_from tl (S i) best m
  end.

Definition argmax (l : list Q) : result Z :=
  match l with
  | [] => Raise ValueError
  | x :: tl => Ok (Z.of_nat (argmax_from tl 1 0 x))
  end.

(** A numpy float that may be non-finite. *)
Inductive npfloat : Type :=
| Fin (q : Q)
| PInf
| NInf
| NaN.

(** numpy's float division: no exception, a zero divisor gives an infinity
    or [nan]. *)
Definition div (x y : npfloat) : npfloat :=
  match x, y with
  | NaN, _ | _, NaN => NaN
  | Fin a, Fin b =>
      if Qeq_bool b 0 then
        if Qeq_bool a 0 then NaN
        else if Py.Qlt_bool 0 a then PInf else NInf
      else Fin (a / b)
  | Fin _, (PInf | NInf) => Fin 0
  | PInf, Fin b => if Py.Qlt_bool b 0 then NInf else PInf
  | NInf, Fin b => if Py.Qlt_bool b 0 then PInf else NInf
  | (PInf | NInf), (PInf | NInf) => NaN
  end.

Definition abs (x : npfloat) : npfloat :=
  match x with
  | Fin q => Fin (Qabs q)
  | PInf | NInf => PInf
  | NaN => NaN
  end.

(** [np.mean]: [nan] on an empty array. *)
Definition mean (l : list Q) : npfloat :=
  match l with
  | [] => NaN
  | _ => Fin (Py.sum l / inject_Z (Py.len l))
  end.

(** [np.max] over correlation coefficients, of which some may be [nan]
    ([None]): raises on an empty array, [nan] as soon as one item is. *)
Fixpoint all_some (l : list (option Q)) : option (list Q) :=
  match l with
  | [] => Some []
  | None :: _ => None
  | Some x :: tl =>
      match all_some tl with
      | Some xs => Some (x :: xs)
      | None => None
      end
  end.

Definition max (l : list (option Q)) : result npfloat :=
  match l with
  | [] => Raise ValueError
  | _ => match all_some l with
         | None => Ok NaN
         | Some xs => bind (Py.max xs) (fun m => Ok (Fin m))
         end
  end.

(** [x >= t] for a coefficient that may be [nan]: false on [nan]. *)
Definition ge (x : option Q) (t : Q) : bool :=
  match x with
  | Some q => Qle_bool t q
  | None => false
  end.

End Np.

(** Two numpy floats that denote the same value ([nan] counted as one value). *)
Definition same (x y : Np.npfloat) : Prop :=
  match x, y with
  | Np.Fin a, Np.Fin b => (a == b)%Q
  | Np.PInf, Np.PInf | Np.NInf, Np.NInf | Np.NaN, Np.NaN => True
  | _, _ => False
  end.

(** ** Waveform data *)

(** An obspy [Trace]: samples, sampling rate (Hz), start time (seconds) and the
    component letter of its channel. *)
Record Trace : Type := mkTrace {
  data : list Q;
  sampling_rate : Q;
  starttime : Q;
  component : string
}.

(** An obspy [Stream] is a list of traces. *)
Definition Stream : Type := list Trace.

Definition set_data (tr : Trace) (d : list Q) : Trace :=
  mkTrace d (sampling_rate tr) (starttime tr) (component tr).

(** [st.select(component=c)] *)
Definition select (st : Stream) (c : string) : Stream :=
  filter (fun tr => String.eqb (component tr) c) st.

(** [baz]: great-circle distance in m, azimuth A->B, azimuth B->A. *)
Definition Baz : Type := (Q * Q * Q)%type.

Definition baz0 (baz : Baz) : Q := fst (fst baz).

(** A TauP arrival: phase name and travel time in seconds. *)
Record Arrival : Type := mkArrival {
  name : string;
  time : Q
}.

Open Scope string_scope.

(** ** Distance classification *)

Definition station_components (station : string) : string * string :=
  if String.eqb station "RLAS" then ("E", "N") else ("1", "2").

Definition is_local (baz : Baz) : string :=
  if Py.Qlt_bool ((1 # 1000) * baz0 baz / (11111 # 100)) 10 then
    if Py.Qlt_bool ((1 # 1000) * baz0 baz / (11111 # 100)) 3 then "close"
    else "local"
  else "non-local".

(** The quantity [is_local] compares: the distance in degrees of arc. *)
Definition dist_deg (baz : Baz) : Q := (1 # 1000) * baz0 baz / (11111 # 100).

(** ** The pipeline *)

Section Pipeline.

(** [Trace.decimate(factor)], which [Stream.decimate] applies to every trace. *)
Variable decimate : Z -> Trace -> Trace.

(** [xcorr(a, b, 0)[1]]: the correlation coefficient at zero lag, [None]
    when it is [nan]. *)
Variable xcorr : list Q -> list Q -> option Q.

(** [rotate_ne_rt(n, e, ba)]: the radial and the transverse component. *)
Variable rotate_ne_rt : list Q -> list Q -> Q -> list Q * list Q.

(** The call [xcorr(a, b, 0)[1]]: obspy refuses a shift length [s] with
    [min(len(a), len(b)) - 2 * s <= 0], so that with the shift 0 it raises
    [ValueError] as soon as one of the two arrays is empty. *)
Definition xcorr_checked (a b : list Q) : result (option Q) :=
  if (Z.min (Py.len a) (Py.len b) - 2 * 0 <=? 0)%Z then Raise ValueError
  else Ok (xcorr a b).

(** The call [rotate_ne_rt(n, e, ba)]: obspy raises [TypeError] when the two
    components differ in length and [ValueError] when the backazimuth lies
    outside 0 to 360 degrees. *)
Definition rotate_ne_rt_checked (n e : list Q) (ba : Q)
  : result (list Q * list Q) :=
  if negb (Py.len n =? Py.len e)%Z then Raise TypeError
  else if Py.Qlt_bool ba 0 || Py.Qlt_bool 360 ba then Raise ValueError
  else Ok (rotate_ne_rt n e ba).

(** [TauPyModel('iasp91').get_travel_times(distance_in_degree, source_depth_in_km)] *)
Variable get_travel_times : Q -> Q -> list Arrival.

(** [st.trim(starttime, endtime, nearest_sample=True)], which may raise. *)
Variable trim : Stream -> Q -> Q -> result Stream.

Definition Stream_decimate (factor : Z) (st : Stream) : Stream :=
  map (decimate factor) st.

(** ** Resampling *)

(** [for trr in (rt + ac): trr.data = trr.data[0: int(1800 * rt[0].stats.sampling_rate)]] *)
Definition truncate_1800 (rt ac : Stream) : result (Stream * Stream) :=
  match (rt ++ ac)%list with
  | [] => Ok (rt, ac)
  | _ :: _ =>
      rt0 <- Py.index rt 0 ;;
      let n := Py.int (1800 * sampling_rate rt0) in
      let cut := fun trr => set_data trr (Py.slice (data trr) 0 n) in
      Ok (map cut rt, map cut ac)
  end.

Record Resampled : Type := mkResampled {
  res_rt : Stream;
  res_ac : Stream;
  res_rt_pcoda : Stream;
  res_ac_pcoda : Stream;
  res_sec : Z;
  res_cutoff : Q;
  res_cutoff_pc : Q
}.

Definition resample (is_local : string) (baz : Baz) (rt ac : Stream)
  : result Resampled :=
  let cutoff_pc := (1 # 2)%Q in
  if String.eqb is_local "local" then
    p <- truncate_1800 rt ac ;;
    let rt := fst p in
    let ac := snd p in
    let rt_pcoda := rt in
    let ac_pcoda := ac in
    Ok (mkResampled (Stream_decimate 2 rt) (Stream_decimate 2 ac)
          rt_pcoda ac_pcoda 5 2 cutoff_pc)
  else if String.eqb is_local "non-local" then
    let rt_pcoda := Stream_decimate 2 rt in
    let ac_pcoda := Stream_decimate 2 ac in
    Ok (mkResampled (Stream_decimate 4 rt) (Stream_decimate 4 ac)
          rt_pcoda ac_pcoda 120 1 cutoff_pc)
  else if String.eqb is_local "close" then
    p <- truncate_1800 rt ac ;;
    let rt := fst p in
    let ac := snd p in
    let rt_pcoda := rt in
    let ac_pcoda := ac in
    Ok (mkResampled (Stream_decimate 2 rt) (Stream_decimate 2 ac)
          rt_pcoda ac_pcoda 3 4 cutoff_pc)
  else Raise UnboundLocalError.

(** ** Arrival times *)

Definition pwave_list : list string :=
  ["P"; "p"; "Pdiff"; "PKiKP"; "PKIKP"; "PP"; "Pb"; "Pn"; "Pg"].

Definition swave_list : list string :=
  ["S"; "s"; "Sdiff"; "SKiKS"; "SKIKS"; "SS"; "Sb"; "Sn"; "Sg"].

(** [x in l] *)
Definition member (x : string) (l : list string) : bool :=
  existsb (String.eqb x) l.

(** The travel times of the arrivals whose phase name is in [family]. *)
Definition family_times (family : list string) (tt : list Arrival) : list Q :=
  map time (filter (fun a => member (name a) family) tt).

Definition ps_arrival_times (distance depth init_sec : Q) : result (Q * Q) :=
  let tt := get_travel_times ((1 # 1000) * distance / (11111 # 100)) depth in
  let tiemp := family_times pwave_list tt in
  mp <- Py.min tiemp ;;
  let arriv_p := Np.floor (init_sec + mp) in
  let tiems := family_times swave_list tt in
  ms <- Py.min tiems ;;
  let arriv_s := Np.floor (init_sec + ms) in
  Ok (arriv_p, arriv_s).

(** ** Windowed correlation *)

Definition Get_corrcoefs (rotra : Trace) (rodat : list Q) (acstr : Stream)
    (rotate_array : list Q) (sec : Z) (station : string)
  : result (list (option Q) * list Q) :=
  let compN := snd (station_components station) in
  let rotra_SR := Py.int (sampling_rate rotra) in
  trN <- Py.index (select acstr compN) 0 ;;
  let compN_SR := Py.int (sampling_rate trN) in
  n <- Py.floordiv (Py.len rodat) (rotra_SR * sec) ;;
  corrcoefs <-
    mapM (fun i5 =>
            xcorr_checked
              (Py.slice rodat (rotra_SR * sec * i5) (rotra_SR * sec * (i5 + 1)))
              (Py.slice rotate_array (compN_SR * sec * i5)
                                     (compN_SR * sec * (i5 + 1))))%Z
         (Py.range 0 n) ;;
  let thres := repeat (3 # 4)%Q (S (List.length corrcoefs)) in
  Ok (corrcoefs, thres).

(** ** Backazimuth estimation *)

(** [np.linspace(0, 359, 360)] *)
Definition backas2_grid : list Q := map inject_Z (Py.range 0 360).

(** [a.reshape(rows, cols)] of a flat array of [rows * cols] items. *)
Definition reshape {A : Type} (rows cols : nat) (flat : list A) : list (list A) :=
  map (fun r => firstn cols (skipn (r * cols) flat)) (seq 0 rows).

(** The coefficients of one candidate backazimuth [ba], one per 30 s window,
    as a scan that raises nowhere computes them. *)
Definition corrbaz2_row (rt_SR : Z) (rt2 acn2 ace2 : list Q) (nw : Z) (ba : Q)
  : list (option Q) :=
  let sec2 := 30%Z in
  map (fun j4 =>
         xcorr (Py.slice rt2 (rt_SR * sec2 * j4) (rt_SR * sec2 * (j4 + 1)))
               (Py.slice (snd (rotate_ne_rt acn2 ace2 ba))
                         (rt_SR * sec2 * j4) (rt_SR * sec2 * (j4 + 1))))%Z
      (Py.range 0 nw).

(** [corradj]: the coefficient when it is at least 0.9, else 0.0. *)
Definition corradj (c : option Q) : Q :=
  if Np.ge c (9 # 10) then match c with Some q => q | None => 0 end else 0.

(** The loop nest of [backas_est] over the candidates [j3] and the windows
    [j4]: the coefficients in the order in which they are appended. *)
Definition backas_est_scan (rt_SR : Z) (rt2 acn2 ace2 : list Q) (nw : Z)
  : result (list (option Q)) :=
  let sec2 := 30%Z in
  mapM (fun p : Q * Z =>
          let ba := fst p in
          let j4 := snd p in
          rotated <- rotate_ne_rt_checked acn2 ace2 ba ;;
          xcorr_checked
            (Py.slice rt2 (rt_SR * sec2 * j4) (rt_SR * sec2 * (j4 + 1)))
            (Py.slice (snd rotated) (rt_SR * sec2 * j4)
                                    (rt_SR * sec2 * (j4 + 1))))%Z
       (flat_map (fun ba => map (fun j4 => (ba, j4)) (Py.range 0 nw))
                 backas2_grid).

Definition backas_est (rt ac : Stream) (min_sw max_lwf : Q) (station : string)
  : result (list Q * list Q * Np.npfloat * Q) :=
  let compE := fst (station_components station) in
  let compN := snd (station_components station) in
  rt0 <- Py.index rt 0 ;;
  let rt_SR := Py.int (sampling_rate rt0) in
  let min_sw_rt := Py.round (min_sw * inject_Z rt_SR) in
  let max_lwf_rt := Py.round (max_lwf * inject_Z rt_SR) in
  let rt2 := Py.slice (data rt0) min_sw_rt max_lwf_rt in
  trN <- Py.index (select ac compN) 0 ;;
  let acn2 := Py.slice (data trN) min_sw_rt max_lwf_rt in
  trE <- Py.index (select ac compE) 0 ;;
  let ace2 := Py.slice (data trE) min_sw_rt max_lwf_rt in
  let sec2 := 30%Z in
  let backas2 := backas2_grid in
  nw <- Py.floordiv (Py.len rt2) (rt_SR * sec2) ;;
  flat <- backas_est_scan rt_SR rt2 acn2 ace2 nw ;;
  let cols := Py.round (inject_Z (Py.len flat) / inject_Z (Py.len backas2)) in
  if negb (Py.len backas2 * cols =? Py.len flat)%Z then Raise ValueError
  else
    let corrbaz2 := reshape (List.length backas2) (Z.to_nat cols) flat in
    (* corrbaz2[:, 0] *)
    if (cols <=? 0)%Z then Raise IndexError
    else
      let corrsum := map (fun row => Py.sum (map corradj row)) corrbaz2 in
      i <- Np.argmax corrsum ;;
      best_ebaz <- Py.index backas2 i ;;
      row <- Py.index corrbaz2 (Py.int best_ebaz) ;;
      max_ebaz_xcoef <- Np.max row ;;
      Ok (corrsum, backas2, max_ebaz_xcoef, best_ebaz).

(** ** Phase velocities *)

(** The body of the loop of [phase_vel] for window [i8]. *)
Definition phase_vel_window (rt_SR sec : Z) (corrcoefs : list (option Q))
    (rotate : list Q * list Q) (rt0 : Trace) (i8 : Z) : result Np.npfloat :=
  c <- Py.index corrcoefs i8 ;;
  if Np.ge c (3 # 4) then
    ma <- Py.max (Py.slice (snd rotate) (rt_SR * sec * i8)
                                        (rt_SR * sec * (i8 + 1)))%Z ;;
    mr <- Py.max (Py.slice (data rt0) (rt_SR * sec * i8)
                                      (rt_SR * sec * (i8 + 1)))%Z ;;
    Ok (Np.div (Np.Fin ((1 # 1000) * (1 # 2) * ma)) (Np.Fin mr))
  else Ok Np.NaN.

Definition phase_vel (rt : Stream) (sec : Z) (corrcoefs : list (option Q))
    (rotate : list Q * list Q) (corrsum backas2 : list Q)
    (ind_band : bool) (ind_surf : Z) : result (list Np.npfloat * Np.npfloat) :=
  rt0 <- Py.index rt 0 ;;
  let rt_SR := Py.int (sampling_rate rt0) in
  let start_range := if ind_band then ind_surf else 0%Z in
  phasv <- mapM (phase_vel_window rt_SR sec corrcoefs rotate rt0)
                (Py.range start_range (Py.len corrcoefs)) ;;
  m <- Py.max corrsum ;;
  if Qeq_bool m 0 then Ok (phasv, Np.NaN)
  else
    i <- Np.argmax corrsum ;;
    EBA <- Py.index backas2 i ;;
    Ok (phasv, Np.Fin EBA).

(** One frequency band as [plotWaveformComp] holds it. *)
Record Band : Type := mkBand {
  rt_band : Stream;
  corrcoefs_band : list (option Q);
  rotate_band : list Q * list Q
}.

(** [int(min_lwi/sec)]: a numpy float divided by zero is an infinity or [nan],
    of which [int] raises. *)
Definition ind_surf_of (min_lwi : Q) (sec : Z) : result Z :=
  if (sec =? 0)%Z then
    if Qeq_bool min_lwi 0 then Raise ValueError else Raise OverflowError
  else Ok (Py.int (min_lwi / inject_Z sec)).

(** The phase-velocity calls of [plotWaveformComp]: the full-band signal
    first, then the bands 1 to 8. *)
Definition plotWaveformComp_phase_vel (rt : Stream) (sec : Z)
    (corrcoefs : list (option Q)) (rotate : list Q * list Q)
    (corrsum backas2 : list Q) (min_lwi : Q)
    (b1 b2 b3 b4 b5 b6 b7 b8 : Band)
  : result ((list Np.npfloat * Np.npfloat) * list (list Np.npfloat * Np.npfloat)) :=
  ind_surf <- ind_surf_of min_lwi sec ;;
  let ind_band := false in
  main <- phase_vel rt sec corrcoefs rotate corrsum backas2 ind_band ind_surf ;;
  let ind_band := true in
  let band := fun b s =>
    phase_vel (rt_band b) s (corrcoefs_band b) (rotate_band b)
              corrsum backas2 ind_band ind_surf in
  p1 <- band b1 200%Z ;;
  p2 <- band b2 100%Z ;;
  p3 <- band b3 50%Z ;;
  p4 <- band b4 20%Z ;;
  p5 <- band b5 12%Z ;;
  p6 <- band b6 10%Z ;;
  p7 <- band b7 8%Z ;;
  p8 <- band b8 6%Z ;;
  Ok (main, [p1; p2; p3; p4; p5; p6; p7; p8]).

(** ** Signal-to-noise ratio *)

Definition sn_ratio (full_signal : list Q) (p_arrival sam_rate : Q)
  : result Np.npfloat :=
  let sam_rate := Py.int sam_rate in
  let p_arrival := Py.round p_arrival in
  tr_sign <- Py.max full_signal ;;
  let tr_noise :=
    Np.abs (Np.mean (Py.slice full_signal (sam_rate * (p_arrival - 180))
                                          (sam_rate * (p_arrival - 100)))%Z) in
  let SNR := Np.div (Np.Fin tr_sign) tr_noise in
  Ok SNR.

(** ** Alignment of start and end times

    The last step of [remove_instr_resp], after the instrument responses
    are removed (which leaves the times of the traces as they are). *)

(** [tr.stats.endtime]: the time of the last sample, and the start time for
    a trace without samples. *)
Definition endtime (tr : Trace) : Q :=
  if (Py.len (data tr) =? 0)%Z then starttime tr
  else starttime tr + (inject_Z (Py.len (data tr)) - 1) / sampling_rate tr.

Definition remove_instr_resp_alignment (rt ac rt_pcoda ac_pcoda : Stream)
  : result (Stream * Stream * Stream * Stream) :=
  startaim <- Py.max (map starttime (ac ++ rt)%list) ;;
  endtaim <- Py.min (map endtime (ac ++ rt)%list) ;;
  ac' <- trim ac startaim endtaim ;;
  rt' <- trim rt startaim endtaim ;;
  ac_pcoda' <- trim ac_pcoda startaim endtaim ;;
  rt_pcoda' <- trim rt_pcoda startaim endtaim ;;
  Ok (rt', ac', rt_pcoda', ac_pcoda').

End Pipeline.

(** ** More of numpy *)

Module Np2.

(** [np.argmin]: the first index of the least item. *)
Fixpoint argmin_from (l : list Q) (i : nat) (best : nat) (m : Q) : nat :=
  match l with
  | [] => best
  | y :: tl =>
      if Py.Qlt_bool y m then argmin_from tl (S i) i y
      else argmin_from tl (S i) best m
  end.

Definition argmin (l : list Q) : result Z :=
  match l with
  | [] => Raise ValueError
  | x :: tl => Ok (Z.of_nat (argmin_from tl 1 0 x))
  end.

(** The index of the first [nan] of an array of coefficients. *)
Fixpoint first_nan (l : list (option Q)) (i : nat) : option nat :=
  match l with
  | [] => None
  | None :: _ => Some i
  | Some _ :: tl => first_nan tl (S i)
  end.

(** [np.argmax] of an array that may hold [nan]: the index of the first
    [nan] when there is one (numpy counts [nan] as the greatest value), else
    the first index of the greatest item. *)
Definition argmax (l : list (option Q)) : result Z :=
  match first_nan l 0 with
  | Some j => match l with
              | [] => Raise ValueError
              | _ => Ok (Z.of_nat j)
              end
  | None => match Np.all_some l with
            | Some xs => Np.argmax xs
            | None => Raise ValueError
            end
  end.

(** [np.isnan] *)
Definition isnan (x : Np.npfloat) : bool :=
  match x with
  | Np.NaN => true
  | _ => false
  end.

(** Addition of numpy floats: opposite infinities give [nan]. *)
Definition add (x y : Np.npfloat) : Np.npfloat :=
  match x, y with
  | Np.NaN, _ | _, Np.NaN => Np.NaN
  | Np.Fin a, Np.Fin b => Np.Fin (a + b)
  | Np.Fin _, Np.PInf | Np.PInf, Np.Fin _ | Np.PInf, Np.PInf => Np.PInf
  | Np.Fin _, Np.NInf | Np.NInf, Np.Fin _ | Np.NInf, Np.NInf => Np.NInf
  | Np.PInf, Np.NInf | Np.NInf, Np.PInf => Np.NaN
  end.

(** [np.mean] of an array of numpy floats: [nan] on an empty array. *)
Definition mean (l : list Np.npfloat) : Np.npfloat :=
  match l with
  | [] => Np.NaN
  | _ => Np.div (fold_left add l (Np.Fin 0)) (Np.Fin (inject_Z (Py.len l)))
  end.

(** Multiplication of numpy floats: zero times an infinity is [nan]. *)
Definition mul (x y : Np.npfloat) : Np.npfloat :=
  match x, y with
  | Np.NaN, _ | _, Np.NaN => Np.NaN
  | Np.Fin a, Np.Fin b => Np.Fin (a * b)
  | Np.Fin a, Np.PInf | Np.PInf, Np.Fin a =>
      if Qeq_bool a 0 then Np.NaN
      else if Py.Qlt_bool 0 a then Np.PInf else Np.NInf
  | Np.Fin a, Np.NInf | Np.NInf, Np.Fin a =>
      if Qeq_bool a 0 then Np.NaN
      else if Py.Qlt_bool 0 a then Np.NInf else Np.PInf
  | Np.PInf, Np.PInf | Np.NInf, Np.NInf => Np.PInf
  | Np.PInf, Np.NInf | Np.NInf, Np.PInf => Np.NInf
  end.

(** [x < y] on numpy floats: false as soon as one of the two is [nan]. *)
Definition lt (x y : Np.npfloat) : bool :=
  match x, y with
  | Np.NaN, _ | _, Np.NaN => false
  | Np.Fin a, Np.Fin b => Py.Qlt_bool a b
  | Np.NInf, Np.NInf | Np.PInf, _ | _, Np.NInf => false
  | Np.NInf, _ | _, Np.PInf => true
  end.

(** The builtin [max] and [min] over numpy floats. *)
Definition pymax (l : list Np.npfloat) : result Np.npfloat :=
  match l with
  | [] => Raise ValueError
  | x :: tl => Ok (fold_left (fun m y => if lt m y then y else m) tl x)
  end.

Definition pymin (l : list Np.npfloat) : result Np.npfloat :=
  match l with
  | [] => Raise ValueError
  | x :: tl => Ok (fold_left (fun m y => if lt y m then y else m) tl x)
  end.

End Np2.

(** ** Time windows *)

Section Windows.

(** [np.polyfit(x, y, 1)]: slope and intercept of the fitted line. *)
Variable polyfit1 : list Q -> list Q -> Q * Q.

(** [np.arange(0., 140., 5.)] *)
Definition deltas : list Q := map (fun k => inject_Z (5 * k)) (Py.range 0 28).

(** The travel times of the surface waves every 5 degrees, in seconds. *)
Definition tts : list Q :=
  map (Qmult 60)
      [0; 2; 4; 62 # 10; 84 # 10; 11; 13; 152 # 10; 178 # 10; 194 # 10; 22;
       241 # 10; 266 # 10; 286 # 10; 308 # 10; 33; 356 # 10; 374 # 10;
       398 # 10; 42; 442 # 10; 464 # 10; 488 # 10; 509 # 10; 536 # 10;
       552 # 10; 578 # 10; 60]%Q.

(** [np.arange(0., 180.1, 0.01)] *)
Definition degree_grid : list Q :=
  map (fun i => inject_Z i * (1 # 100))%Q (Py.range 0 18010).

Definition surf_tts (distance start_time : Q) : result Q :=
  let mval := fst (polyfit1 deltas tts) in
  let surftts := map (Qmult mval) degree_grid in
  difer <- mapM (fun i4 =>
                   g <- Py.index degree_grid i4 ;;
                   Ok (Qabs ((1 # 1000) * distance / (11111 # 100) - g)))
                (Py.range 0 (Py.len surftts)) ;;
  im <- Np2.argmin difer ;;
  s <- Py.index surftts im ;;
  let arriv_lov := Np.floor (start_time + s) in
  diferans <- mapM (fun i1 =>
                      g <- Py.index degree_grid im ;;
                      d <- Py.index deltas i1 ;;
                      Ok (Qabs (g - d)))
                   (Py.range 0 (Py.len deltas)) ;;
  k <- Np2.argmin diferans ;;
  t <- Py.index tts k ;;
  let peq := (s - t)%Q in
  let arrival := (arriv_lov + peq)%Q in
  Ok arrival.



End Windows.

(** ** Backazimuth analysis *)

Section Scan.

Variable xcorr : list Q -> list Q -> option Q.
Variable rotate_ne_rt : list Q -> list Q -> Q -> list Q * list Q.

(** [np.linspace(0, 360 - step, 360 / step)] with [step = 10]: the 36
    candidates 0, 10, ..., 350.  The number of points is the float 36.0,
    which the numpy of the time takes with the deprecation warning that the
    header of the source notes; from numpy 1.18 on the call raises
    [TypeError] and [backas_analysis] returns on no input. *)
Definition backas_grid : list Q := map (fun k => inject_Z (10 * k)) (Py.range 0 36).

(** [d[0:ind]], [ind] being [None] or an integer. *)
Definition slice_to (d : list Q) (ind : option Z) : list Q :=
  match ind with
  | None => d
  | Some i => Py.slice d 0 i
  end.

(** [corrbaz[:, l]] *)
Definition column (corrbaz : list (list (option Q))) (l : Z)
  : result (list (option Q)) :=
  mapM (fun row => Py.index row l) corrbaz.

(** The coefficient of [backas_analysis] for the candidate [ba] and the
    window [i7], from the north and east traces [trN] and [trE], as a scan
    that raises nowhere computes it. *)
Definition corrbaz_entry (rotra : Trace) (rodat : list Q) (trN trE : Trace)
    (sec : Z) (ind : option Z) (ba : Q) (i7 : Z) : option Q :=
  xcorr (Py.slice rodat (Py.int (sampling_rate rotra) * sec * i7)
                        (Py.int (sampling_rate rotra) * sec * (i7 + 1)))
        (Py.slice (snd (rotate_ne_rt (slice_to (data trN) ind)
                                     (slice_to (data trE) ind) ba))
                  (Py.int (sampling_rate trN) * sec * i7)
                  (Py.int (sampling_rate trN) * sec * (i7 + 1))).

Definition backas_analysis (rotra : Trace) (rodat : list Q) (acstr : Stream)
    (sec : Z) (corrcoefs : list (option Q)) (ind : option Z) (station : string)
  : result (list (list (option Q)) * list Q * list Q * list Np.npfloat) :=
  let compE := fst (station_components station) in
  let compN := snd (station_components station) in
  let rotra_SR := Py.int (sampling_rate rotra) in
  trN <- Py.index (select acstr compN) 0 ;;
  let compN_SR := Py.int (sampling_rate trN) in
  let backas := backas_grid in
  flat <- mapM (fun p : Q * Z =>
                  let ba := fst p in
                  let i7 := snd p in
                  trN <- Py.index (select acstr compN) 0 ;;
                  trE <- Py.index (select acstr compE) 0 ;;
                  rotated <- rotate_ne_rt_checked rotate_ne_rt
                               (slice_to (data trN) ind)
                               (slice_to (data trE) ind) ba ;;
                  xcorr_checked xcorr
                    (Py.slice rodat (rotra_SR * sec * i7)
                                    (rotra_SR * sec * (i7 + 1)))
                    (Py.slice (snd rotated) (compN_SR * sec * i7)
                                            (compN_SR * sec * (i7 + 1))))%Z
               (flat_map (fun ba => map (fun i7 => (ba, i7))
                                        (Py.range 0 (Py.len corrcoefs)))
                         backas) ;;
  let corrbaz := reshape (List.length backas) (List.length corrcoefs) flat in
  maxcorr <- mapM (fun l1 =>
                     col <- column corrbaz l1 ;;
                     i <- Np2.argmax col ;;
                     Py.index backas i)
                  (Py.range 0 (Py.len corrcoefs)) ;;
  coefs <- mapM (fun m1 =>
                   col <- column corrbaz m1 ;;
                   Np.max col)
                (Py.range 0 (Py.len corrcoefs)) ;;
  Ok (corrbaz, maxcorr, backas, coefs).

(** The best backazimuths of the P coda that [plotWaveformComp] keeps: 0
    for a window whose best coefficient is below 0.5. *)
Definition maxcorrp_over50 (corrbazp : list (list (option Q)))
    (maxcorrp : list Q) : result (list Q) :=
  mapM (fun i10 =>
          col <- column corrbazp i10 ;;
          best <- Np.max col ;;
          if match best with
             | Np.Fin q => Qle_bool (1 # 2) q
             | Np.PInf => true
             | _ => false
             end
          then Py.index maxcorrp i10
          else Ok 0%Q)
       (Py.range 0 (Py.len maxcorrp)).

End Scan.

(** ** Means of the phase velocities *)

Section Aggregation.

(** [np.std] *)
Variable np_std : list Np.npfloat -> Np.npfloat.

(** The finite velocities of a band, in order. *)
Fixpoint finite_values (phasv : list Np.npfloat) : list Q :=
  match phasv with
  | [] => []
  | Np.Fin q :: tl => q :: finite_values tl
  | _ :: tl => finite_values tl
  end.

(** [phasv[~np.isnan(phasv)]] *)
Definition drop_nan (phasv : list Np.npfloat) : list Np.npfloat :=
  filter (fun v => negb (Np2.isnan v)) phasv.

(** The mean and the standard deviation of the velocities of each band, as
    [plotWaveformComp] stores them. *)
Definition phasv_means_stds (bands : list (list Np.npfloat))
  : list Np.npfloat * list Np.npfloat :=
  let filtered := map drop_nan bands in
  (map (fun ksk => if negb (Py.len ksk =? 0)%Z then Np2.mean ksk else Np.NaN)
       filtered,
   map (fun ksk => if negb (Py.len ksk =? 0)%Z then np_std ksk else Np.NaN)
       filtered).

End Aggregation.

(** ** The event file

    [store_info_json], and the part of [store_info_xml] that reads the file
    back.  The folder is a map from file names to the object a file holds:
    [json.dump] and [json.load] are taken to be inverse of each other, and
    the files of the folder to be those that [store_info_json] wrote. *)

(** A value of the file: a string, a number or an object, whose items keep
    their order ([OrderedDict]). *)
#[warnings="-register-all"]
Inductive json : Type :=
| JStr (s : string)
| JNum (x : Np.npfloat)
| JObj (items : list (string * json)).

Definition OrderedDict : Type := list (string * json).

Definition Files : Type := string -> option OrderedDict.

(** [d[k] = v]: a key that is present keeps its place. *)
Fixpoint setitem (d : OrderedDict) (k : string) (v : json) : OrderedDict :=
  match d with
  | [] => [(k, v)]
  | (k', v') :: tl =>
      if String.eqb k' k then (k', v) :: tl else (k', v') :: setitem tl k v
  end.

(** [d.update(other)] *)
Definition update (d other : OrderedDict) : OrderedDict :=
  fold_left (fun acc kv => setitem acc (fst kv) (snd kv)) other d.

(** [OrderedDict(pairs)] *)
Definition mkOrderedDict (pairs : list (string * json)) : OrderedDict :=
  update [] pairs.

(** [d[k]]; [None] stands for the [KeyError] of a missing key. *)
Fixpoint getitem (d : OrderedDict) (k : string) : option json :=
  match d with
  | [] => None
  | (k', v) :: tl => if String.eqb k' k then Some v else getitem tl k
  end.

(** The builtin [max] and [min] over an array of coefficients, of which
    some may be [nan] ([None]): an item replaces the current one when it
    compares greater (less), which [nan] never does and never lets do. *)
Definition max_nan (l : list (option Q)) : result (option Q) :=
  match l with
  | [] => Raise ValueError
  | x :: tl =>
      Ok (fold_left
            (fun m y =>
               match y, m with
               | Some a, Some b => if Py.Qlt_bool b a then y else m
               | _, _ => m
               end) tl x)
  end.

Definition min_nan (l : list (option Q)) : result (option Q) :=
  match l with
  | [] => Raise ValueError
  | x :: tl =>
      Ok (fold_left
            (fun m y =>
               match y, m with
               | Some a, Some b => if Py.Qlt_bool a b then y else m
               | _, _ => m
               end) tl x)
  end.

Definition of_coef (c : option Q) : Np.npfloat :=
  match c with
  | Some q => Np.Fin q
  | None => Np.NaN
  end.

(** The parts of an obspy [Event] that the file holds. *)
Record Origin : Type := mkOrigin {
  latitude : Q;
  longitude : Q
}.

Record Magnitude : Type := mkMagnitude {
  mag : Q;
  magnitude_type : string
}.

Record Event : Type := mkEvent {
  resource_id : string;
  preferred_origin : option Origin;
  origins : list Origin;
  preferred_magnitude : option Magnitude;
  magnitudes : list Magnitude
}.

(** [preferred or items[0]] *)
Definition or_first {A : Type} (preferred : option A) (items : list A)
  : result A :=
  match preferred with
  | Some x => Ok x
  | None => Py.index items 0
  end.

Section EventFile.

(** [str] of a [UTCDateTime], given in seconds. *)
Variable str : Q -> string.

(** [tr.stats.coordinates]: latitude and longitude of the station. *)
Variable coordinates : Trace -> Q * Q.

Definition num (q : Q) : json := JNum (Np.Fin q).

(** The entry of one frequency band. *)
Definition band_entry (freqmin freqmax : Q) (mean std : Np.npfloat) : json :=
  JObj (mkOrderedDict
          [("freqmin", num freqmin); ("freqmax", num freqmax);
           ("freq_unit", JStr "Hz"); ("mean_phase_vel", JNum mean);
           ("vel_std", JNum std); ("vel_unit", JStr "km/s")]).

Definition store_info_json (rotate : list Q * list Q) (ac rt : Stream)
    (corrcoefs : list (option Q)) (baz : Baz) (arriv_p : Q) (EBA : Np.npfloat)
    (folder_name tag_name station : string)
    (phasv_means phasv_stds : list Np.npfloat) (startev : Q) (event : Event)
    (net_r net_s chan1 chan2 chan3 chan4 sta_r sta_s srcRT srcTR loc_r loc_s
       event_source : string)
    (depth gcdist : Q) (max_ebaz_xcoef : Np.npfloat) (files : Files)
  : result Files :=
  let compN := snd (station_components station) in
  orig <- or_first (preferred_origin event) (origins event) ;;
  magnitude <- or_first (preferred_magnitude event) (magnitudes event) ;;
  let distance := ((1 # 1000) * baz0 baz)%Q in
  PAT <- Py.max (snd rotate) ;;
  rt0 <- Py.index rt 0 ;;
  PRZ <- Py.max (data rt0) ;;
  PCC <- max_nan corrcoefs ;;
  MCC <- min_nan corrcoefs ;;
  let TBA := snd baz in
  trN <- Py.index (select ac compN) 0 ;;
  SNT <- sn_ratio (snd rotate) arriv_p (sampling_rate trN) ;;
  SNR <- sn_ratio (data rt0) arriv_p (sampling_rate rt0) ;;
  let dic_event :=
    mkOrderedDict
      [("event_id", JStr (resource_id event));
       ("event_source", JStr event_source);
       ("event_latitude", num (latitude orig));
       ("event_longitude", num (longitude orig));
       ("origin_time", JStr (str startev));
       ("trace_start", JStr (str (startev - 180)));
       ("trace_end", JStr (str (startev + 3 * 3600)));
       ("magnitude", num (mag magnitude));
       ("magnitude_type", JStr (magnitude_type magnitude));
       ("depth", num depth);
       ("depth_unit", JStr "km")] in
  m0 <- Py.index phasv_means 0 ;; s0 <- Py.index phasv_stds 0 ;;
  m1 <- Py.index phasv_means 1 ;; s1 <- Py.index phasv_stds 1 ;;
  m2 <- Py.index phasv_means 2 ;; s2 <- Py.index phasv_stds 2 ;;
  m3 <- Py.index phasv_means 3 ;; s3 <- Py.index phasv_stds 3 ;;
  m4 <- Py.index phasv_means 4 ;; s4 <- Py.index phasv_stds 4 ;;
  m5 <- Py.index phasv_means 5 ;; s5 <- Py.index phasv_stds 5 ;;
  m6 <- Py.index phasv_means 6 ;; s6 <- Py.index phasv_stds 6 ;;
  m7 <- Py.index phasv_means 7 ;; s7 <- Py.index phasv_stds 7 ;;
  let dic_station :=
    mkOrderedDict
      [("station_information_" ++ station,
        JObj (mkOrderedDict
          [("station_latitude", num (fst (coordinates rt0)));
           ("station_longitude", num (snd (coordinates rt0)));
           ("rotation_station",
            JObj (mkOrderedDict
              [("network", JStr net_r); ("station", JStr sta_r);
               ("loc", JStr loc_r); ("channel", JStr chan1);
               ("data_source", JStr srcRT)]));
           ("translation_station",
            JObj (mkOrderedDict
              [("network", JStr net_s); ("station", JStr sta_s);
               ("loc", JStr loc_s); ("channel_N", JStr chan3);
               ("channel_E", JStr chan2); ("channel_Z", JStr chan4);
               ("data_source", JStr srcTR)]));
           ("rotational_parameters",
            JObj (mkOrderedDict
              [("epicentral_distance", num distance);
               ("epicentral_distance_unit", JStr "km");
               ("epicentral_distance_in_deg", num gcdist);
               ("theoretical_backazimuth", num TBA);
               ("estimated_backazimuth", JNum EBA);
               ("backazimuth_unit", JStr "degrees");
               ("max_xcoef_for_estimated_backazimuth", JNum max_ebaz_xcoef);
               ("peak_vertical_rotation_rate", num PRZ);
               ("peak_vertical_rotation_rate_unit", JStr "nrad/s");
               ("peak_transverse_acceleration", num PAT);
               ("peak_transverse_acceleration_unit", JStr "nm/s^2");
               ("peak_correlation_coefficient", JNum (of_coef PCC));
               ("minimum_correlation_coefficient", JNum (of_coef MCC));
               ("vertical_rotation_rate_SNR", JNum SNR);
               ("transverse_acceleration_SNR", JNum SNT)]));
           ("phase_velocities",
            JObj (mkOrderedDict
              [("band_1", band_entry (1 # 100) (2 # 100) m0 s0);
               ("band_2", band_entry (2 # 100) (4 # 100) m1 s1);
               ("band_3", band_entry (4 # 100) (10 # 100) m2 s2);
               ("band_4", band_entry (10 # 100) (20 # 100) m3 s3);
               ("band_5", band_entry (20 # 100) (30 # 100) m4 s4);
               ("band_6", band_entry (30 # 100) (40 # 100) m5 s5);
               ("band_7", band_entry (40 # 100) (60 # 100) m6 s6);
               ("band_8", band_entry (60 # 100) 1 m7 s7)]))]))] in
  let filename_json := folder_name ++ tag_name ++ ".json" in
  let dic_event :=
    match files filename_json with
    | Some loaded => loaded
    | None => dic_event
    end in
  let dic_event := update dic_event dic_station in
  Ok (fun f => if String.eqb f filename_json then Some dic_event
               else files f).

End EventFile.

(** [data['station_information_<station>']['rotational_parameters'][RP]];
    [None] stands for the failure of one of the three lookups. *)
Definition RP_value (data : OrderedDict) (station RP : string) : option json :=
  match getitem data ("station_information_" ++ station) with
  | Some (JObj info) =>
      match getitem info "rotational_parameters" with
      | Some (JObj rp) => getitem rp RP
      | _ => None
      end
  | _ => None
  end.

(** The loop of [store_info_xml] over the parameters it copies. *)
Fixpoint read_params (data : OrderedDict) (station : string)
    (rotational_parameters : list string) : option (list (string * json)) :=
  match rotational_parameters with
  | [] => Some []
  | RP :: tl =>
      match RP_value data station RP with
      | None => None
      | Some v =>
          match read_params data station tl with
          | None => None
          | Some params => Some ((RP, v) :: params)
          end
      end
  end.

(** The part of [store_info_xml] that reads the file back: the values of the
    three rotational parameters of the station.  [None]: the file or a key
    is missing. *)
Definition store_info_xml_params (folder_name tag_name station : string)
    (files : Files) : option (list (string * json)) :=
  let filename_json := folder_name ++ tag_name ++ ".json" in
  match files filename_json with
  | None => None
  | Some data =>
      read_params data station
        ["epicentral_distance"; "theoretical_backazimuth";
         "peak_correlation_coefficient"]
  end.

(** ** The panel of the S wave

    The numbers behind the second panel of the waveform comparison: the
    velocity [cs] that scales the transverse acceleration to the rotation
    rate in the S window, the scaled acceleration in the window, and the
    limits of the vertical axis. *)
Definition plotWaveformComp_s_wave (rotate : list Q * list Q) (rt : Stream)
    (min_sw max_sw : Q)
  : result (Np.npfloat * list Np.npfloat * Np.npfloat * Np.npfloat) :=
  rt0 <- Py.index rt 0 ;;
  let rt_SR := Py.int (sampling_rate rt0) in
  let min_sw_rt := Py.round (inject_Z rt_SR * min_sw) in
  let max_sw_rt := Py.round (inject_Z rt_SR * max_sw) in
  ma <- Py.max (map Qabs (Py.slice (snd rotate) min_sw_rt max_sw_rt)) ;;
  mr <- Py.max (map Qabs (Py.slice (data rt0) min_sw_rt max_sw_rt)) ;;
  let cs := Np2.mul (Np.Fin (1 # 2)) (Np.div (Np.Fin ma) (Np.Fin mr)) in
  let scaled :=
    map (fun x => Np2.mul (Np.div (Np.Fin (1 # 2)) cs) (Np.Fin x))
        (Py.slice (snd rotate) min_sw_rt max_sw_rt) in
  minamp1_s <- Np2.pymin scaled ;;
  minamp2_s <- Py.min (Py.slice (data rt0) min_sw_rt max_sw_rt) ;;
  maxamp1_s <- Np2.pymax scaled ;;
  maxamp2_s <- Py.max (Py.slice (data rt0) min_sw_rt max_sw_rt) ;;
  ymin <- Np2.pymin [minamp1_s; Np.Fin minamp2_s] ;;
  ymax <- Np2.pymax [maxamp1_s; Np.Fin maxamp2_s] ;;
  Ok (cs, scaled, ymin, ymax).

(** ** The statements of the specification that the code does not follow

    Each is written from the words of the specification, to be compared with
    the function of the same name above. *)


(** The velocity of window [i8] as specified: half the ratio of the
    greatest absolute values, in km/s. *)
Definition phase_vel_window_as_specified (rt_SR sec : Z)
    (corrcoefs : list (option Q)) (rotate : list Q * list Q) (rt0 : Trace)
    (i8 : Z) : result Np.npfloat :=
  c <- Py.index corrcoefs i8 ;;
  if Np.ge c (3 # 4) then
    ma <- Py.max (map Qabs (Py.slice (snd rotate) (rt_SR * sec * i8)
                                                  (rt_SR * sec * (i8 + 1))))%Z ;;
    mr <- Py.max (map Qabs (Py.slice (data rt0) (rt_SR * sec * i8)
                                                (rt_SR * sec * (i8 + 1))))%Z ;;
    Ok (Np.div (Np.Fin ((1 # 2) * (1 # 1000) * ma)) (Np.Fin mr))
  else Ok Np.NaN.

(** The signal-to-noise ratio as specified: the greatest absolute value of
    the trace over the mean absolute value of the noise window. *)
Definition sn_ratio_as_specified (full_signal : list Q) (p_arrival sam_rate : Q)
  : result Np.npfloat :=
  let sam_rate := Py.int sam_rate in
  let p_arrival := Py.round p_arrival in
  peak <- Py.max (map Qabs full_signal) ;;
  let noise :=
    Np.mean (map Qabs (Py.slice full_signal (sam_rate * (p_arrival - 180))
                                            (sam_rate * (p_arrival - 100)))%Z) in
  Ok (Np.div (Np.Fin peak) noise).

(** Two outcomes that agree: the same value, or an exception on both sides. *)
Definition agree (x y : result Np.npfloat) : Prop :=
  match x, y with
  | Ok a, Ok b => same a b
  | Raise _, Raise _ => True
  | _, _ => False
  end.

(** [phasv] holds one velocity per window from window [start] on, in order,
    and none for the windows before [start]. *)
Definition windows_from (start : Z) (rt : Stream) (sec : Z)
    (corrcoefs : list (option Q)) (rotate : list Q * list Q)
    (phasv : list Np.npfloat) : Prop :=
  exists rt0 : Trace,
    Py.index rt 0 = Ok rt0 /\
    List.length phasv = Z.to_nat (Py.len corrcoefs - start) /\
    forall k : nat, (k < List.length phasv)%nat ->
      exists v, nth_error phasv k = Some v /\
                phase_vel_window (Py.int (sampling_rate rt0)) sec corrcoefs
                                 rotate rt0 (start + Z.of_nat k) = Ok v.


(** ** Inputs of the examples *)

Module Ex.

Definition trace (d : list Q) (sr : Q) (c : string) : Trace := mkTrace d sr 0 c.

(** Library functions of the simplest kind: every window correlates fully,
    the rotation keeps north as radial and east as transverse, decimation
    keeps every [factor]-th sample. *)
Definition xcorr (a b : list Q) : option Q := Some 1%Q.

Definition rotate_ne_rt (n e : list Q) (ba : Q) : list Q * list Q := (n, e).

Fixpoint every (k : nat) (i : nat) (d : list Q) : list Q :=
  match d with
  | [] => []
  | x :: tl =>
      match i with
      | O => x :: every k (Nat.pred k) tl
      | S j => every k j tl
      end
  end.

Definition decimate (factor : Z) (tr : Trace) : Trace :=
  mkTrace (every (Z.to_nat factor) 0 (data tr))
          (sampling_rate tr / inject_Z factor) (starttime tr) (component tr).

(** A TauP answer with direct and surface-reflected P and S phases. *)
Definition get_travel_times (distance_in_degree depth : Q) : list Arrival :=
  [mkArrival "P" (4001 # 10); mkArrival "PP" (4507 # 10);
   mkArrival "PcP" 500; mkArrival "S" (7203 # 10); mkArrival "SS" 800].

(** A model that answers with core phases of neither family. *)
Definition no_arrivals (distance_in_degree depth : Q) : list Arrival :=
  [mkArrival "PcP" 500; mkArrival "ScS" 900].

(** Ten samples at 2.5 Hz. *)
Definition rotra : Trace :=
  trace [1; 2; 3; 4; 5; 6; 7; 8; 9; 10]%Q (5 # 2) "Z".

Definition acstr : Stream :=
  [trace [1; 2; 3; 4; 5; 6; 7; 8; 9; 10]%Q 2 "N";
   trace [1; 2; 3; 4; 5; 6; 7; 8; 9; 10]%Q 2 "E"].

(** Four samples of rotation rate at 1 Hz and the rotated acceleration: in
    the first window of two seconds both swing further down than up. *)
Definition rt : Stream := [trace [1; -2; 1; 1]%Q 1 "Z"].

Definition rotate : list Q * list Q := ([0; 0; 0; 0]%Q, [1; -4; 0; 0]%Q).

(** The first window correlates fully, the second one at 0.5. *)
Definition corrcoefs : list (option Q) := [Some 1%Q; Some (1 # 2)%Q].

Definition band : Band := mkBand rt corrcoefs rotate.

(** Sums of a backazimuth scan whose only good candidate is 1 degree. *)
Definition corrsum : list Q := (0 :: 1 :: repeat 0 358)%Q.

(** 82 seconds at 1 Hz: a noise floor of 1, then a swing to -5 and 2. *)
Definition full_signal : list Q := (repeat 1 80 ++ [-5; 2])%Q%list.

(** 82 seconds at 1 Hz: 80 seconds of noise that alternates between 3 and
    -1 (mean 1, mean amplitude 2), then a swing to -6 and 4. *)
Definition noisy_signal : list Q :=
  (List.concat (repeat [3; -1] 40) ++ [-6; 4])%Q%list.

(** A backazimuth scan with a known answer: the rotation rate copies the
    east component, and the stand-in rotation gives the east component as
    transverse at 45 degrees only; two windows of equal samples correlate at
    1.0, others at 0.5. *)
Fixpoint same_samples (a b : list Q) : bool :=
  match a, b with
  | [], [] => true
  | x :: a', y :: b' => Qeq_bool x y && same_samples a' b'
  | _, _ => false
  end.

Definition xcorr_eq (a b : list Q) : option Q :=
  if same_samples a b then Some 1%Q else Some (1 # 2)%Q.

Definition rotate_at_45 (n e : list Q) (ba : Q) : list Q * list Q :=
  (n, if Qeq_bool ba 45 then e else n).

Definition scan_rt : Stream := [trace (repeat 1%Q 60) 1 "Z"].

Definition scan_ac : Stream :=
  [trace (repeat 0%Q 60) 1 "N"; trace (repeat 1%Q 60) 1 "E";
   trace (repeat 0%Q 60) 1 "Z"].

Definition scan_corrsum : list Q :=
  (repeat 0%Q 45 ++ [2%Q] ++ repeat 0%Q 314)%list.

(** Five samples at one sample per ten minutes: 1800 s hold three of them. *)
Definition slow (c : string) : Trace := trace [1; 2; 3; 4; 5]%Q (1 # 600) c.

End Ex.

(** ** Inputs of the further examples *)

Module ExMore.

(** A stand-in for the line fit: 30 s per degree, through the origin. *)
Definition polyfit1 (x y : list Q) : Q * Q := (30, 0)%Q.

(** A stand-in for [np.std]. *)
Definition np_std (a : list Np.npfloat) : Np.npfloat := Np.Fin 0.

(** The answer of [Ex.get_travel_times], last phase first. *)
Definition get_travel_times_rev (distance_in_degree depth : Q) : list Arrival :=
  rev (Ex.get_travel_times distance_in_degree depth).

(** No window correlates at more than 0.5. *)
Definition xcorr_half (a b : list Q) : option Q := Some (1 # 2)%Q.

(** A scan in steps of 10 degrees with a known answer: the rotation rate
    copies the east component, which the stand-in rotation gives as
    transverse at 40 degrees only. *)
Definition rotate_at_40 (n e : list Q) (ba : Q) : list Q * list Q :=
  (n, if Qeq_bool ba 40 then e else n).

Definition rotra : Trace := Ex.trace [1; 1; 1; 1]%Q 1 "Z".

Definition acstr : Stream :=
  [Ex.trace [0; 0; 0; 0]%Q 1 "N"; Ex.trace [1; 1; 1; 1]%Q 1 "E"].

(** The table of the scan: 1.0 in both windows for 40 degrees, 0.5 for the
    other candidates. *)
Definition table : list (list (option Q)) :=
  (repeat [Some (1 # 2); Some (1 # 2)] 4 ++ [[Some 1; Some 1]]
   ++ repeat [Some (1 # 2); Some (1 # 2)] 31)%Q%list.

(** The event file of the examples. *)
Definition str (t : Q) : string := "2017-01-10T06:13:48".

Definition coordinates (tr : Trace) : Q * Q := (49, 12)%Q.

(** An event with no preferred origin and no preferred magnitude. *)
Definition event : Event :=
  mkEvent "smi:local/ev1" None [mkOrigin 4 122] None [mkMagnitude 7 "Mw"].

Definition no_files : Files := fun _ => None.

(** The folder after the call for the station "RLAS", and then after the
    call for a second station, of which the components are "1" and "2". *)
Definition stored : Files :=
  match
    store_info_json str coordinates Ex.rotate Ex.scan_ac Ex.rt Ex.corrcoefs
      (5000000, 0, 90)%Q 580 (Np.Fin 45) "ev1/" "ev1" "RLAS"
      (repeat Np.NaN 8) (repeat Np.NaN 8) 180 event
      "BW" "GR" "BJZ" "BHE" "BHN" "BHZ" "RLAS" "WET" "LMU" "BGR" "" ""
      "GCMT" 10 45 (Np.Fin 1) no_files
  with
  | Ok files => files
  | Raise _ => no_files
  end.

Definition stored_twice : Files :=
  match
    store_info_json str coordinates Ex.rotate
      [Ex.trace [0; 0; 0; 0]%Q 1 "2"; Ex.trace [1; 1; 1; 1]%Q 1 "1"]
      Ex.rt Ex.corrcoefs
      (5000000, 0, 90)%Q 580 (Np.Fin 45) "ev1/" "ev1" "ROMY"
      (repeat Np.NaN 8) (repeat Np.NaN 8) 180 event
      "BW" "GR" "BJZ" "BH1" "BH2" "BHZ" "ROMY" "FUR" "LMU" "BGR" "" ""
      "GCMT" 10 45 (Np.Fin 1) stored
  with
  | Ok files => files
  | Raise _ => stored
  end.

End ExMore.

(** * Properties *)

(** ** Comparisons *)

Lemma Qlt_bool_iff (a b : Q) : Py.Qlt_bool a b = true <-> (a < b)%Q.
Proof.
  unfold Py.Qlt_bool. rewrite negb_true_iff.
  destruct (Qle_bool b a) eqn:E.
  - apply Qle_bool_iff in E. split; [discriminate | intros H; exfalso; lra].
  - split; [intros _ | reflexivity].
    destruct (Qlt_le_dec a b) as [H | H]; [exact H |].
    apply Qle_bool_iff in H. congruence.
Qed.

Lemma Qlt_bool_false_iff (a b : Q) : Py.Qlt_bool a b = false <-> (b <= a)%Q.
Proof.
  unfold Py.Qlt_bool. rewrite negb_false_iff. apply Qle_bool_iff.
Qed.

(** ** Distance classification *)

(** C5: [is_local] answers "close" exactly below 3 degrees, "local" exactly
    from 3 (included) to 10 (excluded) and "non-local" exactly from 10
    (included) on; both comparisons are strict, so that the two boundary
    distances fall into the larger class; the test is the nested one, an
    outer [< 10.0] with an inner [< 3.0]. *)
Theorem is_local_thresholds :
  forall baz : Baz,
    let x := ((1 # 1000) * baz0 baz / (11111 # 100))%Q in
    (is_local baz = "close" <-> (x < 3)%Q) /\
    (is_local baz = "local" <-> (3 <= x /\ x < 10)%Q) /\
    (is_local baz = "non-local" <-> (10 <= x)%Q) /\
    is_local baz =
      (if Py.Qlt_bool x 10
       then if Py.Qlt_bool x 3 then "close" else "local"
       else "non-local") /\
    (dist_deg (333330 # 1, snd (fst baz), snd baz) == 3)%Q /\
    is_local (333330 # 1, snd (fst baz), snd baz) = "local" /\
    (dist_deg (1111100 # 1, snd (fst baz), snd baz) == 10)%Q /\
    is_local (1111100 # 1, snd (fst baz), snd baz) = "non-local".
Proof.
  intros baz x. unfold is_local. fold x.
  destruct (Py.Qlt_bool x 10) eqn:E10; destruct (Py.Qlt_bool x 3) eqn:E3;
    try apply Qlt_bool_iff in E10; try apply Qlt_bool_iff in E3;
    try apply Qlt_bool_false_iff in E10; try apply Qlt_bool_false_iff in E3;
    repeat split; intros; try discriminate; try reflexivity; try lra.
Qed.

Example is_local_examples :
  is_local (200000, 0, 0)%Q = "close" /\
  is_local (500000, 0, 0)%Q = "local" /\
  is_local (5000000, 0, 0)%Q = "non-local".
Proof. repeat split. Qed.

(** ** Ranges, slices and loops *)

Lemma range_length (a b : Z) : List.length (Py.range a b) = Z.to_nat (b - a).
Proof. unfold Py.range. now rewrite length_map, length_seq. Qed.

Lemma range_nth_error (a b : Z) (k : nat) :
  (k < Z.to_nat (b - a))%nat ->
  nth_error (Py.range a b) k = Some (a + Z.of_nat k)%Z.
Proof.
  intros H. unfold Py.range.
  rewrite nth_error_map, nth_error_seq.
  destruct (Nat.ltb_spec k (Z.to_nat (b - a))); [reflexivity | lia].
Qed.

Lemma clamp_in_range (n i : Z) : (0 <= i <= n)%Z -> Py.clamp n i = i.
Proof. intros H. unfold Py.clamp. destruct (Z.ltb_spec i 0); lia. Qed.

(** A slice whose bounds lie inside the sequence holds exactly the items
    from [a] (included) to [b] (excluded). *)
Lemma slice_in_range {A : Type} (l : list A) (a b : Z) :
  (0 <= a <= b)%Z -> (b <= Py.len l)%Z ->
  Py.slice l a b = firstn (Z.to_nat (b - a)) (skipn (Z.to_nat a) l).
Proof.
  intros H1 H2. unfold Py.slice.
  rewrite !clamp_in_range by lia. reflexivity.
Qed.

Lemma slice_in_range_length {A : Type} (l : list A) (a b : Z) :
  (0 <= a <= b)%Z -> (b <= Py.len l)%Z ->
  List.length (Py.slice l a b) = Z.to_nat (b - a).
Proof.
  intros H1 H2. rewrite slice_in_range by assumption.
  rewrite length_firstn, length_skipn. unfold Py.len in H2. lia.
Qed.

Lemma slice_in_range_nth_error {A : Type} (l : list A) (a b : Z) (k : nat) :
  (0 <= a <= b)%Z -> (b <= Py.len l)%Z -> (k < Z.to_nat (b - a))%nat ->
  nth_error (Py.slice l a b) k = nth_error l (Z.to_nat a + k).
Proof.
  intros H1 H2 H3. rewrite slice_in_range by assumption.
  rewrite nth_error_firstn.
  destruct (Nat.ltb_spec k (Z.to_nat (b - a))); [| lia].
  apply nth_error_skipn.
Qed.

Lemma slice_from_0 {A : Type} (l : list A) (n : Z) :
  (0 <= n)%Z -> Py.slice l 0 n = firstn (Z.to_nat n) l.
Proof.
  intros H. unfold Py.slice.
  assert (H0 : Py.clamp (Py.len l) 0 = 0%Z).
  { apply clamp_in_range. unfold Py.len. lia. }
  rewrite H0. simpl skipn. rewrite Z.sub_0_r.
  unfold Py.clamp. destruct (Z.ltb_spec n 0); [lia |].
  destruct (Z.min_spec n (Py.len l)) as [[? ->] | [? ->]]; [reflexivity |].
  unfold Py.len in *. rewrite Nat2Z.id.
  rewrite !firstn_all2; [reflexivity | lia | lia].
Qed.

Lemma index_of_nat {A : Type} (l : list A) (k : nat) :
  Py.index l (Z.of_nat k)
    = match nth_error l k with Some x => Ok x | None => Raise IndexError end.
Proof.
  unfold Py.index. cbv zeta.
  assert (E : (Z.of_nat k <? 0)%Z = false) by (apply Z.ltb_ge; lia).
  rewrite !E. now rewrite Nat2Z.id.
Qed.

Lemma mapM_Forall2 {A B : Type} (f : A -> result B) (l : list A) (ys : list B) :
  mapM f l = Ok ys -> Forall2 (fun x y => f x = Ok y) l ys.
Proof.
  revert ys. induction l as [| x tl IH]; intros ys H; simpl in H.
  - injection H as <-. constructor.
  - destruct (f x) as [y |] eqn:Ex; simpl in H; [| discriminate].
    destruct (mapM f tl) as [ys' |] eqn:Et; simpl in H; [| discriminate].
    injection H as <-. constructor; [exact Ex | now apply IH].
Qed.

Lemma mapM_total {A B : Type} (f : A -> result B) (l : list A) :
  (forall x, In x l -> exists y, f x = Ok y) -> exists ys, mapM f l = Ok ys.
Proof.
  induction l as [| x tl IH]; intros H; simpl.
  - now exists [].
  - destruct (H x (or_introl eq_refl)) as [y ->].
    destruct IH as [ys ->]; [intros z Hz; apply H; now right |].
    now exists (y :: ys).
Qed.

Lemma range_In (a b i : Z) : In i (Py.range a b) <-> (a <= i < b)%Z.
Proof.
  unfold Py.range. rewrite in_map_iff. split.
  - intros (k & <- & Hk). apply in_seq in Hk. lia.
  - intros H. exists (Z.to_nat (i - a)). split; [lia |].
    apply in_seq. lia.
Qed.

Lemma slice_in_range_nonempty {A : Type} (l : list A) (a b : Z) :
  (0 <= a < b)%Z -> (b <= Py.len l)%Z -> Py.slice l a b <> [].
Proof.
  intros H1 H2 E.
  pose proof (slice_in_range_length l a b ltac:(lia) H2) as Hlen.
  rewrite E in Hlen. simpl in Hlen. lia.
Qed.

Lemma Forall2_nth_error {A B : Type} (R : A -> B -> Prop) l ys (k : nat) x :
  Forall2 R l ys -> nth_error l k = Some x ->
  exists y, nth_error ys k = Some y /\ R x y.
Proof.
  intros H. revert k. induction H as [| a b l' ys' Hab _ IH]; intros k Hk.
  - destruct k; discriminate.
  - destruct k as [| k]; simpl in *.
    + injection Hk as <-. now exists b.
    + now apply IH.
Qed.

Lemma mapM_ok_pure {A B : Type} (f : A -> result B) (g : A -> B)
      (l : list A) (ys : list B) :
  (forall x y, In x l -> f x = Ok y -> y = g x) ->
  mapM f l = Ok ys -> ys = map g l.
Proof.
  revert ys. induction l as [| x tl IH]; intros ys Hg H; simpl in H.
  - now injection H as <-.
  - destruct (f x) as [y |] eqn:Ex; cbn [bind] in H; [| discriminate].
    destruct (mapM f tl) as [ys' |] eqn:Et; cbn [bind] in H; [| discriminate].
    injection H as <-. simpl. f_equal.
    + apply Hg; [now left | exact Ex].
    + apply IH; [| reflexivity]. intros z y' Hz. apply Hg. now right.
Qed.

Lemma mapM_ok_each {A B : Type} (f : A -> result B) (l : list A) (ys : list B) :
  mapM f l = Ok ys -> forall x, In x l -> exists y, f x = Ok y.
Proof.
  revert ys. induction l as [| x tl IH]; intros ys H z Hz; simpl in H.
  - contradiction.
  - destruct (f x) as [y |] eqn:Ex; cbn [bind] in H; [| discriminate].
    destruct (mapM f tl) as [ys' |] eqn:Et; cbn [bind] in H; [| discriminate].
    destruct Hz as [<- | Hz]; [eauto | now apply (IH ys')].
Qed.

Lemma mapM_ok_map {A B : Type} (f : A -> result B) (g : A -> B) (l : list A) :
  (forall x, In x l -> f x = Ok (g x)) -> mapM f l = Ok (map g l).
Proof.
  induction l as [| x tl IH]; intros H; [reflexivity |].
  simpl. rewrite (H x (or_introl eq_refl)). cbn [bind].
  rewrite IH by (intros y Hy; apply H; now right). reflexivity.
Qed.

Lemma mapM_raise {A B : Type} (f : A -> result B) (l : list A) (e : exn) :
  (forall x, In x l -> f x = Raise e \/ exists y, f x = Ok y) ->
  (exists x, In x l /\ f x = Raise e) ->
  mapM f l = Raise e.
Proof.
  induction l as [| x tl IH]; intros Hall (x0 & Hin & Hx0).
  - contradiction.
  - simpl. destruct (Hall x (or_introl eq_refl)) as [-> | [y Hy]];
      [reflexivity |].
    rewrite Hy. cbn [bind].
    rewrite IH; [reflexivity | intros z Hz; apply Hall; now right |].
    destruct Hin as [<- | Hin]; [congruence |].
    now exists x0.
Qed.

(** The pairs of a loop nest, the outer loop over [outer], the inner one
    over [inner]. *)
Lemma in_pairs {A B : Type} (outer : list A) (inner : list B) (a : A) (b : B) :
  In (a, b) (flat_map (fun a' => map (fun b' => (a', b')) inner) outer)
  <-> In a outer /\ In b inner.
Proof.
  rewrite in_flat_map. split.
  - intros (a' & Ha & Hin). apply in_map_iff in Hin.
    destruct Hin as (b' & E & Hb). injection E as -> ->. now split.
  - intros [Ha Hb]. exists a. split; [exact Ha |].
    apply in_map_iff. now exists b.
Qed.

Lemma map_pairs {A B C : Type} (f : A -> B -> C) (outer : list A)
      (inner : list B) :
  map (fun p : A * B => f (fst p) (snd p))
      (flat_map (fun a => map (fun b => (a, b)) inner) outer)
  = flat_map (fun a => map (f a) inner) outer.
Proof.
  rewrite !flat_map_concat_map, concat_map, map_map. f_equal.
  apply map_ext. intros a. now rewrite map_map.
Qed.

(** A window of [w] samples that the count [len(l) // w] accounts for is
    whole, and so not empty. *)
Lemma whole_window (A : Type) (l : list A) (w i : Z) :
  (w <> 0)%Z -> (0 <= i < Py.len l / w)%Z ->
  (0 < w)%Z /\ (0 <= w * i)%Z /\ (w * (i + 1) <= Py.len l)%Z.
Proof.
  intros Hw Hi.
  assert (Hlen : (0 <= Py.len l)%Z) by (unfold Py.len; lia).
  assert (Hpos : (0 < w)%Z).
  { destruct (Z.lt_trichotomy w 0) as [Hneg | [E | Hp]]; [| lia | exact Hp].
    exfalso.
    pose proof (Z.div_mod (Py.len l) w Hw) as Hd.
    pose proof (Z.mod_neg_bound (Py.len l) w Hneg) as Hm.
    nia. }
  split; [exact Hpos |]. split; [nia |].
  pose proof (Z.mul_div_le (Py.len l) w Hpos). nia.
Qed.

Lemma whole_window_nonempty (A : Type) (l : list A) (w i : Z) :
  (w <> 0)%Z -> (0 <= i < Py.len l / w)%Z ->
  Py.slice l (w * i) (w * (i + 1)) <> [].
Proof.
  intros Hw Hi. destruct (whole_window A l w i Hw Hi) as (Hpos & H0 & H1).
  apply slice_in_range_nonempty; [nia | exact H1].
Qed.

(** ** The checks of the library calls *)

Section CheckedProps.

Variable xcorr : list Q -> list Q -> option Q.
Variable rotate_ne_rt : list Q -> list Q -> Q -> list Q * list Q.

Lemma xcorr_checked_nonempty (a b : list Q) :
  a <> [] -> b <> [] -> xcorr_checked xcorr a b = Ok (xcorr a b).
Proof.
  intros Ha Hb. unfold xcorr_checked.
  destruct a; [congruence |]. destruct b; [congruence |].
  unfold Py.len. cbn [List.length].
  destruct (Z.leb_spec (Z.min (Z.of_nat (S (List.length a)))
                              (Z.of_nat (S (List.length b))) - 2 * 0) 0);
    [lia | reflexivity].
Qed.

Lemma xcorr_checked_empty (a b : list Q) :
  a = [] \/ b = [] -> xcorr_checked xcorr a b = Raise ValueError.
Proof.
  intros H. unfold xcorr_checked.
  destruct (Z.leb_spec (Z.min (Py.len a) (Py.len b) - 2 * 0) 0);
    [reflexivity |].
  exfalso. destruct H as [-> | ->]; unfold Py.len in *; simpl in *; lia.
Qed.

Lemma xcorr_checked_ok (a b : list Q) (c : option Q) :
  xcorr_checked xcorr a b = Ok c -> c = xcorr a b /\ a <> [] /\ b <> [].
Proof.
  intros H.
  destruct a as [| x a'].
  { rewrite xcorr_checked_empty in H by now left. discriminate. }
  destruct b as [| y b'].
  { rewrite xcorr_checked_empty in H by now right. discriminate. }
  rewrite xcorr_checked_nonempty in H by discriminate.
  injection H as <-. repeat split; discriminate.
Qed.

Lemma xcorr_checked_ok_or_ValueError (a b : list Q) :
  xcorr_checked xcorr a b = Raise ValueError \/
  exists c, xcorr_checked xcorr a b = Ok c.
Proof.
  unfold xcorr_checked.
  destruct (Z.min (Py.len a) (Py.len b) - 2 * 0 <=? 0)%Z; eauto.
Qed.

Lemma rotate_ne_rt_checked_ok (n e : list Q) (ba : Q) (r : list Q * list Q) :
  rotate_ne_rt_checked rotate_ne_rt n e ba = Ok r ->
  r = rotate_ne_rt n e ba /\ Py.len n = Py.len e.
Proof.
  unfold rotate_ne_rt_checked.
  destruct (Z.eqb_spec (Py.len n) (Py.len e)) as [E | _]; cbn [negb];
    [| discriminate].
  destruct (Py.Qlt_bool ba 0 || Py.Qlt_bool 360 ba); [discriminate |].
  intros H. injection H as <-. now split.
Qed.

Lemma rotate_ne_rt_checked_same_length (n e : list Q) (ba : Q) :
  Py.len n = Py.len e -> (0 <= ba)%Q -> (ba <= 360)%Q ->
  rotate_ne_rt_checked rotate_ne_rt n e ba = Ok (rotate_ne_rt n e ba).
Proof.
  intros E H0 H1. unfold rotate_ne_rt_checked.
  rewrite E, Z.eqb_refl. cbn [negb].
  rewrite (proj2 (Qlt_bool_false_iff ba 0) H0).
  rewrite (proj2 (Qlt_bool_false_iff 360 ba) H1).
  reflexivity.
Qed.

Lemma rotate_ne_rt_checked_TypeError (n e : list Q) (ba : Q) :
  Py.len n <> Py.len e ->
  rotate_ne_rt_checked rotate_ne_rt n e ba = Raise TypeError.
Proof.
  intros H. unfold rotate_ne_rt_checked.
  destruct (Z.eqb_spec (Py.len n) (Py.len e)); [contradiction | reflexivity].
Qed.

End CheckedProps.

(** ** [max], [min], [sum] and [argmax] *)

Lemma fold_max_spec (tl : list Q) (x : Q) :
  let m := fold_left (fun m y => if Py.Qlt_bool m y then y else m) tl x in
  (m = x \/ In m tl) /\ (x <= m)%Q /\ (forall y, In y tl -> (y <= m)%Q).
Proof.
  revert x. induction tl as [| y tl IH]; intros x; simpl.
  - repeat split; [now left | lra | tauto].
  - destruct (Py.Qlt_bool x y) eqn:E.
    + apply Qlt_bool_iff in E.
      destruct (IH y) as (Hin & Hle & Hub).
      repeat split.
      * right. destruct Hin as [-> | Hin]; [now left | now right].
      * lra.
      * intros z [<- | Hz]; [exact Hle | now apply Hub].
    + apply Qlt_bool_false_iff in E.
      destruct (IH x) as (Hin & Hle & Hub).
      repeat split.
      * destruct Hin as [-> | Hin]; [now left | right; now right].
      * exact Hle.
      * intros z [<- | Hz]; [lra | now apply Hub].
Qed.

Lemma max_spec (l : list Q) (m : Q) :
  Py.max l = Ok m -> In m l /\ (forall y, In y l -> (y <= m)%Q).
Proof.
  destruct l as [| x tl]; simpl; [discriminate |].
  intros H. injection H as <-.
  destruct (fold_max_spec tl x) as (Hin & Hle & Hub).
  split.
  - destruct Hin as [-> | Hin]; [now left | now right].
  - intros y [<- | Hy]; [exact Hle | now apply Hub].
Qed.

Lemma max_total (l : list Q) : l <> [] -> exists m, Py.max l = Ok m.
Proof. destruct l; [congruence | intros _; simpl; eauto]. Qed.

Lemma fold_min_spec (tl : list Q) (x : Q) :
  let m := fold_left (fun m y => if Py.Qlt_bool y m then y else m) tl x in
  (m = x \/ In m tl) /\ (m <= x)%Q /\ (forall y, In y tl -> (m <= y)%Q).
Proof.
  revert x. induction tl as [| y tl IH]; intros x; simpl.
  - repeat split; [now left | lra | tauto].
  - destruct (Py.Qlt_bool y x) eqn:E.
    + apply Qlt_bool_iff in E.
      destruct (IH y) as (Hin & Hle & Hub).
      repeat split.
      * right. destruct Hin as [-> | Hin]; [now left | now right].
      * lra.
      * intros z [<- | Hz]; [exact Hle | now apply Hub].
    + apply Qlt_bool_false_iff in E.
      destruct (IH x) as (Hin & Hle & Hub).
      repeat split.
      * destruct Hin as [-> | Hin]; [now left | right; now right].
      * exact Hle.
      * intros z [<- | Hz]; [lra | now apply Hub].
Qed.

Lemma min_spec (l : list Q) (m : Q) :
  Py.min l = Ok m -> In m l /\ (forall y, In y l -> (m <= y)%Q).
Proof.
  destruct l as [| x tl]; simpl; [discriminate |].
  intros H. injection H as <-.
  destruct (fold_min_spec tl x) as (Hin & Hle & Hub).
  split.
  - destruct Hin as [-> | Hin]; [now left | now right].
  - intros y [<- | Hy]; [exact Hle | now apply Hub].
Qed.

(** ** Resampling policy *)

Lemma int_nonneg (x : Q) : (0 <= x)%Q -> (0 <= Py.int x)%Z.
Proof.
  intros H. unfold Py.int. apply Z.quot_pos; [| lia].
  unfold Qle in H. simpl in H. lia.
Qed.

Section ResampleProps.

Variable decimate : Z -> Trace -> Trace.

(** C9: [resample] follows the distance-class policy.  For "close" and
    "local" every channel keeps its first [int(1800 * sampling_rate)] samples,
    the P-coda copies are the truncated, undecimated channels and the main
    copies are decimated by 2, with (sec, cutoff) = (3, 4.0) and (5, 2.0);
    for "non-local" nothing is truncated, the P-coda copies are decimated by
    2 and the main copies by 4, with (sec, cutoff) = (120, 1.0); the P-coda
    highpass cutoff is 0.5 for every class. *)
Theorem resample_policy :
  forall (baz : Baz) (rt0 : Trace) (rt ac : Stream),
    let n := Py.int (1800 * sampling_rate rt0) in
    let cut := fun trr => set_data trr (Py.slice (data trr) 0 n) in
    resample decimate "close" baz (rt0 :: rt) ac =
      Ok (mkResampled (map (decimate 2) (map cut (rt0 :: rt)))
                      (map (decimate 2) (map cut ac))
                      (map cut (rt0 :: rt)) (map cut ac) 3 4 (1 # 2)) /\
    resample decimate "local" baz (rt0 :: rt) ac =
      Ok (mkResampled (map (decimate 2) (map cut (rt0 :: rt)))
                      (map (decimate 2) (map cut ac))
                      (map cut (rt0 :: rt)) (map cut ac) 5 2 (1 # 2)) /\
    resample decimate "non-local" baz (rt0 :: rt) ac =
      Ok (mkResampled (map (decimate 4) (rt0 :: rt)) (map (decimate 4) ac)
                      (map (decimate 2) (rt0 :: rt)) (map (decimate 2) ac)
                      120 1 (1 # 2)) /\
    ((0 <= sampling_rate rt0)%Q ->
     forall trr, data (cut trr) = firstn (Z.to_nat n) (data trr)) /\
    (forall cls r, resample decimate cls baz (rt0 :: rt) ac = Ok r ->
                   res_cutoff_pc r = (1 # 2)%Q).
Proof.
  intros baz rt0 rt ac n cut.
  repeat split.
  - intros Hsr trr. unfold cut, set_data. simpl.
    apply slice_from_0. apply int_nonneg. lra.
  - intros cls r. unfold resample.
    destruct (String.eqb cls "local");
      [| destruct (String.eqb cls "non-local");
         [| destruct (String.eqb cls "close") ] ];
      simpl; intros H; try discriminate; injection H as <-; reflexivity.
Qed.

End ResampleProps.

(** ** Arrival times *)

Section ArrivalProps.

Variable get_travel_times : Q -> Q -> list Arrival.

(** C8: [ps_arrival_times] keeps the phases of the P family and of the S
    family, returns for each family the floor of [init_sec] plus the least
    travel time of the family, and raises as soon as one family has no
    phase in the answer of the travel-time model. *)
Theorem ps_arrival_times_families :
  forall distance depth init_sec : Q,
    let tt := get_travel_times ((1 # 1000) * distance / (11111 # 100)) depth in
    let tiemp :=
      map time
        (filter (fun a => member (name a)
           ["P"; "p"; "Pdiff"; "PKiKP"; "PKIKP"; "PP"; "Pb"; "Pn"; "Pg"]) tt) in
    let tiems :=
      map time
        (filter (fun a => member (name a)
           ["S"; "s"; "Sdiff"; "SKiKS"; "SKIKS"; "SS"; "Sb"; "Sn"; "Sg"]) tt) in
    (tiemp = [] \/ tiems = [] ->
     ps_arrival_times get_travel_times distance depth init_sec
       = Raise ValueError) /\
    (tiemp <> [] -> tiems <> [] ->
     exists mp ms : Q,
       In mp tiemp /\ (forall t, In t tiemp -> (mp <= t)%Q) /\
       In ms tiems /\ (forall t, In t tiems -> (ms <= t)%Q) /\
       ps_arrival_times get_travel_times distance depth init_sec
         = Ok (inject_Z (Qfloor (init_sec + mp)),
               inject_Z (Qfloor (init_sec + ms)))).
Proof.
  intros distance depth init_sec tt tiemp tiems.
  unfold ps_arrival_times, family_times, pwave_list, swave_list.
  fold tt. fold tiemp. fold tiems.
  split.
  - intros [Hp | Hs].
    + rewrite Hp. reflexivity.
    + rewrite Hs. destruct tiemp; reflexivity.
  - intros Hp Hs.
    destruct (Py.min tiemp) as [mp | e] eqn:Ep.
    2:{ destruct tiemp; [congruence | discriminate]. }
    destruct (Py.min tiems) as [ms | e] eqn:Es.
    2:{ destruct tiems; [congruence | discriminate]. }
    exists mp, ms.
    destruct (min_spec _ _ Ep) as [Hin1 Hlb1].
    destruct (min_spec _ _ Es) as [Hin2 Hlb2].
    simpl. repeat split; assumption.
Qed.

End ArrivalProps.

(** With the example answer the first P arrives after 400.1 s and the first
    S after 720.3 s; the event starts 180 s into the data. *)
Example ps_arrival_times_example :
  ps_arrival_times Ex.get_travel_times 5000000 10 180 = Ok (580, 900)%Q.
Proof. reflexivity. Qed.

Example ps_arrival_times_no_family :
  ps_arrival_times Ex.no_arrivals 5000000 10 180 = Raise ValueError.
Proof. reflexivity. Qed.

(** ** Windowed correlation *)

Lemma int_whole (x : Q) (r : Z) : (x == inject_Z r)%Q -> Py.int x = r.
Proof.
  intros H. unfold Py.int. unfold Qeq in H. simpl in H.
  rewrite Z.mul_1_r in H. rewrite H. apply Z.quot_mul. lia.
Qed.


Section CorrcoefsProps.

Variable xcorr : list Q -> list Q -> option Q.

(** The two outcomes of [Get_corrcoefs] once the north component is there
    and the window length in samples is not zero. *)
Lemma Get_corrcoefs_cases (rotra : Trace) (rodat : list Q) (acstr : Stream)
      (rotate_array : list Q) (sec : Z) (station : string) (trN : Trace) :
  Py.index (select acstr (snd (station_components station))) 0 = Ok trN ->
  (Py.int (sampling_rate rotra) * sec <> 0)%Z ->
  let R := Py.int (sampling_rate rotra) in
  let A := Py.int (sampling_rate trN) in
  let n := (Py.len rodat / (R * sec))%Z in
  let coef := fun i : Z =>
    xcorr (Py.slice rodat (R * sec * i) (R * sec * (i + 1)))
          (Py.slice rotate_array (A * sec * i) (A * sec * (i + 1))) in
  ((forall i : Z, (0 <= i < n)%Z ->
      Py.slice rotate_array (A * sec * i) (A * sec * (i + 1)) <> []) ->
   Get_corrcoefs xcorr rotra rodat acstr rotate_array sec station
     = Ok (map coef (Py.range 0 n),
           repeat (3 # 4)%Q (S (List.length (map coef (Py.range 0 n)))))) /\
  ((exists i : Z, (0 <= i < n)%Z /\
      Py.slice rotate_array (A * sec * i) (A * sec * (i + 1)) = []) ->
   Get_corrcoefs xcorr rotra rodat acstr rotate_array sec station
     = Raise ValueError).
Proof.
  intros Hidx Hnz R A n coef.
  unfold Get_corrcoefs. rewrite Hidx. cbn [bind].
  unfold Py.floordiv. fold R.
  destruct (Z.eqb_spec (R * sec) 0) as [E | _]; [contradiction |].
  cbn [bind]. fold A. fold n.
  split.
  - intros Hwin.
    rewrite (mapM_ok_map _ coef).
    + reflexivity.
    + intros i Hi. apply range_In in Hi.
      apply xcorr_checked_nonempty; [| now apply Hwin].
      now apply whole_window_nonempty.
  - intros (i & Hi & Hempty).
    rewrite (mapM_raise _ _ ValueError); [reflexivity | |].
    + intros j _. apply xcorr_checked_ok_or_ValueError.
    + exists i. split; [now apply range_In |].
      apply xcorr_checked_empty. now right.
Qed.


End CorrcoefsProps.




(** ** Phase velocities *)

Lemma phase_vel_windows_from rt sec corrcoefs rotate corrsum backas2
      (ind_band : bool) (ind_surf : Z) phasv EBA :
  phase_vel rt sec corrcoefs rotate corrsum backas2 ind_band ind_surf
    = Ok (phasv, EBA) ->
  windows_from (if ind_band then ind_surf else 0%Z) rt sec corrcoefs rotate phasv.
Proof.
  unfold phase_vel, windows_from.
  destruct (Py.index rt 0) as [rt0 |]; cbn [bind]; [| discriminate].
  set (start := if ind_band then ind_surf else 0%Z).
  destruct (mapM _ _) as [ys |] eqn:Em; cbn [bind]; [| discriminate].
  intros H.
  assert (Hys : ys = phasv).
  { destruct (Py.max corrsum) as [m |]; cbn [bind] in H; [| discriminate].
    destruct (Qeq_bool m 0); [now injection H |].
    destruct (Np.argmax corrsum) as [i |]; cbn [bind] in H; [| discriminate].
    destruct (Py.index backas2 i); cbn [bind] in H; [| discriminate].
    now injection H. }
  subst ys. clear H.
  apply mapM_Forall2 in Em.
  pose proof (Forall2_length Em) as Hlen. rewrite range_length in Hlen.
  exists rt0. split; [reflexivity |]. split; [now symmetry |].
  intros k Hk.
  destruct (Forall2_nth_error _ _ _ k _ Em
              (range_nth_error start (Py.len corrcoefs) k ltac:(lia)))
    as (v & Hv & Hf).
  exists v. split; assumption.
Qed.




(** A window whose coefficient is below 0.75, or [nan], has no velocity. *)
Lemma phase_vel_window_below_threshold rt_SR sec corrcoefs rotate rt0 i8 c :
  Py.index corrcoefs i8 = Ok c -> Np.ge c (3 # 4) = false ->
  phase_vel_window rt_SR sec corrcoefs rotate rt0 i8 = Ok Np.NaN.
Proof.
  intros Hc Hge. unfold phase_vel_window. rewrite Hc. cbn [bind].
  now rewrite Hge.
Qed.

(** A window whose coefficient is at least 0.75 has the velocity
    [0.001 * 0.5 * max(acceleration) / max(rotation rate)], the maxima being
    those of the signed samples. *)
Lemma phase_vel_window_above_threshold rt_SR sec corrcoefs rotate rt0 i8 c ma mr :
  Py.index corrcoefs i8 = Ok c -> Np.ge c (3 # 4) = true ->
  Py.max (Py.slice (snd rotate) (rt_SR * sec * i8) (rt_SR * sec * (i8 + 1)))
    = Ok ma ->
  Py.max (Py.slice (data rt0) (rt_SR * sec * i8) (rt_SR * sec * (i8 + 1)))
    = Ok mr ->
  phase_vel_window rt_SR sec corrcoefs rotate rt0 i8
    = Ok (Np.div (Np.Fin ((1 # 1000) * (1 # 2) * ma)) (Np.Fin mr)).
Proof.
  intros Hc Hge Ha Hr. unfold phase_vel_window. rewrite Hc. cbn [bind].
  rewrite Hge, Ha. cbn [bind]. now rewrite Hr.
Qed.

(** C3: in a window that correlates at 1.0, with acceleration samples 1 and
    -4 and rotation-rate samples 1 and -2, the velocity specified is
    0.5 * 0.001 * 4 / 2 = 0.001 km/s; [phase_vel] takes the maxima of the
    signed samples and returns 0.001 * 0.5 * 1 / 1 = 0.0005 km/s.  The second
    window, which correlates at 0.5, has no velocity, as specified. *)
Theorem phase_vel_signed_maxima :
  phase_vel Ex.rt 2 Ex.corrcoefs Ex.rotate Ex.corrsum backas2_grid false 0
    = Ok ([Np.Fin (1 # 2000); Np.NaN], Np.Fin 1) /\
  mapM (phase_vel_window_as_specified 1 2 Ex.corrcoefs Ex.rotate
          (Ex.trace [1; -2; 1; 1]%Q 1 "Z")) [0; 1]%Z
    = Ok [Np.Fin (4 # 4000); Np.NaN] /\
  ~ same (Np.Fin (1 # 2000)) (Np.Fin (4 # 4000)).
Proof.
  split; [reflexivity |]. split; [reflexivity |].
  simpl. intros H. discriminate H.
Qed.

(** ** Signal-to-noise ratio *)

Lemma sum_acc (l : list Q) (a : Q) : (fold_left Qplus l a == a + Py.sum l)%Q.
Proof.
  revert a. induction l as [| x tl IH]; intros a; unfold Py.sum; simpl.
  - ring.
  - rewrite (IH (a + x)%Q), (IH (0 + x)%Q). ring.
Qed.

Lemma sum_cons (x : Q) (l : list Q) : (Py.sum (x :: l) == x + Py.sum l)%Q.
Proof. unfold Py.sum at 1. simpl. rewrite sum_acc. ring. Qed.

Lemma sum_const (l : list Q) (c : Q) :
  (forall x, In x l -> x == c)%Q -> (Py.sum l == c * inject_Z (Py.len l))%Q.
Proof.
  induction l as [| x tl IH]; intros H.
  - unfold Py.sum, Py.len. simpl. ring.
  - assert (Hx : (x == c)%Q) by (apply H; now left).
    rewrite sum_cons, IH by (intros y Hy; apply H; now right).
    unfold Py.len. cbn [List.length]. rewrite Nat2Z.inj_succ.
    unfold Z.succ. rewrite inject_Z_plus, Hx. ring.
Qed.

Lemma len_pos {A : Type} (l : list A) : l <> [] -> (0 < inject_Z (Py.len l))%Q.
Proof.
  intros H. destruct l; [congruence |].
  unfold Py.len. cbn [List.length]. rewrite Nat2Z.inj_succ.
  rewrite <- (Zlt_Qlt 0). lia.
Qed.

Lemma Qeq_bool_false (a b : Q) : ~ (a == b)%Q -> Qeq_bool a b = false.
Proof.
  intros H. destruct (Qeq_bool a b) eqn:E; [| reflexivity].
  apply Qeq_bool_iff in E. contradiction.
Qed.

(** What [sn_ratio] computes: the greatest sample of the trace (signed) over
    the absolute value of the mean of the samples from index
    [int(sam_rate) * (round(p) - 180)] to index
    [int(sam_rate) * (round(p) - 100)]; when these bounds lie inside the
    trace the window holds exactly those samples. *)
Lemma sn_ratio_max_over_abs_mean :
  forall (full_signal : list Q) (p_arrival sam_rate : Q),
    full_signal <> [] ->
    let a := (Py.int sam_rate * (Py.round p_arrival - 180))%Z in
    let b := (Py.int sam_rate * (Py.round p_arrival - 100))%Z in
    let noise := Py.slice full_signal a b in
    exists m : Q,
      In m full_signal /\ (forall x, In x full_signal -> (x <= m)%Q) /\
      sn_ratio full_signal p_arrival sam_rate
        = Ok (Np.div (Np.Fin m) (Np.abs (Np.mean noise))) /\
      ((0 <= a <= b)%Z -> (b <= Py.len full_signal)%Z ->
         List.length noise = Z.to_nat (b - a) /\
         forall k : nat, (k < Z.to_nat (b - a))%nat ->
           nth_error noise k = nth_error full_signal (Z.to_nat a + k)).
Proof.
  intros full_signal p_arrival sam_rate Hne a b noise.
  destruct (max_total full_signal Hne) as [m Hm].
  destruct (max_spec _ _ Hm) as [Hin Hub].
  exists m. split; [exact Hin |]. split; [exact Hub |].
  split.
  { unfold sn_ratio. rewrite Hm. reflexivity. }
  intros H1 H2. split.
  - now apply slice_in_range_length.
  - intros k Hk. now apply slice_in_range_nth_error.
Qed.

(** C4: on 82 seconds at 1 Hz with the P arrival at 180 s, the noise window
    (the first 80 seconds) alternating between 3 and -1 and the signal
    swinging to -6 and 4, the peak amplitude is 6 and the mean amplitude of
    the noise is 2, so the ratio that the docstring of [sn_ratio] and the
    specification describe is 6 / 2 = 3; [sn_ratio] takes the greatest
    signed sample, 4, and the absolute value of the mean of the noise, 1,
    and returns 4 / 1 = 4. *)
Theorem sn_ratio_signed_peak_and_mean :
  Py.max Ex.noisy_signal = Ok 4%Q /\
  Py.max (map Qabs Ex.noisy_signal) = Ok 6%Q /\
  same (Np.abs (Np.mean (Py.slice Ex.noisy_signal 0 80))) (Np.Fin 1) /\
  same (Np.mean (map Qabs (Py.slice Ex.noisy_signal 0 80))) (Np.Fin 2) /\
  agree (sn_ratio Ex.noisy_signal 180 1) (Ok (Np.Fin 4)) /\
  agree (sn_ratio_as_specified Ex.noisy_signal 180 1) (Ok (Np.Fin 3)) /\
  ~ agree (sn_ratio Ex.noisy_signal 180 1)
          (sn_ratio_as_specified Ex.noisy_signal 180 1).
Proof.
  split; [vm_compute; reflexivity |].
  split; [vm_compute; reflexivity |].
  split; [vm_compute; reflexivity |].
  split; [vm_compute; reflexivity |].
  split; [vm_compute; reflexivity |].
  split; [vm_compute; reflexivity |].
  vm_compute. intros H. discriminate H.
Qed.

(** ** Backazimuth estimation *)

Lemma argmax_from_spec (tl : list Q) :
  forall (pre : list Q) (best : nat) (m : Q),
    nth_error pre best = Some m ->
    (forall y, In y pre -> (y <= m)%Q) ->
    (forall j y, (j < best)%nat -> nth_error pre j = Some y -> (y < m)%Q) ->
    exists m' : Q,
      nth_error (pre ++ tl)%list (Np.argmax_from tl (List.length pre) best m)
        = Some m' /\
      (forall y, In y (pre ++ tl)%list -> (y <= m')%Q) /\
      (forall j y, (j < Np.argmax_from tl (List.length pre) best m)%nat ->
                   nth_error (pre ++ tl)%list j = Some y -> (y < m')%Q).
Proof.
  induction tl as [| y tl IH]; intros pre best m Hbest Hub Hfirst.
  - simpl. rewrite app_nil_r. exists m. repeat split; assumption.
  - assert (Hlt : (best < List.length pre)%nat).
    { apply nth_error_Some. congruence. }
    assert (Happ : (pre ++ y :: tl = (pre ++ [y]) ++ tl)%list).
    { now rewrite <- app_assoc. }
    assert (Hlen : List.length (pre ++ [y])%list = S (List.length pre)).
    { rewrite length_app. simpl. lia. }
    simpl. destruct (Py.Qlt_bool m y) eqn:E.
    + apply Qlt_bool_iff in E.
      rewrite Happ, <- Hlen.
      apply IH.
      * rewrite nth_error_app2 by lia.
        now rewrite Nat.sub_diag.
      * intros z Hz. apply in_app_or in Hz. destruct Hz as [Hz | [<- | []]].
        -- specialize (Hub z Hz). lra.
        -- lra.
      * intros j z Hj Hz.
        rewrite nth_error_app1 in Hz by lia.
        apply nth_error_In in Hz. specialize (Hub z Hz). lra.
    + apply Qlt_bool_false_iff in E.
      rewrite Happ, <- Hlen.
      apply IH.
      * now rewrite nth_error_app1 by lia.
      * intros z Hz. apply in_app_or in Hz. destruct Hz as [Hz | [<- | []]].
        -- now apply Hub.
        -- exact E.
      * intros j z Hj Hz. rewrite nth_error_app1 in Hz by lia.
        now apply (Hfirst j).
Qed.

(** [np.argmax] returns the first index of a greatest item. *)
Lemma argmax_spec (l : list Q) (i : Z) :
  Np.argmax l = Ok i ->
  exists (k : nat) (m : Q),
    i = Z.of_nat k /\ (k < List.length l)%nat /\ nth_error l k = Some m /\
    (forall y, In y l -> (y <= m)%Q) /\
    (forall j y, (j < k)%nat -> nth_error l j = Some y -> (y < m)%Q).
Proof.
  destruct l as [| x tl]; simpl; [discriminate |].
  intros H. injection H as <-.
  destruct (argmax_from_spec tl [x] 0 x eq_refl) as (m & Hm & Hub & Hfirst).
  - intros y [<- | []]. lra.
  - intros j y Hj. lia.
  - simpl in Hm, Hub, Hfirst.
    exists (Np.argmax_from tl 1 0 x), m.
    split; [reflexivity |]. split.
    + apply (proj1 (nth_error_Some (x :: tl) _)). congruence.
    + repeat split; assumption.
Qed.

(** [phase_vel] returns when the signals hold every window whole: the
    rotation stream has a trace, the start index is not negative, and the
    rotation rate and the acceleration both have [int(rate) * sec] samples
    for each coefficient; the sums of the scan must not be empty, and the
    grid as long as they are. *)
Lemma phase_vel_returns rt sec corrcoefs rotate corrsum backas2
      (ind_band : bool) (ind_surf : Z) rt0 :
  Py.index rt 0 = Ok rt0 ->
  (0 <= ind_surf)%Z ->
  (0 < Py.int (sampling_rate rt0) * sec)%Z ->
  (Py.int (sampling_rate rt0) * sec * Py.len corrcoefs
     <= Py.len (snd rotate))%Z ->
  (Py.int (sampling_rate rt0) * sec * Py.len corrcoefs
     <= Py.len (data rt0))%Z ->
  corrsum <> [] ->
  (List.length corrsum <= List.length backas2)%nat ->
  exists phasv EBA,
    phase_vel rt sec corrcoefs rotate corrsum backas2 ind_band ind_surf
      = Ok (phasv, EBA).
Proof.
  intros Hrt Hstart HW Hrot Hdat Hne Hlen.
  unfold phase_vel. rewrite Hrt. cbn [bind].
  set (W := (Py.int (sampling_rate rt0) * sec)%Z) in *.
  set (start := if ind_band then ind_surf else 0%Z).
  assert (Hs : (0 <= start)%Z) by (unfold start; destruct ind_band; lia).
  destruct (mapM_total
              (phase_vel_window (Py.int (sampling_rate rt0)) sec corrcoefs
                                rotate rt0)
              (Py.range start (Py.len corrcoefs))) as [ys Hys].
  { intros i8 Hi. apply range_In in Hi.
    unfold phase_vel_window.
    assert (Hidx : Py.index corrcoefs i8
                   = match nth_error corrcoefs (Z.to_nat i8) with
                     | Some x => Ok x
                     | None => Raise IndexError
                     end).
    { rewrite <- index_of_nat. f_equal. lia. }
    rewrite Hidx.
    destruct (nth_error corrcoefs (Z.to_nat i8)) as [c |] eqn:Ec.
    2:{ apply nth_error_None in Ec. unfold Py.len in Hi. lia. }
    cbn [bind]. destruct (Np.ge c (3 # 4)); [| eauto].
    fold W.
    destruct (max_total (Py.slice (snd rotate) (W * i8) (W * (i8 + 1))))
      as [ma ->]; [apply slice_in_range_nonempty; nia |].
    cbn [bind].
    destruct (max_total (Py.slice (data rt0) (W * i8) (W * (i8 + 1))))
      as [mr ->]; [apply slice_in_range_nonempty; nia |].
    cbn [bind]. eauto. }
  rewrite Hys. cbn [bind].
  destruct (max_total corrsum Hne) as [m ->]. cbn [bind].
  destruct (Qeq_bool m 0); [eauto |].
  destruct corrsum as [| x tl] eqn:Ecs; [congruence |].
  destruct (Np.argmax (x :: tl)) as [i |] eqn:Ei; [| discriminate].
  cbn [bind].
  destruct (argmax_spec _ _ Ei) as (k & m' & -> & Hk & _).
  rewrite index_of_nat.
  destruct (nth_error backas2 k) as [e |] eqn:Ee.
  - cbn [bind]. eauto.
  - apply nth_error_None in Ee. lia.
Qed.

Lemma sum_nonneg (l : list Q) :
  (forall x, In x l -> (0 <= x)%Q) -> (0 <= Py.sum l)%Q.
Proof.
  induction l as [| x tl IH]; intros H.
  - unfold Py.sum. simpl. lra.
  - rewrite sum_cons.
    assert (0 <= x)%Q by (apply H; now left).
    assert (0 <= Py.sum tl)%Q by (apply IH; intros y Hy; apply H; now right).
    lra.
Qed.

(** A coefficient counts in full from 0.9 on, and for nothing below (or
    when it is [nan]). *)
Lemma corradj_spec :
  (forall q : Q, (9 # 10 <= q)%Q -> corradj (Some q) = q) /\
  (forall q : Q, (q < 9 # 10)%Q -> corradj (Some q) = 0%Q) /\
  corradj None = 0%Q.
Proof.
  unfold corradj, Np.ge. repeat split.
  - intros q H. apply Qle_bool_iff in H. now rewrite H.
  - intros q H. destruct (Qle_bool (9 # 10) q) eqn:E; [| reflexivity].
    apply Qle_bool_iff in E. lra.
Qed.

Lemma corradj_nonneg (c : option Q) : (0 <= corradj c)%Q.
Proof.
  unfold corradj, Np.ge. destruct c as [q |]; [| lra].
  destruct (Qle_bool (9 # 10) q) eqn:E; [| lra].
  apply Qle_bool_iff in E. lra.
Qed.

Lemma round_whole (x : Q) (z : Z) : (x == inject_Z z)%Q -> Py.round x = z.
Proof.
  intros H. unfold Py.round.
  assert (Hf : Qfloor x = z) by (rewrite (Qfloor_comp _ _ H); apply Qfloor_Z).
  rewrite Hf.
  assert (Hlt : Py.Qlt_bool (x - inject_Z z) (1 # 2) = true).
  { apply Qlt_bool_iff. rewrite H. lra. }
  now rewrite Hlt.
Qed.

Lemma flat_map_length_const {A B : Type} (f : A -> list B) (n : nat) (l : list A) :
  (forall x, List.length (f x) = n) ->
  List.length (flat_map f l) = (List.length l * n)%nat.
Proof.
  intros H. induction l as [| x tl IH]; simpl; [reflexivity |].
  now rewrite length_app, H, IH.
Qed.

Lemma reshape_cons {A : Type} (rows cols : nat) (row rest : list A) :
  List.length row = cols ->
  reshape (S rows) cols (row ++ rest) = row :: reshape rows cols rest.
Proof.
  intros Hrow. unfold reshape. simpl seq. cbn [map]. f_equal.
  - simpl. rewrite firstn_app, Hrow, Nat.sub_diag. simpl.
    rewrite app_nil_r. apply firstn_all2. lia.
  - rewrite <- seq_shift, map_map. apply map_ext. intros r.
    f_equal. simpl. rewrite skipn_app, Hrow.
    rewrite skipn_all2 by lia. simpl. f_equal. lia.
Qed.

(** Reshaping the rows written one after the other gives the rows back. *)
Lemma reshape_flat_map {A B : Type} (f : A -> list B) (rows cols : nat)
      (l : list A) :
  rows = List.length l -> (forall x, List.length (f x) = cols) ->
  reshape rows cols (flat_map f l) = map f l.
Proof.
  intros -> H. induction l as [| x tl IH]; simpl; [reflexivity |].
  now rewrite reshape_cons, IH by apply H.
Qed.

Lemma np_max_total (l : list (option Q)) :
  l <> [] -> exists v, Np.max l = Ok v.
Proof.
  destruct l as [| c tl]; [congruence | intros _].
  unfold Np.max.
  destruct (Np.all_some (c :: tl)) as [xs |] eqn:E; [| eauto].
  assert (Hxs : xs <> []).
  { simpl in E. destruct c; [| discriminate].
    destruct (Np.all_some tl); [| discriminate].
    injection E as <-. discriminate. }
  destruct (max_total xs Hxs) as [m ->]. cbn [bind]. eauto.
Qed.

Lemma backas2_grid_length : List.length backas2_grid = 360%nat.
Proof. unfold backas2_grid. now rewrite length_map, range_length. Qed.

Lemma backas2_grid_nth_error (k : nat) :
  (k < 360)%nat ->
  nth_error backas2_grid k = Some (inject_Z (Z.of_nat k)).
Proof.
  intros H. unfold backas2_grid.
  rewrite nth_error_map, range_nth_error by (simpl; lia).
  reflexivity.
Qed.

Section BackazimuthProps.

Variable xcorr : list Q -> list Q -> option Q.
Variable rotate_ne_rt : list Q -> list Q -> Q -> list Q * list Q.

Lemma corrbaz2_row_length rt_SR rt2 acn2 ace2 nw ba :
  List.length (corrbaz2_row xcorr rotate_ne_rt rt_SR rt2 acn2 ace2 nw ba)
    = Z.to_nat nw.
Proof.
  unfold corrbaz2_row. rewrite length_map, range_length. f_equal. lia.
Qed.

Lemma backas2_grid_range (ba : Q) :
  In ba backas2_grid -> (0 <= ba)%Q /\ (ba <= 360)%Q.
Proof.
  intros H. unfold backas2_grid in H. apply in_map_iff in H.
  destruct H as (k & <- & Hk). apply range_In in Hk.
  split.
  - change 0%Q with (inject_Z 0). rewrite <- Zle_Qle. lia.
  - change 360%Q with (inject_Z 360). rewrite <- Zle_Qle. lia.
Qed.

(** A scan that returns has computed the rows of [corrbaz2_row]; the two
    components then have the same length and no window of the transverse
    acceleration is empty. *)
Lemma backas_est_scan_returns rt_SR rt2 acn2 ace2 nw flat :
  backas_est_scan xcorr rotate_ne_rt rt_SR rt2 acn2 ace2 nw = Ok flat ->
  flat = flat_map (corrbaz2_row xcorr rotate_ne_rt rt_SR rt2 acn2 ace2 nw)
                  backas2_grid /\
  ((0 < nw)%Z ->
   Py.len acn2 = Py.len ace2 /\
   forall (ba : Q) (j4 : Z), In ba backas2_grid -> (0 <= j4 < nw)%Z ->
     Py.slice (snd (rotate_ne_rt acn2 ace2 ba))
              (rt_SR * 30 * j4) (rt_SR * 30 * (j4 + 1)) <> []).
Proof.
  unfold backas_est_scan. cbv zeta. intros H.
  assert (Heach : forall (ba : Q) (j4 : Z),
            In ba backas2_grid -> (0 <= j4 < nw)%Z ->
            Py.len acn2 = Py.len ace2 /\
            Py.slice (snd (rotate_ne_rt acn2 ace2 ba))
                     (rt_SR * 30 * j4) (rt_SR * 30 * (j4 + 1)) <> []).
  { intros ba j4 Hba Hj.
    destruct (mapM_ok_each _ _ _ H (ba, j4)) as [c Hc].
    { apply in_pairs. split; [exact Hba | now apply range_In]. }
    cbn [fst snd] in Hc.
    destruct (rotate_ne_rt_checked rotate_ne_rt acn2 ace2 ba) as [r |] eqn:Er;
      cbn [bind] in Hc; [| discriminate].
    destruct (rotate_ne_rt_checked_ok _ _ _ _ _ Er) as [-> Hlen].
    destruct (xcorr_checked_ok _ _ _ _ Hc) as (_ & _ & Hne).
    split; assumption. }
  split.
  - apply (mapM_ok_pure _
             (fun p : Q * Z =>
                xcorr (Py.slice rt2 (rt_SR * 30 * snd p)
                                    (rt_SR * 30 * (snd p + 1)))
                      (Py.slice (snd (rotate_ne_rt acn2 ace2 (fst p)))
                                (rt_SR * 30 * snd p)
                                (rt_SR * 30 * (snd p + 1))))) in H.
    + rewrite H. unfold corrbaz2_row.
      apply (map_pairs
               (fun ba j4 =>
                  xcorr (Py.slice rt2 (rt_SR * 30 * j4) (rt_SR * 30 * (j4 + 1)))
                        (Py.slice (snd (rotate_ne_rt acn2 ace2 ba))
                                  (rt_SR * 30 * j4) (rt_SR * 30 * (j4 + 1))))).
    + intros [ba j4] c _ Hc. cbn [fst snd] in Hc |- *.
      destruct (rotate_ne_rt_checked rotate_ne_rt acn2 ace2 ba) as [r |] eqn:Er;
        cbn [bind] in Hc; [| discriminate].
      destruct (rotate_ne_rt_checked_ok _ _ _ _ _ Er) as [-> _].
      now destruct (xcorr_checked_ok _ _ _ _ Hc) as (-> & _).
  - intros Hnw. split.
    + apply (Heach (inject_Z 0) 0%Z); [| lia].
      apply nth_error_In with 0%nat.
        exact (backas2_grid_nth_error 0 ltac:(lia)).
    + intros ba j4 Hba Hj. now apply (Heach ba j4).
Qed.

(** The scan returns when the two components have the same length and no
    window is empty. *)
Lemma backas_est_scan_total rt_SR rt2 acn2 ace2 :
  let nw := (Py.len rt2 / (rt_SR * 30))%Z in
  (rt_SR * 30 <> 0)%Z ->
  Py.len acn2 = Py.len ace2 ->
  (forall (ba : Q) (j4 : Z), In ba backas2_grid -> (0 <= j4 < nw)%Z ->
     Py.slice (snd (rotate_ne_rt acn2 ace2 ba))
              (rt_SR * 30 * j4) (rt_SR * 30 * (j4 + 1)) <> []) ->
  backas_est_scan xcorr rotate_ne_rt rt_SR rt2 acn2 ace2 nw
    = Ok (flat_map (corrbaz2_row xcorr rotate_ne_rt rt_SR rt2 acn2 ace2 nw)
                   backas2_grid).
Proof.
  intros nw Hnz Hlen Hwin. unfold backas_est_scan. cbv zeta.
  rewrite (mapM_ok_map _
             (fun p : Q * Z =>
                xcorr (Py.slice rt2 (rt_SR * 30 * snd p)
                                    (rt_SR * 30 * (snd p + 1)))
                      (Py.slice (snd (rotate_ne_rt acn2 ace2 (fst p)))
                                (rt_SR * 30 * snd p)
                                (rt_SR * 30 * (snd p + 1))))).
  - f_equal. unfold corrbaz2_row.
    apply (map_pairs
             (fun ba j4 =>
                xcorr (Py.slice rt2 (rt_SR * 30 * j4) (rt_SR * 30 * (j4 + 1)))
                      (Py.slice (snd (rotate_ne_rt acn2 ace2 ba))
                                (rt_SR * 30 * j4) (rt_SR * 30 * (j4 + 1))))).
  - intros [ba j4] Hp. apply in_pairs in Hp. destruct Hp as [Hba Hj].
    apply range_In in Hj. cbn [fst snd].
    destruct (backas2_grid_range ba Hba) as [H0 H1].
    rewrite (rotate_ne_rt_checked_same_length _ _ _ _ Hlen H0 H1).
    cbn [bind].
    apply xcorr_checked_nonempty; [| now apply Hwin].
    now apply whole_window_nonempty.
Qed.

(** The scan raises [TypeError] when there is a window and the components
    differ in length, and [ValueError] when they do not and a window of the
    transverse acceleration is empty. *)
Lemma backas_est_scan_raises rt_SR rt2 acn2 ace2 nw :
  (0 < nw)%Z ->
  (Py.len acn2 <> Py.len ace2 ->
   backas_est_scan xcorr rotate_ne_rt rt_SR rt2 acn2 ace2 nw = Raise TypeError) /\
  (Py.len acn2 = Py.len ace2 ->
   (exists (ba : Q) (j4 : Z), In ba backas2_grid /\ (0 <= j4 < nw)%Z /\
      Py.slice (snd (rotate_ne_rt acn2 ace2 ba))
               (rt_SR * 30 * j4) (rt_SR * 30 * (j4 + 1)) = []) ->
   backas_est_scan xcorr rotate_ne_rt rt_SR rt2 acn2 ace2 nw = Raise ValueError).
Proof.
  intros Hnw. unfold backas_est_scan. cbv zeta. split.
  - intros Hlen. apply mapM_raise.
    + intros [ba j4] _. left. cbn [fst snd].
      now rewrite rotate_ne_rt_checked_TypeError.
    + exists (inject_Z 0, 0%Z). split.
      * apply in_pairs. split; [| apply range_In; lia].
        apply nth_error_In with 0%nat.
        exact (backas2_grid_nth_error 0 ltac:(lia)).
      * cbn [fst snd]. now rewrite rotate_ne_rt_checked_TypeError.
  - intros Hlen (ba & j4 & Hba & Hj & Hempty). apply mapM_raise.
    + intros [ba' j'] Hp. apply in_pairs in Hp. destruct Hp as [Hba' _].
      cbn [fst snd].
      destruct (backas2_grid_range ba' Hba') as [H0 H1].
      rewrite (rotate_ne_rt_checked_same_length _ _ _ _ Hlen H0 H1).
      cbn [bind]. apply xcorr_checked_ok_or_ValueError.
    + exists (ba, j4). split; [apply in_pairs; split;
                               [exact Hba | now apply range_In] |].
      cbn [fst snd].
      destruct (backas2_grid_range ba Hba) as [H0 H1].
      rewrite (rotate_ne_rt_checked_same_length _ _ _ _ Hlen H0 H1).
      cbn [bind]. apply xcorr_checked_empty. now right.
Qed.

(** What a call of [backas_est] that returns has computed. *)
Lemma backas_est_returns rt ac min_sw max_lwf station
      corrsum backas2 max_ebaz_xcoef best_ebaz :
  backas_est xcorr rotate_ne_rt rt ac min_sw max_lwf station
    = Ok (corrsum, backas2, max_ebaz_xcoef, best_ebaz) ->
  exists (rt0 trN trE : Trace),
    Py.index rt 0 = Ok rt0 /\
    Py.index (select ac (snd (station_components station))) 0 = Ok trN /\
    Py.index (select ac (fst (station_components station))) 0 = Ok trE /\
    let rt_SR := Py.int (sampling_rate rt0) in
    let lo := Py.round (min_sw * inject_Z rt_SR) in
    let hi := Py.round (max_lwf * inject_Z rt_SR) in
    let rt2 := Py.slice (data rt0) lo hi in
    let acn2 := Py.slice (data trN) lo hi in
    let ace2 := Py.slice (data trE) lo hi in
    let nw := (Py.len rt2 / (rt_SR * 30))%Z in
    (rt_SR * 30 <> 0)%Z /\ (0 < nw)%Z /\
    backas2 = backas2_grid /\
    corrsum =
      map (fun ba =>
             Py.sum (map corradj
                       (corrbaz2_row xcorr rotate_ne_rt rt_SR rt2 acn2 ace2 nw ba)))
          backas2_grid.
Proof.
  unfold backas_est.
  destruct (Py.index rt 0) as [rt0 |]; cbn [bind]; [| discriminate].
  destruct (Py.index (select ac (snd _)) 0) as [trN |]; cbn [bind];
    [| discriminate].
  destruct (Py.index (select ac (fst _)) 0) as [trE |]; cbn [bind];
    [| discriminate].
  set (rt_SR := Py.int (sampling_rate rt0)).
  set (lo := Py.round (min_sw * inject_Z rt_SR)).
  set (hi := Py.round (max_lwf * inject_Z rt_SR)).
  set (rt2 := Py.slice (data rt0) lo hi).
  set (acn2 := Py.slice (data trN) lo hi).
  set (ace2 := Py.slice (data trE) lo hi).
  unfold Py.floordiv.
  destruct (Z.eqb_spec (rt_SR * 30) 0) as [E0 | Hnz]; cbn [bind];
    [discriminate |].
  set (nw := (Py.len rt2 / (rt_SR * 30))%Z).
  destruct (backas_est_scan xcorr rotate_ne_rt rt_SR rt2 acn2 ace2 nw)
    as [flat0 |] eqn:Escan; cbn [bind]; [| discriminate].
  destruct (backas_est_scan_returns _ _ _ _ _ _ Escan) as [-> _].
  set (row := corrbaz2_row xcorr rotate_ne_rt rt_SR rt2 acn2 ace2 nw).
  set (flat := flat_map row backas2_grid).
  assert (Hflat : Py.len flat = (360 * Z.of_nat (Z.to_nat nw))%Z).
  { unfold Py.len, flat.
    rewrite (flat_map_length_const row (Z.to_nat nw))
      by (intros ba; apply corrbaz2_row_length).
    rewrite backas2_grid_length. lia. }
  assert (Hgrid : Py.len backas2_grid = 360%Z).
  { unfold Py.len. now rewrite backas2_grid_length. }
  assert (Hcols : Py.round (inject_Z (Py.len flat) / inject_Z (Py.len backas2_grid))
                  = Z.of_nat (Z.to_nat nw)).
  { apply round_whole. rewrite Hflat, Hgrid, inject_Z_mult. field. }
  rewrite Hcols, Hgrid, Hflat, Z.eqb_refl. cbn [negb].
  destruct (Z.leb_spec (Z.of_nat (Z.to_nat nw)) 0) as [Hle | Hpos];
    [discriminate |].
  rewrite Nat2Z.id.
  assert (Hrows : reshape (List.length backas2_grid) (Z.to_nat nw) flat
                  = map row backas2_grid).
  { apply reshape_flat_map; [reflexivity |].
    intros ba. apply corrbaz2_row_length. }
  rewrite Hrows, map_map.
  set (sums := map (fun ba => Py.sum (map corradj (row ba))) backas2_grid).
  destruct (Np.argmax sums) as [i |]; cbn [bind]; [| discriminate].
  destruct (Py.index backas2_grid i) as [best |]; cbn [bind]; [| discriminate].
  destruct (Py.index (map row backas2_grid) (Py.int best)) as [r |];
    cbn [bind]; [| discriminate].
  destruct (Np.max r) as [mx |]; cbn [bind]; [| discriminate].
  intros H.
  assert (H1 : sums = corrsum) by congruence.
  assert (H2 : backas2_grid = backas2) by congruence.
  clear H. subst corrsum backas2.
  exists rt0, trN, trE.
  split; [reflexivity |]. split; [reflexivity |]. split; [reflexivity |].
  split; [exact Hnz |]. split; [fold rt_SR lo hi; fold rt2; fold nw; lia |].
  split; reflexivity.
Qed.

(** [backas_est] returns as soon as the streams have the traces it reads and
    the samples from [min_sw] to [max_lwf] hold one whole window of 30 s. *)
Lemma backas_est_total rt ac min_sw max_lwf station (rt0 trN trE : Trace) :
  Py.index rt 0 = Ok rt0 ->
  Py.index (select ac (snd (station_components station))) 0 = Ok trN ->
  Py.index (select ac (fst (station_components station))) 0 = Ok trE ->
  let rt_SR := Py.int (sampling_rate rt0) in
  let lo := Py.round (min_sw * inject_Z rt_SR) in
  let hi := Py.round (max_lwf * inject_Z rt_SR) in
  let acn2 := Py.slice (data trN) lo hi in
  let ace2 := Py.slice (data trE) lo hi in
  let nw := (Py.len (Py.slice (data rt0) lo hi) / (rt_SR * 30))%Z in
  (0 < nw)%Z ->
  Py.len acn2 = Py.len ace2 ->
  (forall (ba : Q) (j4 : Z), In ba backas2_grid -> (0 <= j4 < nw)%Z ->
     Py.slice (snd (rotate_ne_rt acn2 ace2 ba))
              (rt_SR * 30 * j4) (rt_SR * 30 * (j4 + 1)) <> []) ->
  exists corrsum max_ebaz_xcoef best_ebaz,
    backas_est xcorr rotate_ne_rt rt ac min_sw max_lwf station
      = Ok (corrsum, backas2_grid, max_ebaz_xcoef, best_ebaz).
Proof.
  intros H0 HN HE rt_SR lo hi acn2 ace2.
  set (rt2 := Py.slice (data rt0) lo hi).
  intros nw Hnw Hlen Hwin.
  unfold backas_est. rewrite H0. cbn [bind]. rewrite HN. cbn [bind].
  rewrite HE. cbn [bind].
  fold rt_SR. fold lo. fold hi. fold rt2. fold acn2. fold ace2.
  unfold Py.floordiv.
  destruct (Z.eqb_spec (rt_SR * 30) 0) as [E0 | Hnz].
  { exfalso. unfold nw in Hnw. fold rt2 in Hnw.
    rewrite E0, Z.div_0_r in Hnw. lia. }
  cbn [bind].
  rewrite (backas_est_scan_total rt_SR rt2 acn2 ace2 Hnz Hlen Hwin).
  cbn [bind]. fold nw.
  set (row := corrbaz2_row xcorr rotate_ne_rt rt_SR rt2 acn2 ace2 nw).
  set (flat := flat_map row backas2_grid).
  assert (Hflat : Py.len flat = (360 * Z.of_nat (Z.to_nat nw))%Z).
  { unfold Py.len, flat.
    rewrite (flat_map_length_const row (Z.to_nat nw))
      by (intros ba; apply corrbaz2_row_length).
    rewrite backas2_grid_length. lia. }
  assert (Hgrid : Py.len backas2_grid = 360%Z).
  { unfold Py.len. now rewrite backas2_grid_length. }
  assert (Hcols : Py.round (inject_Z (Py.len flat) / inject_Z (Py.len backas2_grid))
                  = Z.of_nat (Z.to_nat nw)).
  { apply round_whole. rewrite Hflat, Hgrid, inject_Z_mult. field. }
  rewrite Hcols, Hgrid, Hflat, Z.eqb_refl. cbn [negb].
  destruct (Z.leb_spec (Z.of_nat (Z.to_nat nw)) 0) as [Hle | Hpos]; [lia |].
  rewrite Nat2Z.id.
  assert (Hrows : reshape (List.length backas2_grid) (Z.to_nat nw) flat
                  = map row backas2_grid).
  { apply reshape_flat_map; [reflexivity |].
    intros ba. apply corrbaz2_row_length. }
  rewrite Hrows, map_map.
  set (sums := map (fun ba => Py.sum (map corradj (row ba))) backas2_grid).
  destruct (Np.argmax sums) as [i |] eqn:Ei.
  2:{ exfalso. destruct sums eqn:Es; [| discriminate].
      apply (f_equal (@List.length Q)) in Es. unfold sums in Es.
      rewrite length_map, backas2_grid_length in Es. discriminate. }
  cbn [bind].
  destruct (argmax_spec _ _ Ei) as (k & m & -> & Hk & _).
  unfold sums in Hk. rewrite length_map, backas2_grid_length in Hk.
  rewrite index_of_nat, backas2_grid_nth_error by exact Hk.
  cbn [bind].
  rewrite (int_whole (inject_Z (Z.of_nat k)) (Z.of_nat k)) by reflexivity.
  rewrite index_of_nat, nth_error_map, backas2_grid_nth_error by exact Hk.
  cbn [option_map bind].
  destruct (np_max_total (row (inject_Z (Z.of_nat k)))) as [mx ->].
  { intros E. apply (f_equal (@List.length (option Q))) in E.
    unfold row in E. rewrite corrbaz2_row_length in E. simpl in E. lia. }
  cbn [bind]. eauto.
Qed.

(** The estimated backazimuth of [phase_vel]: [nan] when the greatest sum is
    0.0, else the candidate at the first index of the greatest sum. *)
Lemma phase_vel_EBA rt sec corrcoefs rotate corrsum backas2
      (ind_band : bool) (ind_surf : Z) phasv EBA :
  phase_vel rt sec corrcoefs rotate corrsum backas2 ind_band ind_surf
    = Ok (phasv, EBA) ->
  exists m : Q,
    Py.max corrsum = Ok m /\
    if Qeq_bool m 0 then EBA = Np.NaN
    else exists i e, Np.argmax corrsum = Ok i /\ Py.index backas2 i = Ok e /\
                     EBA = Np.Fin e.
Proof.
  unfold phase_vel.
  destruct (Py.index rt 0) as [rt0 |]; cbn [bind]; [| discriminate].
  destruct (mapM _ _) as [ys |]; cbn [bind]; [| discriminate].
  destruct (Py.max corrsum) as [m |]; cbn [bind]; [| discriminate].
  intros H. exists m. split; [reflexivity |].
  destruct (Qeq_bool m 0).
  - congruence.
  - destruct (Np.argmax corrsum) as [i |]; cbn [bind] in H; [| discriminate].
    destruct (Py.index backas2 i) as [e |] eqn:Ee; cbn [bind] in H;
      [| discriminate].
    exists i, e. split; [reflexivity |]. split; [exact Ee | congruence].
Qed.

(** The estimated backazimuth over the sums of a backazimuth scan: sums of
    360 candidates, none of them negative. *)
Lemma EBA_of_scan (F : Q -> Q) rt sec corrcoefs rotate
      (ind_band : bool) (ind_surf : Z) phasv EBA :
  (forall ba, (0 <= F ba)%Q) ->
  let corrsum := map F backas2_grid in
  phase_vel rt sec corrcoefs rotate corrsum backas2_grid ind_band ind_surf
    = Ok (phasv, EBA) ->
  ((exists s, In s corrsum /\ (0 < s)%Q) ->
     exists (k : nat) (m : Q),
       (k < 360)%nat /\ EBA = Np.Fin (inject_Z (Z.of_nat k)) /\
       nth_error corrsum k = Some m /\
       (forall s, In s corrsum -> (s <= m)%Q) /\
       (forall j s, (j < k)%nat -> nth_error corrsum j = Some s -> (s < m)%Q)) /\
  ((forall s, In s corrsum -> (s == 0)%Q) -> EBA = Np.NaN).
Proof.
  intros Hnn corrsum H.
  destruct (phase_vel_EBA _ _ _ _ _ _ _ _ _ _ H) as (m & Hm & HE).
  destruct (max_spec _ _ Hm) as [Hin Hub].
  split.
  - intros (s & Hs & Hpos).
    assert (Hmpos : (0 < m)%Q) by (specialize (Hub s Hs); lra).
    rewrite Qeq_bool_false in HE by lra.
    destruct HE as (i & e & Hi & He & ->).
    destruct (argmax_spec _ _ Hi) as (k & m' & -> & Hk & Hnth & Hub' & Hfirst).
    unfold corrsum in Hk. rewrite length_map, backas2_grid_length in Hk.
    rewrite index_of_nat, backas2_grid_nth_error in He by exact Hk.
    injection He as <-.
    exists k, m'. repeat split; assumption.
  - intros Hz. specialize (Hz m Hin).
    apply Qeq_bool_iff in Hz. rewrite Hz in HE. exact HE.
Qed.

(** C2: [backas_est] scores each of the 360 candidate backazimuths (one per
    degree) over the 30 s windows of the samples from [min_sw] to [max_lwf]
    by the sum of the coefficients that are at least 0.9, a coefficient
    below 0.9 counting for exactly zero; and the backazimuth that [phase_vel]
    estimates from these sums is the (first) candidate of greatest sum when
    some sum is positive, and [nan] when every sum is zero. *)
Theorem backas_est_thresholded_sums :
  forall rt ac min_sw max_lwf station corrsum backas2 max_ebaz_xcoef best_ebaz,
    backas_est xcorr rotate_ne_rt rt ac min_sw max_lwf station
      = Ok (corrsum, backas2, max_ebaz_xcoef, best_ebaz) ->
    exists (rt0 trN trE : Trace),
      Py.index rt 0 = Ok rt0 /\
      Py.index (select ac (snd (station_components station))) 0 = Ok trN /\
      Py.index (select ac (fst (station_components station))) 0 = Ok trE /\
      let rt_SR := Py.int (sampling_rate rt0) in
      let lo := Py.round (min_sw * inject_Z rt_SR) in
      let hi := Py.round (max_lwf * inject_Z rt_SR) in
      let rt2 := Py.slice (data rt0) lo hi in
      let acn2 := Py.slice (data trN) lo hi in
      let ace2 := Py.slice (data trE) lo hi in
      let nw := (Py.len rt2 / (rt_SR * 30))%Z in
      (0 < nw)%Z /\
      backas2 = map inject_Z (Py.range 0 360) /\
      List.length corrsum = 360%nat /\
      (forall j : nat, (j < 360)%nat ->
         nth_error corrsum j =
           Some (Py.sum
                   (map (fun c : option Q =>
                           if Np.ge c (9 # 10)
                           then match c with Some q => q | None => 0 end
                           else 0)%Q
                        (map (fun j4 : Z =>
                                xcorr
                                  (Py.slice rt2 (rt_SR * 30 * j4)
                                                (rt_SR * 30 * (j4 + 1)))
                                  (Py.slice
                                     (snd (rotate_ne_rt acn2 ace2
                                             (inject_Z (Z.of_nat j))))
                                     (rt_SR * 30 * j4)
                                     (rt_SR * 30 * (j4 + 1))))%Z
                             (Py.range 0 nw))))) /\
      (forall rt' sec corrcoefs rotate (ind_band : bool) (ind_surf : Z)
              phasv EBA,
         phase_vel rt' sec corrcoefs rotate corrsum backas2 ind_band ind_surf
           = Ok (phasv, EBA) ->
         ((exists s, In s corrsum /\ (0 < s)%Q) ->
            exists (k : nat) (m : Q),
              (k < 360)%nat /\ EBA = Np.Fin (inject_Z (Z.of_nat k)) /\
              nth_error corrsum k = Some m /\
              (forall s, In s corrsum -> (s <= m)%Q) /\
              (forall j s, (j < k)%nat -> nth_error corrsum j = Some s ->
                           (s < m)%Q)) /\
         ((forall s, In s corrsum -> (s == 0)%Q) -> EBA = Np.NaN)).
Proof.
  intros rt ac min_sw max_lwf station corrsum backas2 mx best H.
  destruct (backas_est_returns _ _ _ _ _ _ _ _ _ H)
    as (rt0 & trN & trE & H0 & HN & HE & Hrest).
  exists rt0, trN, trE.
  split; [exact H0 |]. split; [exact HN |]. split; [exact HE |].
  cbv zeta in Hrest |- *.
  destruct Hrest as (_ & Hnw & -> & ->).
  split; [exact Hnw |]. split; [reflexivity |].
  split; [now rewrite length_map, backas2_grid_length |].
  split.
  - intros j Hj.
    rewrite nth_error_map, backas2_grid_nth_error by exact Hj.
    reflexivity.
  - intros rt' sec corrcoefs rotate ind_band ind_surf phasv EBA Hpv.
    refine (EBA_of_scan _ _ _ _ _ _ _ _ _ _ Hpv).
    intros ba. apply sum_nonneg. intros x Hx.
    apply in_map_iff in Hx. destruct Hx as (c & <- & _).
    apply corradj_nonneg.
Qed.

(** C10: an estimated backazimuth that is defined is one of the whole
    degrees 0, 1, ..., 359 of the candidate grid. *)
Theorem EBA_on_grid :
  forall rt ac min_sw max_lwf station corrsum backas2 max_ebaz_xcoef best_ebaz
         rt' sec corrcoefs rotate (ind_band : bool) (ind_surf : Z) phasv EBA,
    backas_est xcorr rotate_ne_rt rt ac min_sw max_lwf station
      = Ok (corrsum, backas2, max_ebaz_xcoef, best_ebaz) ->
    phase_vel rt' sec corrcoefs rotate corrsum backas2 ind_band ind_surf
      = Ok (phasv, EBA) ->
    EBA <> Np.NaN ->
    exists k : Z,
      (0 <= k < 360)%Z /\ EBA = Np.Fin (inject_Z k) /\
      In (inject_Z k) backas2.
Proof.
  intros rt ac min_sw max_lwf station corrsum backas2 mx best
         rt' sec corrcoefs rotate ind_band ind_surf phasv EBA H Hpv Hdef.
  destruct (backas_est_returns _ _ _ _ _ _ _ _ _ H)
    as (rt0 & trN & trE & _ & _ & _ & Hrest).
  cbv zeta in Hrest. destruct Hrest as (_ & _ & -> & ->).
  destruct (phase_vel_EBA _ _ _ _ _ _ _ _ _ _ Hpv) as (m & Hm & HE).
  destruct (Qeq_bool m 0); [contradiction |].
  destruct HE as (i & e & Hi & He & ->).
  destruct (argmax_spec _ _ Hi) as (k & m' & -> & Hk & _).
  rewrite length_map, backas2_grid_length in Hk.
  rewrite index_of_nat in He.
  pose proof (backas2_grid_nth_error k Hk) as Hnth.
  rewrite Hnth in He. injection He as <-.
  exists (Z.of_nat k). split; [lia |]. split; [reflexivity |].
  now apply nth_error_In with k.
Qed.

End BackazimuthProps.

(** The example scan: 60 s at 1 Hz from [min_sw] = 0 to [max_lwf] = 60, two
    windows of 30 s, both at 1.0 for the candidate 45 degrees and at 0.5 for
    every other one. *)
Example backas_est_example :
  backas_est Ex.xcorr_eq Ex.rotate_at_45 Ex.scan_rt Ex.scan_ac 0 60 "RLAS"
    = Ok (Ex.scan_corrsum, backas2_grid, Np.Fin 1, 45%Q).
Proof. vm_compute. reflexivity. Qed.

Example phase_vel_EBA_example :
  phase_vel Ex.rt 2 Ex.corrcoefs Ex.rotate Ex.scan_corrsum backas2_grid false 0
    = Ok ([Np.Fin (1 # 2000); Np.NaN], Np.Fin 45).
Proof. vm_compute. reflexivity. Qed.

(** On the example scan the estimate is 45 degrees, the candidate whose sum,
    2, is the greatest. *)
Lemma backas_est_thresholded_sums_witness :
  exists (k : nat) (m : Q),
    (k < 360)%nat /\ Np.Fin 45 = Np.Fin (inject_Z (Z.of_nat k)) /\
    nth_error Ex.scan_corrsum k = Some m /\
    (forall s, In s Ex.scan_corrsum -> (s <= m)%Q) /\
    (forall j s, (j < k)%nat -> nth_error Ex.scan_corrsum j = Some s ->
                 (s < m)%Q).
Proof.
  destruct (backas_est_thresholded_sums Ex.xcorr_eq Ex.rotate_at_45
              Ex.scan_rt Ex.scan_ac 0 60 "RLAS"
              Ex.scan_corrsum backas2_grid (Np.Fin 1) 45%Q
              backas_est_example)
    as (rt0 & trN & trE & _ & _ & _ & _ & _ & _ & _ & HEBA).
  destruct (HEBA Ex.rt 2%Z Ex.corrcoefs Ex.rotate false 0%Z
              [Np.Fin (1 # 2000); Np.NaN] (Np.Fin 45) phase_vel_EBA_example)
    as [Hpos _].
  apply Hpos. exists 2%Q. split.
  - apply (nth_error_In Ex.scan_corrsum 45). reflexivity.
  - reflexivity.
Defined.

(** On the example scan the estimate, 45 degrees, is on the grid. *)
Lemma EBA_on_grid_witness :
  exists k : Z,
    (0 <= k < 360)%Z /\ Np.Fin 45 = Np.Fin (inject_Z k) /\
    In (inject_Z k) backas2_grid.
Proof.
  apply (EBA_on_grid Ex.xcorr_eq Ex.rotate_at_45
           Ex.scan_rt Ex.scan_ac 0 60 "RLAS"
           Ex.scan_corrsum backas2_grid (Np.Fin 1) 45%Q
           Ex.rt 2%Z Ex.corrcoefs Ex.rotate false 0%Z
           [Np.Fin (1 # 2000); Np.NaN] (Np.Fin 45)
           backas_est_example phase_vel_EBA_example).
  discriminate.
Defined.

(** When no window reaches 0.9 every sum is zero and there is no estimate. *)
Example phase_vel_EBA_undefined :
  phase_vel Ex.rt 2 Ex.corrcoefs Ex.rotate (repeat 0%Q 360) backas2_grid false 0
    = Ok ([Np.Fin (1 # 2000); Np.NaN], Np.NaN).
Proof. vm_compute. reflexivity. Qed.

(** ** Examples of the resampling policy *)

Example resample_local_example :
  resample Ex.decimate "local" (500000, 0, 0)%Q [Ex.slow "Z"] [Ex.slow "N"]
    = Ok (mkResampled
            [Ex.trace [1; 3]%Q ((1 # 600) / 2) "Z"]
            [Ex.trace [1; 3]%Q ((1 # 600) / 2) "N"]
            [Ex.trace [1; 2; 3]%Q (1 # 600) "Z"]
            [Ex.trace [1; 2; 3]%Q (1 # 600) "N"]
            5 2 (1 # 2)).
Proof. reflexivity. Qed.

Example resample_non_local_example :
  resample Ex.decimate "non-local" (5000000, 0, 0)%Q [Ex.slow "Z"] [Ex.slow "N"]
    = Ok (mkResampled
            [Ex.trace [1; 5]%Q ((1 # 600) / 4) "Z"]
            [Ex.trace [1; 5]%Q ((1 # 600) / 4) "N"]
            [Ex.trace [1; 3; 5]%Q ((1 # 600) / 2) "Z"]
            [Ex.trace [1; 3; 5]%Q ((1 # 600) / 2) "N"]
            120 1 (1 # 2)).
Proof. reflexivity. Qed.

(** ** Alignment of start and end times *)

Section AlignmentProps.

Variable trim : Stream -> Q -> Q -> result Stream.

(** The alignment trims the four streams to one interval, from the latest
    start to the earliest end of the main channels; the P-coda channels have
    no say in it, and the only failures are those of [max], [min] and
    [trim]. *)
Lemma remove_instr_resp_alignment_interval rt ac rt_pcoda ac_pcoda
      rt' ac' rt_pcoda' ac_pcoda' :
  remove_instr_resp_alignment trim rt ac rt_pcoda ac_pcoda
    = Ok (rt', ac', rt_pcoda', ac_pcoda') ->
  exists startaim endtaim : Q,
    In startaim (map starttime (ac ++ rt)%list) /\
    (forall tr, In tr (ac ++ rt)%list -> (starttime tr <= startaim)%Q) /\
    In endtaim (map endtime (ac ++ rt)%list) /\
    (forall tr, In tr (ac ++ rt)%list -> (endtaim <= endtime tr)%Q) /\
    trim ac startaim endtaim = Ok ac' /\
    trim rt startaim endtaim = Ok rt' /\
    trim ac_pcoda startaim endtaim = Ok ac_pcoda' /\
    trim rt_pcoda startaim endtaim = Ok rt_pcoda'.
Proof.
  unfold remove_instr_resp_alignment.
  destruct (Py.max _) as [s |] eqn:Es; cbn [bind]; [| discriminate].
  destruct (Py.min _) as [e |] eqn:Ee; cbn [bind]; [| discriminate].
  destruct (trim ac s e) as [a1 |] eqn:E1; cbn [bind]; [| discriminate].
  destruct (trim rt s e) as [a2 |] eqn:E2; cbn [bind]; [| discriminate].
  destruct (trim ac_pcoda s e) as [a3 |] eqn:E3; cbn [bind]; [| discriminate].
  destruct (trim rt_pcoda s e) as [a4 |] eqn:E4; cbn [bind]; [| discriminate].
  intros H. injection H as <- <- <- <-.
  destruct (max_spec _ _ Es) as [Hs1 Hs2].
  destruct (min_spec _ _ Ee) as [He1 He2].
  exists s, e. repeat split; try assumption.
  - intros tr Htr. apply Hs2. now apply in_map.
  - intros tr Htr. apply He2. now apply in_map.
Qed.

End AlignmentProps.

(** * Further properties of the code *)

(** ** Resampling after classification *)

Section ResampleMore.

Variable decimate : Z -> Trace -> Trace.

(** X1: for the class that [is_local] gives, [resample] returns on every
    bundle with a rotation trace, and the window length and the lowpass
    cutoff it returns follow the distance: 3 s and 4.0 Hz below 3 degrees,
    5 s and 2.0 Hz from 3 to 10 degrees, 120 s and 1.0 Hz from 10 degrees
    on; the window length is never zero. *)
Theorem resample_of_is_local :
  forall (baz : Baz) (rt0 : Trace) (rt ac : Stream),
  exists r : Resampled,
    resample decimate (is_local baz) baz (rt0 :: rt) ac = Ok r /\
    ((dist_deg baz < 3 /\ res_sec r = 3%Z /\ res_cutoff r = 4)%Q \/
     (3 <= dist_deg baz /\ dist_deg baz < 10 /\
      res_sec r = 5%Z /\ res_cutoff r = 2)%Q \/
     (10 <= dist_deg baz /\ res_sec r = 120%Z /\ res_cutoff r = 1)%Q) /\
    (0 < res_sec r)%Z.
Proof.
  intros baz rt0 rt ac. unfold is_local. fold (dist_deg baz).
  destruct (Py.Qlt_bool (dist_deg baz) 10) eqn:E10;
    [destruct (Py.Qlt_bool (dist_deg baz) 3) eqn:E3 |];
    try apply Qlt_bool_iff in E10; try apply Qlt_bool_iff in E3;
    try apply Qlt_bool_false_iff in E10; try apply Qlt_bool_false_iff in E3;
    (eexists; split; [reflexivity |]; split; [| reflexivity]); cbn.
  - left. repeat split. exact E3.
  - right; left. repeat split; assumption.
  - right; right. repeat split. exact E10.
Qed.

(** X2: [resample] has no branch for another class: it raises
    [UnboundLocalError] exactly when the class is none of "local",
    "non-local" and "close". *)
Theorem resample_unknown_class :
  forall (cls : string) (baz : Baz) (rt ac : Stream),
    resample decimate cls baz rt ac = Raise UnboundLocalError <->
    cls <> "local" /\ cls <> "non-local" /\ cls <> "close".
Proof.
  intros cls baz rt ac. unfold resample.
  destruct (String.eqb_spec cls "local") as [-> | H1].
  { split; [| intros (H & _); congruence].
    unfold truncate_1800. destruct (rt ++ ac)%list; [discriminate |].
    unfold Py.index. simpl. destruct rt; simpl; discriminate. }
  destruct (String.eqb_spec cls "non-local") as [-> | H2].
  { split; [discriminate | intros (_ & H & _); congruence]. }
  destruct (String.eqb_spec cls "close") as [-> | H3].
  { split; [| intros (_ & _ & H); congruence].
    unfold truncate_1800. destruct (rt ++ ac)%list; [discriminate |].
    unfold Py.index. simpl. destruct rt; simpl; discriminate. }
  split; [intros _; repeat split; assumption | reflexivity].
Qed.

End ResampleMore.

(** ** Failures of the windowed correlation *)

Lemma int_below_one (x : Q) : (0 <= x)%Q -> (x < 1)%Q -> Py.int x = 0%Z.
Proof.
  intros H0 H1. unfold Py.int. apply Z.quot_small.
  unfold Qle, Qlt in *. simpl in *. lia.
Qed.

Section CorrcoefsMore.

Variable xcorr : list Q -> list Q -> option Q.

(** X3: the failures of [Get_corrcoefs], in the order in which the code
    meets them: [IndexError] when the acceleration stream has no north
    component; [ZeroDivisionError] when the truncated sampling rate times
    the window length is zero, which is the case of every sampling rate
    below 1 Hz; [ValueError], from [xcorr], when a window of the
    acceleration is empty.  In every other case the call returns. *)
Theorem Get_corrcoefs_failures :
  forall (rotra : Trace) (rodat : list Q) (acstr : Stream)
         (rotate_array : list Q) (sec : Z) (station : string),
    let compN := snd (station_components station) in
    let R := Py.int (sampling_rate rotra) in
    (select acstr compN = [] ->
     Get_corrcoefs xcorr rotra rodat acstr rotate_array sec station
       = Raise IndexError) /\
    (select acstr compN <> [] -> (R * sec = 0)%Z ->
     Get_corrcoefs xcorr rotra rodat acstr rotate_array sec station
       = Raise ZeroDivisionError) /\
    (forall trN : Trace,
       Py.index (select acstr compN) 0 = Ok trN -> (R * sec <> 0)%Z ->
       let A := Py.int (sampling_rate trN) in
       let n := (Py.len rodat / (R * sec))%Z in
       ((exists i : Z, (0 <= i < n)%Z /\
           Py.slice rotate_array (A * sec * i) (A * sec * (i + 1)) = []) ->
        Get_corrcoefs xcorr rotra rodat acstr rotate_array sec station
          = Raise ValueError) /\
       ((forall i : Z, (0 <= i < n)%Z ->
           Py.slice rotate_array (A * sec * i) (A * sec * (i + 1)) <> []) ->
        exists r,
          Get_corrcoefs xcorr rotra rodat acstr rotate_array sec station
            = Ok r)) /\
    ((0 <= sampling_rate rotra)%Q -> (sampling_rate rotra < 1)%Q ->
     (R * sec = 0)%Z).
Proof.
  intros rotra rodat acstr rotate_array sec station compN R.
  split; [| split; [| split]].
  - intros E. unfold Get_corrcoefs. fold compN. now rewrite E.
  - intros Hne Hz. unfold Get_corrcoefs. fold compN. fold R.
    destruct (select acstr compN) as [| trN rest]; [congruence |].
    unfold Py.index. simpl. unfold Py.floordiv.
    now rewrite Hz.
  - intros trN Hidx Hnz A n.
    destruct (Get_corrcoefs_cases xcorr rotra rodat acstr rotate_array sec
                station trN Hidx Hnz) as [Hok Hraise].
    split; [exact Hraise |].
    intros Hwin. eexists. exact (Hok Hwin).
  - intros H0 H1. unfold R. rewrite (int_below_one _ H0 H1). reflexivity.
Qed.

End CorrcoefsMore.

(** ** More on the backazimuth estimate *)

Lemma sum_zero_iff (l : list Q) :
  (forall x, In x l -> (0 <= x)%Q) ->
  ((Py.sum l == 0)%Q <-> (forall x, In x l -> (x == 0)%Q)).
Proof.
  induction l as [| x tl IH]; intros Hnn.
  - split; [intros _ y [] | intros _; reflexivity].
  - assert (Hx : (0 <= x)%Q) by (apply Hnn; now left).
    assert (Htl : forall y, In y tl -> (0 <= y)%Q)
      by (intros y Hy; apply Hnn; now right).
    pose proof (sum_nonneg tl Htl) as Hs.
    rewrite sum_cons. split.
    + intros E y [<- | Hy]; [lra |].
      apply (proj1 (IH Htl)); [lra | exact Hy].
    + intros Hz.
      assert (E1 : (x == 0)%Q) by (apply Hz; now left).
      assert (E2 : (Py.sum tl == 0)%Q)
        by (apply (proj2 (IH Htl)); intros y Hy; apply Hz; now right).
      lra.
Qed.

Lemma corradj_zero_iff (c : option Q) :
  (corradj c == 0)%Q <-> Np.ge c (9 # 10) = false.
Proof.
  unfold corradj. destruct (Np.ge c (9 # 10)) eqn:E.
  - split; [| discriminate].
    destruct c as [q |]; [| discriminate].
    simpl in E. apply Qle_bool_iff in E. intros H. lra.
  - split; [reflexivity | intros _; reflexivity].
Qed.

(** Two calls of [phase_vel] on the same sums and the same grid estimate
    the same backazimuth. *)
Lemma phase_vel_EBA_same rt1 sec1 cc1 rot1 (ib1 : bool) (is1 : Z) phasv1 EBA1
      rt2 sec2 cc2 rot2 (ib2 : bool) (is2 : Z) phasv2 EBA2 corrsum backas2 :
  phase_vel rt1 sec1 cc1 rot1 corrsum backas2 ib1 is1 = Ok (phasv1, EBA1) ->
  phase_vel rt2 sec2 cc2 rot2 corrsum backas2 ib2 is2 = Ok (phasv2, EBA2) ->
  EBA1 = EBA2.
Proof.
  intros H1 H2.
  destruct (phase_vel_EBA _ _ _ _ _ _ _ _ _ _ H1) as (m1 & Hm1 & HE1).
  destruct (phase_vel_EBA _ _ _ _ _ _ _ _ _ _ H2) as (m2 & Hm2 & HE2).
  assert (m1 = m2) by congruence. subst m2.
  destruct (Qeq_bool m1 0); [congruence |].
  destruct HE1 as (i1 & e1 & Hi1 & He1 & ->).
  destruct HE2 as (i2 & e2 & Hi2 & He2 & ->).
  congruence.
Qed.

(** X4: the nine calls of [phase_vel] in [plotWaveformComp] estimate one
    and the same backazimuth: each band's estimate is that of the full-band
    call, whatever the band's own signals. *)
Theorem band_EBA_is_main_EBA :
  forall rt sec corrcoefs rotate corrsum backas2 min_lwi
         b1 b2 b3 b4 b5 b6 b7 b8 main bands,
    plotWaveformComp_phase_vel rt sec corrcoefs rotate corrsum backas2 min_lwi
                               b1 b2 b3 b4 b5 b6 b7 b8 = Ok (main, bands) ->
    List.length bands = 8%nat /\
    Forall (fun p : list Np.npfloat * Np.npfloat => snd p = snd main) bands.
Proof.
  intros rt sec corrcoefs rotate corrsum backas2 min_lwi
         b1 b2 b3 b4 b5 b6 b7 b8 main bands.
  unfold plotWaveformComp_phase_vel.
  destruct (ind_surf_of min_lwi sec) as [ind_surf |]; cbn [bind];
    [| discriminate].
  destruct (phase_vel rt sec _ _ _ _ false ind_surf) as [[pm em] |] eqn:E0;
    cbn [bind]; [| discriminate].
  repeat match goal with
  | |- context [phase_vel (rt_band ?b) ?s ?c ?r ?cs ?ba true ?i] =>
      let E := fresh "Eb" in
      destruct (phase_vel (rt_band b) s c r cs ba true i) as [[? ?] |] eqn:E;
      cbn [bind]; [| discriminate]
  end.
  intros H. injection H as <- <-.
  split; [reflexivity |].
  repeat constructor; cbn [snd];
    match goal with
    | E : phase_vel _ _ _ _ _ _ true _ = Ok (_, ?e) |- ?e = _ =>
        exact (phase_vel_EBA_same _ _ _ _ _ _ _ _ _ _ _ _ _ _ _ _ _ _ E E0)
    end.
Qed.


Section BackazimuthMore.

Variable xcorr : list Q -> list Q -> option Q.
Variable rotate_ne_rt : list Q -> list Q -> Q -> list Q * list Q.

(** What a call of [backas_est] that returns gives as best backazimuth and
    as its greatest coefficient. *)
Lemma backas_est_best rt ac min_sw max_lwf station
      corrsum backas2 max_ebaz_xcoef best_ebaz :
  backas_est xcorr rotate_ne_rt rt ac min_sw max_lwf station
    = Ok (corrsum, backas2, max_ebaz_xcoef, best_ebaz) ->
  exists (rt0 trN trE : Trace) (k : nat),
    Py.index rt 0 = Ok rt0 /\
    Py.index (select ac (snd (station_components station))) 0 = Ok trN /\
    Py.index (select ac (fst (station_components station))) 0 = Ok trE /\
    let rt_SR := Py.int (sampling_rate rt0) in
    let lo := Py.round (min_sw * inject_Z rt_SR) in
    let hi := Py.round (max_lwf * inject_Z rt_SR) in
    let rt2 := Py.slice (data rt0) lo hi in
    let acn2 := Py.slice (data trN) lo hi in
    let ace2 := Py.slice (data trE) lo hi in
    let nw := (Py.len rt2 / (rt_SR * 30))%Z in
    let row := corrbaz2_row xcorr rotate_ne_rt rt_SR rt2 acn2 ace2 nw in
    (0 < nw)%Z /\
    backas2 = backas2_grid /\
    corrsum = map (fun ba => Py.sum (map corradj (row ba))) backas2_grid /\
    (k < 360)%nat /\
    Np.argmax corrsum = Ok (Z.of_nat k) /\
    best_ebaz = inject_Z (Z.of_nat k) /\
    Np.max (row (inject_Z (Z.of_nat k))) = Ok max_ebaz_xcoef /\
    Py.len acn2 = Py.len ace2 /\
    (forall (ba : Q) (j4 : Z), In ba backas2_grid -> (0 <= j4 < nw)%Z ->
       Py.slice (snd (rotate_ne_rt acn2 ace2 ba))
                (rt_SR * 30 * j4) (rt_SR * 30 * (j4 + 1)) <> []).
Proof.
  unfold backas_est.
  destruct (Py.index rt 0) as [rt0 |]; cbn [bind]; [| discriminate].
  destruct (Py.index (select ac (snd _)) 0) as [trN |]; cbn [bind];
    [| discriminate].
  destruct (Py.index (select ac (fst _)) 0) as [trE |]; cbn [bind];
    [| discriminate].
  set (rt_SR := Py.int (sampling_rate rt0)).
  set (lo := Py.round (min_sw * inject_Z rt_SR)).
  set (hi := Py.round (max_lwf * inject_Z rt_SR)).
  set (rt2 := Py.slice (data rt0) lo hi).
  set (acn2 := Py.slice (data trN) lo hi).
  set (ace2 := Py.slice (data trE) lo hi).
  unfold Py.floordiv.
  destruct (Z.eqb_spec (rt_SR * 30) 0) as [E0 | Hnz]; cbn [bind];
    [discriminate |].
  set (nw := (Py.len rt2 / (rt_SR * 30))%Z).
  destruct (backas_est_scan xcorr rotate_ne_rt rt_SR rt2 acn2 ace2 nw)
    as [flat0 |] eqn:Escan; cbn [bind]; [| discriminate].
  destruct (backas_est_scan_returns _ _ _ _ _ _ _ _ Escan) as [-> Hscan].
  set (row := corrbaz2_row xcorr rotate_ne_rt rt_SR rt2 acn2 ace2 nw).
  set (flat := flat_map row backas2_grid).
  assert (Hflat : Py.len flat = (360 * Z.of_nat (Z.to_nat nw))%Z).
  { unfold Py.len, flat.
    rewrite (flat_map_length_const row (Z.to_nat nw))
      by (intros ba; apply corrbaz2_row_length).
    rewrite backas2_grid_length. lia. }
  assert (Hgrid : Py.len backas2_grid = 360%Z).
  { unfold Py.len. now rewrite backas2_grid_length. }
  assert (Hcols : Py.round (inject_Z (Py.len flat) / inject_Z (Py.len backas2_grid))
                  = Z.of_nat (Z.to_nat nw)).
  { apply round_whole. rewrite Hflat, Hgrid, inject_Z_mult. field. }
  rewrite Hcols, Hgrid, Hflat, Z.eqb_refl. cbn [negb].
  destruct (Z.leb_spec (Z.of_nat (Z.to_nat nw)) 0) as [Hle | Hpos];
    [discriminate |].
  rewrite Nat2Z.id.
  assert (Hrows : reshape (List.length backas2_grid) (Z.to_nat nw) flat
                  = map row backas2_grid).
  { apply reshape_flat_map; [reflexivity |].
    intros ba. apply corrbaz2_row_length. }
  rewrite Hrows, map_map.
  set (sums := map (fun ba => Py.sum (map corradj (row ba))) backas2_grid).
  destruct (Np.argmax sums) as [i |] eqn:Ei; cbn [bind]; [| discriminate].
  destruct (argmax_spec _ _ Ei) as (k & m & -> & Hk & _).
  unfold sums in Hk. rewrite length_map, backas2_grid_length in Hk.
  rewrite index_of_nat, backas2_grid_nth_error by exact Hk.
  cbn [bind].
  rewrite (int_whole (inject_Z (Z.of_nat k)) (Z.of_nat k)) by reflexivity.
  rewrite index_of_nat, nth_error_map, backas2_grid_nth_error by exact Hk.
  cbn [option_map bind].
  destruct (Np.max (row (inject_Z (Z.of_nat k)))) as [mx |] eqn:Emx;
    cbn [bind]; [| discriminate].
  intros H.
  assert (H1 : sums = corrsum) by congruence.
  assert (H2 : backas2_grid = backas2) by congruence.
  assert (H3 : mx = max_ebaz_xcoef) by congruence.
  assert (H4 : inject_Z (Z.of_nat k) = best_ebaz) by congruence.
  clear H. subst corrsum backas2 max_ebaz_xcoef best_ebaz.
  exists rt0, trN, trE, k.
  split; [reflexivity |]. split; [reflexivity |]. split; [reflexivity |].
  cbv zeta. fold rt_SR. fold lo. fold hi. fold rt2. fold acn2. fold ace2.
  fold nw. fold row.
  split; [lia |]. split; [reflexivity |]. split; [reflexivity |].
  split; [exact Hk |]. split; [exact Ei |]. split; [reflexivity |].
  split; [exact Emx |].
  apply Hscan. lia.
Qed.

(** X5: [backas_est] returns exactly when the rotation stream has a trace,
    the acceleration stream a north and an east component, the samples of
    the rotation rate from [min_sw] to [max_lwf] hold at least one whole
    window of 30 s, the north and east samples of that interval are equally
    many and no window of the transverse acceleration is empty.  With a
    window to correlate it raises [TypeError], from [rotate_ne_rt], when the
    north and east samples differ in number, and [ValueError], from
    [xcorr], when they do not and a window of the transverse acceleration
    is empty. *)
Theorem backas_est_returns_iff :
  forall rt ac min_sw max_lwf station,
    ((exists res,
        backas_est xcorr rotate_ne_rt rt ac min_sw max_lwf station = Ok res) <->
     (exists rt0 trN trE : Trace,
        Py.index rt 0 = Ok rt0 /\
        Py.index (select ac (snd (station_components station))) 0 = Ok trN /\
        Py.index (select ac (fst (station_components station))) 0 = Ok trE /\
        let rt_SR := Py.int (sampling_rate rt0) in
        let lo := Py.round (min_sw * inject_Z rt_SR) in
        let hi := Py.round (max_lwf * inject_Z rt_SR) in
        let acn2 := Py.slice (data trN) lo hi in
        let ace2 := Py.slice (data trE) lo hi in
        let nw := (Py.len (Py.slice (data rt0) lo hi) / (rt_SR * 30))%Z in
        (0 < nw)%Z /\
        Py.len acn2 = Py.len ace2 /\
        (forall (ba : Q) (j4 : Z), In ba backas2_grid -> (0 <= j4 < nw)%Z ->
           Py.slice (snd (rotate_ne_rt acn2 ace2 ba))
                    (rt_SR * 30 * j4) (rt_SR * 30 * (j4 + 1)) <> []))) /\
    (forall rt0 trN trE : Trace,
       Py.index rt 0 = Ok rt0 ->
       Py.index (select ac (snd (station_components station))) 0 = Ok trN ->
       Py.index (select ac (fst (station_components station))) 0 = Ok trE ->
       let rt_SR := Py.int (sampling_rate rt0) in
       let lo := Py.round (min_sw * inject_Z rt_SR) in
       let hi := Py.round (max_lwf * inject_Z rt_SR) in
       let acn2 := Py.slice (data trN) lo hi in
       let ace2 := Py.slice (data trE) lo hi in
       let nw := (Py.len (Py.slice (data rt0) lo hi) / (rt_SR * 30))%Z in
       (0 < nw)%Z ->
       (Py.len acn2 <> Py.len ace2 ->
        backas_est xcorr rotate_ne_rt rt ac min_sw max_lwf station
          = Raise TypeError) /\
       (Py.len acn2 = Py.len ace2 ->
        (exists (ba : Q) (j4 : Z), In ba backas2_grid /\ (0 <= j4 < nw)%Z /\
           Py.slice (snd (rotate_ne_rt acn2 ace2 ba))
                    (rt_SR * 30 * j4) (rt_SR * 30 * (j4 + 1)) = []) ->
        backas_est xcorr rotate_ne_rt rt ac min_sw max_lwf station
          = Raise ValueError)).
Proof.
  intros rt ac min_sw max_lwf station. split.
  - split.
    + intros ([[[corrsum backas2] mx] best] & H).
      destruct (backas_est_best _ _ _ _ _ _ _ _ _ H)
        as (rt0 & trN & trE & k & H0 & HN & HE & Hrest).
      cbv zeta in Hrest.
      destruct Hrest as (Hnw & _ & _ & _ & _ & _ & _ & Hlen & Hwin).
      exists rt0, trN, trE. repeat split; assumption.
    + intros (rt0 & trN & trE & H0 & HN & HE & Hnw & Hlen & Hwin).
      destruct (backas_est_total xcorr rotate_ne_rt rt ac min_sw max_lwf
                  station rt0 trN trE H0 HN HE Hnw Hlen Hwin)
        as (cs & mx & best & H).
      eauto.
  - intros rt0 trN trE H0 HN HE rt_SR lo hi acn2 ace2 nw Hnw.
    assert (Hnz : (rt_SR * 30 <> 0)%Z).
    { intros E. unfold nw in Hnw. rewrite E, Z.div_0_r in Hnw. lia. }
    destruct (backas_est_scan_raises xcorr rotate_ne_rt rt_SR
                (Py.slice (data rt0) lo hi) acn2 ace2 nw Hnw) as [HT HV].
    assert (Hunfold : forall e,
              backas_est_scan xcorr rotate_ne_rt rt_SR
                (Py.slice (data rt0) lo hi) acn2 ace2 nw = Raise e ->
              backas_est xcorr rotate_ne_rt rt ac min_sw max_lwf station
                = Raise e).
    { intros e He. unfold backas_est.
      rewrite H0. cbn [bind]. rewrite HN. cbn [bind]. rewrite HE. cbn [bind].
      fold rt_SR. fold lo. fold hi. fold acn2. fold ace2.
      unfold Py.floordiv.
      destruct (Z.eqb_spec (rt_SR * 30) 0) as [E0 | _]; [contradiction |].
      cbn [bind]. fold nw. now rewrite He. }
    split.
    + intros Hlen. apply Hunfold. now apply HT.
    + intros Hlen Hex. apply Hunfold. now apply HV.
Qed.

(** X6: the best backazimuth that [backas_est] itself returns is the
    estimate of [phase_vel] whenever some sum is positive; when every sum is
    zero, [phase_vel] has no estimate ([nan]) while [backas_est] returns
    0 degrees, the first candidate. *)
Theorem best_ebaz_and_EBA :
  forall rt ac min_sw max_lwf station corrsum backas2 max_ebaz_xcoef best_ebaz
         rt' sec corrcoefs rotate (ind_band : bool) (ind_surf : Z) phasv EBA,
    backas_est xcorr rotate_ne_rt rt ac min_sw max_lwf station
      = Ok (corrsum, backas2, max_ebaz_xcoef, best_ebaz) ->
    phase_vel rt' sec corrcoefs rotate corrsum backas2 ind_band ind_surf
      = Ok (phasv, EBA) ->
    (EBA = Np.Fin best_ebaz /\ exists s, In s corrsum /\ (0 < s)%Q) \/
    (EBA = Np.NaN /\ best_ebaz = 0%Q /\
     forall s, In s corrsum -> (s == 0)%Q).
Proof.
  intros rt ac min_sw max_lwf station corrsum backas2 mx best
         rt' sec corrcoefs rotate ind_band ind_surf phasv EBA H Hpv.
  destruct (backas_est_best _ _ _ _ _ _ _ _ _ H)
    as (rt0 & trN & trE & k & _ & _ & _ & Hrest).
  cbv zeta in Hrest.
  destruct Hrest as (_ & -> & Hsum & Hk & Hamax & -> & _).
  assert (Hnn : forall s, In s corrsum -> (0 <= s)%Q).
  { intros s Hs. rewrite Hsum in Hs. apply in_map_iff in Hs.
    destruct Hs as (ba & <- & _). apply sum_nonneg.
    intros x Hx. apply in_map_iff in Hx. destruct Hx as (c & <- & _).
    apply corradj_nonneg. }
  destruct (phase_vel_EBA _ _ _ _ _ _ _ _ _ _ Hpv) as (m & Hm & HE).
  destruct (max_spec _ _ Hm) as [Hin Hub].
  destruct (Qeq_bool m 0) eqn:Em.
  - right. apply Qeq_bool_iff in Em.
    assert (Hz : forall s, In s corrsum -> (s == 0)%Q).
    { intros s Hs. specialize (Hnn s Hs). specialize (Hub s Hs). lra. }
    split; [exact HE |]. split; [| exact Hz].
    destruct (argmax_spec _ _ Hamax) as (k' & m' & Hkk & _ & Hnth & _ & Hfirst).
    apply Nat2Z.inj in Hkk. subst k'.
    destruct k as [| k]; [reflexivity | exfalso].
    destruct (nth_error corrsum 0) as [s0 |] eqn:E0.
    + specialize (Hfirst 0%nat s0 ltac:(lia) E0).
      pose proof (Hz s0 (nth_error_In _ _ E0)).
      pose proof (Hz m' (nth_error_In _ _ Hnth)). lra.
    + apply nth_error_None in E0. apply nth_error_In in Hnth.
      destruct corrsum; [contradiction | simpl in E0; lia].
  - left. destruct HE as (i & e & Hi & He & ->).
    assert (i = Z.of_nat k) by congruence. subst i.
    rewrite index_of_nat, backas2_grid_nth_error in He by exact Hk.
    injection He as <-. split; [reflexivity |].
    exists m. split; [exact Hin |].
    specialize (Hnn m Hin).
    apply Qeq_bool_neq in Em. lra.
Qed.

(** X7: [phase_vel] has no estimate of the backazimuth ([nan]) exactly when
    no coefficient of the scan, for any of the 360 candidates and any window
    of 30 s, reaches 0.9. *)
Theorem EBA_undefined_iff :
  forall rt ac min_sw max_lwf station corrsum backas2 max_ebaz_xcoef best_ebaz
         rt' sec corrcoefs rotate (ind_band : bool) (ind_surf : Z) phasv EBA,
    backas_est xcorr rotate_ne_rt rt ac min_sw max_lwf station
      = Ok (corrsum, backas2, max_ebaz_xcoef, best_ebaz) ->
    phase_vel rt' sec corrcoefs rotate corrsum backas2 ind_band ind_surf
      = Ok (phasv, EBA) ->
    exists (rt0 trN trE : Trace),
      Py.index rt 0 = Ok rt0 /\
      Py.index (select ac (snd (station_components station))) 0 = Ok trN /\
      Py.index (select ac (fst (station_components station))) 0 = Ok trE /\
      let rt_SR := Py.int (sampling_rate rt0) in
      let lo := Py.round (min_sw * inject_Z rt_SR) in
      let hi := Py.round (max_lwf * inject_Z rt_SR) in
      let rt2 := Py.slice (data rt0) lo hi in
      let acn2 := Py.slice (data trN) lo hi in
      let ace2 := Py.slice (data trE) lo hi in
      let nw := (Py.len rt2 / (rt_SR * 30))%Z in
      (EBA = Np.NaN <->
       forall (ba : Q) (c : option Q),
         In ba backas2_grid ->
         In c (corrbaz2_row xcorr rotate_ne_rt rt_SR rt2 acn2 ace2 nw ba) ->
         Np.ge c (9 # 10) = false).
Proof.
  intros rt ac min_sw max_lwf station corrsum backas2 mx best
         rt' sec corrcoefs rotate ind_band ind_surf phasv EBA H Hpv.
  destruct (backas_est_best _ _ _ _ _ _ _ _ _ H)
    as (rt0 & trN & trE & k & H0 & HN & HE & Hrest).
  exists rt0, trN, trE.
  split; [exact H0 |]. split; [exact HN |]. split; [exact HE |].
  cbv zeta in Hrest |- *.
  destruct Hrest as (_ & -> & Hsum & _).
  set (row := corrbaz2_row xcorr rotate_ne_rt _ _ _ _ _) in *.
  assert (Hrow_nn : forall ba x, In x (map corradj (row ba)) -> (0 <= x)%Q).
  { intros ba x Hx. apply in_map_iff in Hx. destruct Hx as (c & <- & _).
    apply corradj_nonneg. }
  assert (Hnn : forall s, In s corrsum -> (0 <= s)%Q).
  { intros s Hs. rewrite Hsum in Hs. apply in_map_iff in Hs.
    destruct Hs as (ba & <- & _). apply sum_nonneg. apply Hrow_nn. }
  assert (Hzero : (forall s, In s corrsum -> (s == 0)%Q) <->
                  (forall ba c, In ba backas2_grid -> In c (row ba) ->
                                Np.ge c (9 # 10) = false)).
  { split.
    - intros Hz ba c Hba Hc. apply corradj_zero_iff.
      assert (Hs : (Py.sum (map corradj (row ba)) == 0)%Q).
      { apply Hz. rewrite Hsum. apply in_map_iff. eauto. }
      apply (proj1 (sum_zero_iff _ (Hrow_nn ba)) Hs).
      now apply in_map.
    - intros Hall s Hs. rewrite Hsum in Hs. apply in_map_iff in Hs.
      destruct Hs as (ba & <- & Hba).
      apply (proj2 (sum_zero_iff _ (Hrow_nn ba))).
      intros x Hx. apply in_map_iff in Hx. destruct Hx as (c & <- & Hc).
      apply corradj_zero_iff. now apply (Hall ba). }
  rewrite <- Hzero.
  destruct (phase_vel_EBA _ _ _ _ _ _ _ _ _ _ Hpv) as (m & Hm & HEBA).
  destruct (max_spec _ _ Hm) as [Hin Hub].
  destruct (Qeq_bool m 0) eqn:Em.
  - apply Qeq_bool_iff in Em. split; [intros _ | intros _; exact HEBA].
    intros s Hs. specialize (Hnn s Hs). specialize (Hub s Hs). lra.
  - destruct HEBA as (i & e & _ & _ & ->).
    split; [discriminate |].
    intros Hz. apply Qeq_bool_neq in Em. elim Em. now apply Hz.
Qed.

End BackazimuthMore.

(** ** More on the phase velocities *)


Lemma max_raises (l : list Q) (e : exn) : Py.max l = Raise e -> e = ValueError.
Proof. destruct l; simpl; congruence. Qed.


Lemma phase_vel_window_ok_or_ValueError rt_SR sec corrcoefs rotate rt0 i8 :
  (0 <= i8 < Py.len corrcoefs)%Z ->
  phase_vel_window rt_SR sec corrcoefs rotate rt0 i8 = Raise ValueError \/
  exists v, phase_vel_window rt_SR sec corrcoefs rotate rt0 i8 = Ok v.
Proof.
  intros Hi. unfold phase_vel_window.
  assert (Hidx : Py.index corrcoefs i8
                 = match nth_error corrcoefs (Z.to_nat i8) with
                   | Some x => Ok x
                   | None => Raise IndexError
                   end).
  { rewrite <- index_of_nat. f_equal. lia. }
  rewrite Hidx.
  destruct (nth_error corrcoefs (Z.to_nat i8)) as [c |] eqn:Ec.
  2:{ apply nth_error_None in Ec. unfold Py.len in Hi. lia. }
  cbn [bind]. destruct (Np.ge c (3 # 4)); [| eauto].
  destruct (Py.max (Py.slice (snd rotate) _ _)) as [ma | e] eqn:Ea; cbn [bind].
  2:{ left. now rewrite (max_raises _ _ Ea). }
  destruct (Py.max (Py.slice (data rt0) _ _)) as [mr | e] eqn:Er; cbn [bind].
  2:{ left. now rewrite (max_raises _ _ Er). }
  eauto.
Qed.

(** X9: [phase_vel] raises [ValueError] as soon as one of the windows it
    goes through correlates at 0.75 or more while the acceleration or the
    rotation rate has no sample in it, as when one of the two arrays is
    shorter than the coefficients account for. *)
Theorem phase_vel_empty_window :
  forall rt sec corrcoefs rotate corrsum backas2 (ind_band : bool)
         (ind_surf : Z) (rt0 : Trace) (i8 : Z) (c : option Q),
    Py.index rt 0 = Ok rt0 ->
    (0 <= ind_surf)%Z ->
    ((if ind_band then ind_surf else 0) <= i8 < Py.len corrcoefs)%Z ->
    Py.index corrcoefs i8 = Ok c ->
    Np.ge c (3 # 4) = true ->
    Py.slice (snd rotate) (Py.int (sampling_rate rt0) * sec * i8)
                          (Py.int (sampling_rate rt0) * sec * (i8 + 1)) = [] \/
    Py.slice (data rt0) (Py.int (sampling_rate rt0) * sec * i8)
                        (Py.int (sampling_rate rt0) * sec * (i8 + 1)) = [] ->
    phase_vel rt sec corrcoefs rotate corrsum backas2 ind_band ind_surf
      = Raise ValueError.
Proof.
  intros rt sec corrcoefs rotate corrsum backas2 ind_band ind_surf rt0 i8 c
         Hrt Hstart Hi Hc Hge Hempty.
  unfold phase_vel. rewrite Hrt. cbn [bind].
  set (start := if ind_band then ind_surf else 0%Z) in *.
  assert (Hs : (0 <= start)%Z) by (unfold start; destruct ind_band; lia).
  rewrite (mapM_raise _ _ ValueError); [reflexivity | |].
  - intros i Hin. apply range_In in Hin.
    apply phase_vel_window_ok_or_ValueError. lia.
  - exists i8. split; [apply range_In; lia |].
    unfold phase_vel_window. rewrite Hc. cbn [bind]. rewrite Hge.
    destruct Hempty as [-> | E]; [reflexivity |].
    destruct (Py.max (Py.slice (snd rotate) _ _)) as [ma | e] eqn:Ea;
      cbn [bind].
    + now rewrite E.
    + now rewrite (max_raises _ _ Ea).
Qed.

(** ** Edges of the signal-to-noise ratio *)

Lemma slice_wrap_empty {A : Type} (l : list A) (a b : Z) :
  (a < 0)%Z -> (0 <= b)%Z -> (b - a <= Py.len l)%Z -> Py.slice l a b = [].
Proof.
  intros Ha Hb Hlen. unfold Py.slice, Py.clamp.
  destruct (Z.ltb_spec a 0); [| lia].
  destruct (Z.ltb_spec b 0); [lia |].
  replace (Z.to_nat (Z.min b (Py.len l) - Z.max (a + Py.len l) 0)) with 0%nat
    by lia.
  reflexivity.
Qed.

Lemma slice_from_end {A : Type} (l : list A) (a b : Z) :
  (a < 0)%Z -> (b < 0)%Z -> (- a <= Py.len l)%Z ->
  Py.slice l a b
    = firstn (Z.to_nat (b - a)) (skipn (Z.to_nat (Py.len l + a)) l).
Proof.
  intros Ha Hb Hlen. unfold Py.slice, Py.clamp.
  destruct (Z.ltb_spec a 0); [| lia].
  destruct (Z.ltb_spec b 0); [| lia].
  f_equal; [| f_equal]; lia.
Qed.

(** X10: when the P arrival lies at least 100 s but less than 180 s after
    the first sample, the start of the noise window is a negative index,
    which Python counts from the end of the trace: on a trace of at least 80
    s the window is empty and [sn_ratio] returns [nan], without an
    exception. *)
Theorem sn_ratio_early_arrival :
  forall (full_signal : list Q) (p_arrival sam_rate : Q),
    full_signal <> [] ->
    (0 < Py.int sam_rate)%Z ->
    (100 <= Py.round p_arrival < 180)%Z ->
    (Py.int sam_rate * 80 <= Py.len full_signal)%Z ->
    sn_ratio full_signal p_arrival sam_rate = Ok Np.NaN.
Proof.
  intros full_signal p_arrival sam_rate Hne Hsr Hp Hlen.
  unfold sn_ratio.
  destruct (max_total full_signal Hne) as [m ->]. cbn [bind].
  rewrite slice_wrap_empty by nia.
  reflexivity.
Qed.

(** X11: when the P arrival lies less than 100 s after the first sample,
    both bounds of the noise window are negative and Python counts them
    from the end of the trace, stopping at the first sample.  With [lo] the
    number of samples in [180 - round(p)] seconds and [hi] the number in
    [100 - round(p)] seconds: on a trace of at least [lo] samples the
    window is the 80 s of samples that start [lo] samples before the end;
    on a trace of fewer than [lo] but more than [hi] samples it starts at
    the first sample and stops [hi] samples before the end; on a trace of
    at most [hi] samples it is empty and [sn_ratio] returns [nan].  In each
    case the result is the greatest sample over the absolute value of the
    mean of the window. *)
Theorem sn_ratio_window_from_end :
  forall (full_signal : list Q) (p_arrival sam_rate : Q),
    full_signal <> [] ->
    (0 < Py.int sam_rate)%Z ->
    (Py.round p_arrival < 100)%Z ->
    let L := Py.len full_signal in
    let lo := (Py.int sam_rate * (180 - Py.round p_arrival))%Z in
    let hi := (Py.int sam_rate * (100 - Py.round p_arrival))%Z in
    exists (m : Q) (noise : list Q),
      In m full_signal /\ (forall x, In x full_signal -> (x <= m)%Q) /\
      sn_ratio full_signal p_arrival sam_rate
        = Ok (Np.div (Np.Fin m) (Np.abs (Np.mean noise))) /\
      ((lo <= L)%Z ->
       noise = firstn (Z.to_nat (Py.int sam_rate * 80))
                      (skipn (Z.to_nat (L - lo)) full_signal)) /\
      ((hi < L < lo)%Z ->
       noise = firstn (Z.to_nat (L - hi)) full_signal) /\
      ((L <= hi)%Z ->
       noise = [] /\ sn_ratio full_signal p_arrival sam_rate = Ok Np.NaN).
Proof.
  intros full_signal p_arrival sam_rate Hne Hsr Hp L lo hi.
  destruct (max_total full_signal Hne) as [m Hm].
  destruct (max_spec _ _ Hm) as [Hin Hub].
  set (a := (Py.int sam_rate * (Py.round p_arrival - 180))%Z).
  set (b := (Py.int sam_rate * (Py.round p_arrival - 100))%Z).
  assert (Ha : (a = - lo)%Z) by (unfold a, lo; lia).
  assert (Hb : (b = - hi)%Z) by (unfold b, hi; lia).
  assert (Hhi : (0 < hi)%Z) by (unfold hi; nia).
  assert (Hlo : (hi < lo)%Z) by (unfold hi, lo; nia).
  exists m, (Py.slice full_signal a b).
  split; [exact Hin |]. split; [exact Hub |].
  assert (Heq : sn_ratio full_signal p_arrival sam_rate
                = Ok (Np.div (Np.Fin m)
                        (Np.abs (Np.mean (Py.slice full_signal a b))))).
  { unfold sn_ratio. rewrite Hm. reflexivity. }
  split; [exact Heq |].
  split; [| split].
  - intros Hlong.
    rewrite slice_from_end by (fold L; lia).
    fold L. f_equal; [| f_equal]; f_equal; unfold lo, hi in *; lia.
  - intros Hshort.
    unfold Py.slice, Py.clamp. fold L.
    destruct (Z.ltb_spec a 0); [| lia].
    destruct (Z.ltb_spec b 0); [| lia].
    replace (Z.to_nat (Z.max (a + L) 0)) with 0%nat by lia.
    cbn [skipn]. f_equal. lia.
  - intros Hempty.
    assert (Hnil : Py.slice full_signal a b = []).
    { unfold Py.slice, Py.clamp. fold L.
      destruct (Z.ltb_spec a 0); [| lia].
      destruct (Z.ltb_spec b 0); [| lia].
      replace (Z.to_nat (Z.max (b + L) 0 - Z.max (a + L) 0)) with 0%nat by lia.
      reflexivity. }
    split; [exact Hnil |].
    rewrite Heq, Hnil. reflexivity.
Qed.

(** ** More on the arrival times *)

Lemma min_total (l : list Q) : l <> [] -> exists m, Py.min l = Ok m.
Proof. destruct l; [congruence | intros _; simpl; eauto]. Qed.

Lemma min_perm (l l' : list Q) (m : Q) :
  Permutation l l' -> Py.min l = Ok m ->
  exists m', Py.min l' = Ok m' /\ (m' == m)%Q.
Proof.
  intros Hp Hm.
  destruct (min_spec _ _ Hm) as [Hin Hlb].
  destruct (min_total l') as [m' Hm'].
  { intros E. rewrite E in Hp. apply Permutation_sym, Permutation_nil in Hp.
    subst l. contradiction. }
  exists m'. split; [exact Hm' |].
  destruct (min_spec _ _ Hm') as [Hin' Hlb'].
  apply Qle_antisym.
  - apply Hlb'. now apply (Permutation_in _ Hp).
  - apply Hlb. now apply (Permutation_in _ (Permutation_sym Hp)).
Qed.

Lemma family_times_perm (family : list string) (tt tt' : list Arrival) :
  Permutation tt tt' ->
  Permutation (family_times family tt) (family_times family tt').
Proof.
  intros Hp. unfold family_times. apply Permutation_map.
  induction Hp as [| x l l' _ IH | x y l | l l' l'' _ IH1 _ IH2]; simpl.
  - constructor.
  - destruct (member (name x) family); [now constructor | exact IH].
  - destruct (member (name x) family); destruct (member (name y) family);
      try apply Permutation_refl. apply perm_swap.
  - now apply Permutation_trans with (filter (fun a => member (name a) family) l').
Qed.

Lemma floor_shift_compat (a x y : Q) :
  (x == y)%Q -> Np.floor (a + x) = Np.floor (a + y).
Proof.
  intros E. unfold Np.floor. f_equal. apply Qfloor_comp. now rewrite E.
Qed.

(** X13: the arrival times do not depend on the order in which the
    travel-time model lists its phases: two answers that hold the same
    phases give the same result, or the same failure. *)
Theorem ps_arrival_times_order :
  forall (gtt gtt' : Q -> Q -> list Arrival) (distance depth init_sec : Q),
    Permutation (gtt ((1 # 1000) * distance / (11111 # 100))%Q depth)
                (gtt' ((1 # 1000) * distance / (11111 # 100))%Q depth) ->
    ps_arrival_times gtt distance depth init_sec
      = ps_arrival_times gtt' distance depth init_sec.
Proof.
  intros gtt gtt' distance depth init_sec Hp.
  unfold ps_arrival_times.
  pose proof (family_times_perm pwave_list _ _ Hp) as HP.
  pose proof (family_times_perm swave_list _ _ Hp) as HS.
  set (P := family_times pwave_list _) in *.
  set (P' := family_times pwave_list _) in *.
  set (S := family_times swave_list _) in *.
  set (S' := family_times swave_list _) in *.
  assert (Hmin : forall l l', Permutation l l' ->
            (Py.min l = Raise ValueError /\ Py.min l' = Raise ValueError) \/
            (exists m m', Py.min l = Ok m /\ Py.min l' = Ok m' /\ (m' == m)%Q)).
  { intros l l' Hll. destruct l as [| x tl] eqn:El.
    - apply Permutation_nil in Hll. subst l'. now left.
    - right. rewrite <- El in *.
      destruct (min_total l) as [m Hm]; [rewrite El; discriminate |].
      destruct (min_perm _ _ _ Hll Hm) as (m' & Hm' & E). eauto. }
  destruct (Hmin _ _ HP) as [[-> ->] | (mp & mp' & -> & -> & Ep)];
    [reflexivity |].
  cbn [bind].
  destruct (Hmin _ _ HS) as [[-> ->] | (ms & ms' & -> & -> & Es)];
    [reflexivity |].
  cbn [bind].
  now rewrite (floor_shift_compat init_sec _ _ Ep),
              (floor_shift_compat init_sec _ _ Es).
Qed.

(** X14: the arrival times that [ps_arrival_times] returns are whole
    seconds, not later than any arrival of their family and less than one
    second before the earliest one; the P time is not after the S time when
    the earliest P phase is not after the earliest S phase. *)
Theorem ps_arrival_times_bounds :
  forall (get_travel_times : Q -> Q -> list Arrival)
         (distance depth init_sec arriv_p arriv_s : Q),
    ps_arrival_times get_travel_times distance depth init_sec
      = Ok (arriv_p, arriv_s) ->
    let tt := get_travel_times ((1 # 1000) * distance / (11111 # 100))%Q depth in
    let tiemp := family_times pwave_list tt in
    let tiems := family_times swave_list tt in
    (exists z : Z, arriv_p = inject_Z z) /\
    (exists z : Z, arriv_s = inject_Z z) /\
    (forall t, In t tiemp -> (arriv_p <= init_sec + t)%Q) /\
    (exists t, In t tiemp /\ (init_sec + t < arriv_p + 1)%Q) /\
    (forall t, In t tiems -> (arriv_s <= init_sec + t)%Q) /\
    (exists t, In t tiems /\ (init_sec + t < arriv_s + 1)%Q) /\
    ((exists t, In t tiemp /\ forall t', In t' tiems -> (t <= t')%Q) ->
     (arriv_p <= arriv_s)%Q).
Proof.
  intros get_travel_times distance depth init_sec arriv_p arriv_s H tt tiemp tiems.
  unfold ps_arrival_times in H. fold tt in H. fold tiemp in H. fold tiems in H.
  destruct (Py.min tiemp) as [mp |] eqn:Ep; cbn [bind] in H; [| discriminate].
  destruct (Py.min tiems) as [ms |] eqn:Es; cbn [bind] in H; [| discriminate].
  injection H as <- <-.
  destruct (min_spec _ _ Ep) as [Hinp Hlbp].
  destruct (min_spec _ _ Es) as [Hins Hlbs].
  unfold Np.floor.
  pose proof (Qfloor_le (init_sec + mp)) as Fp1.
  pose proof (Qlt_floor (init_sec + mp)) as Fp2.
  pose proof (Qfloor_le (init_sec + ms)) as Fs1.
  pose proof (Qlt_floor (init_sec + ms)) as Fs2.
  rewrite inject_Z_plus in Fp2, Fs2.
  split; [eauto |]. split; [eauto |].
  split; [intros t Ht; specialize (Hlbp t Ht); lra |].
  split; [exists mp; split; [exact Hinp | exact Fp2] |].
  split; [intros t Ht; specialize (Hlbs t Ht); lra |].
  split; [exists ms; split; [exact Hins | exact Fs2] |].
  intros (t & Ht & Hle).
  rewrite <- Zle_Qle. apply Qfloor_resp_le.
  specialize (Hlbp t Ht). specialize (Hle ms Hins). lra.
Qed.

(** ** Surface-wave arrival and time windows *)

Lemma argmin_from_spec (tl : list Q) :
  forall (pre : list Q) (best : nat) (m : Q),
    nth_error pre best = Some m ->
    (forall y, In y pre -> (m <= y)%Q) ->
    exists m' : Q,
      nth_error (pre ++ tl)%list (Np2.argmin_from tl (List.length pre) best m)
        = Some m' /\
      (forall y, In y (pre ++ tl)%list -> (m' <= y)%Q).
Proof.
  induction tl as [| y tl IH]; intros pre best m Hbest Hlb.
  - simpl. rewrite app_nil_r. exists m. split; assumption.
  - assert (Hlt : (best < List.length pre)%nat).
    { apply nth_error_Some. congruence. }
    assert (Happ : (pre ++ y :: tl = (pre ++ [y]) ++ tl)%list).
    { now rewrite <- app_assoc. }
    assert (Hlen : List.length (pre ++ [y])%list = S (List.length pre)).
    { rewrite length_app. simpl. lia. }
    simpl. destruct (Py.Qlt_bool y m) eqn:E.
    + apply Qlt_bool_iff in E. rewrite Happ, <- Hlen. apply IH.
      * rewrite nth_error_app2 by lia. now rewrite Nat.sub_diag.
      * intros z Hz. apply in_app_or in Hz. destruct Hz as [Hz | [<- | []]].
        -- specialize (Hlb z Hz). lra.
        -- lra.
    + apply Qlt_bool_false_iff in E. rewrite Happ, <- Hlen. apply IH.
      * now rewrite nth_error_app1 by lia.
      * intros z Hz. apply in_app_or in Hz. destruct Hz as [Hz | [<- | []]].
        -- now apply Hlb.
        -- exact E.
Qed.

(** [np.argmin] returns the index of a least item. *)
Lemma argmin_spec (l : list Q) :
  l <> [] ->
  exists (k : nat) (m : Q),
    Np2.argmin l = Ok (Z.of_nat k) /\ (k < List.length l)%nat /\
    nth_error l k = Some m /\ (forall y, In y l -> (m <= y)%Q).
Proof.
  destruct l as [| x tl]; [congruence | intros _].
  destruct (argmin_from_spec tl [x] 0 x eq_refl) as (m & Hm & Hlb).
  - intros y [<- | []]. lra.
  - simpl in Hm, Hlb.
    exists (Np2.argmin_from tl 1 0 x), m.
    split; [reflexivity |]. split; [| split; assumption].
    apply (proj1 (nth_error_Some (x :: tl) _)). congruence.
Qed.

(** A loop over the indices of an array that reads each item is a map over
    the array. *)
Lemma mapM_index_from {A B : Type} (F : A -> B) (l : list A) :
  forall pre : list A,
    mapM (fun i => g <- Py.index (pre ++ l)%list i ;; Ok (F g))
         (map (fun k => Z.of_nat (List.length pre + k)) (seq 0 (List.length l)))
      = Ok (map F l).
Proof.
  induction l as [| x tl IH]; intros pre; [reflexivity |].
  cbn [List.length seq map mapM].
  rewrite index_of_nat, nth_error_app2, Nat.add_0_r, Nat.sub_diag by lia.
  cbn [nth_error bind].
  rewrite <- seq_shift, map_map.
  specialize (IH (pre ++ [x])%list).
  rewrite <- app_assoc in IH. cbn [app] in IH.
  rewrite length_app in IH. cbn [List.length] in IH.
  erewrite map_ext; [rewrite IH; reflexivity |].
  intros k. cbn beta. f_equal. lia.
Qed.

Lemma mapM_index_range {A B : Type} (F : A -> B) (l : list A) (n : Z) :
  n = Py.len l ->
  mapM (fun i => g <- Py.index l i ;; Ok (F g)) (Py.range 0 n) = Ok (map F l).
Proof.
  intros ->. unfold Py.range, Py.len.
  rewrite Z.sub_0_r, Nat2Z.id.
  exact (mapM_index_from F l []).
Qed.

Lemma degree_grid_length : Py.len degree_grid = 18010%Z.
Proof.
  unfold degree_grid, Py.len. rewrite length_map, range_length. lia.
Qed.

Lemma degree_grid_nth_error (i : nat) :
  (Z.of_nat i < 18010)%Z ->
  nth_error degree_grid i = Some (inject_Z (Z.of_nat i) * (1 # 100))%Q.
Proof.
  intros H. unfold degree_grid.
  rewrite nth_error_map, range_nth_error by lia.
  reflexivity.
Qed.

Lemma deltas_length : List.length deltas = 28%nat.
Proof. reflexivity. Qed.

Lemma deltas_nth_error (j : nat) :
  (j < 28)%nat -> nth_error deltas j = Some (inject_Z (5 * Z.of_nat j)).
Proof.
  intros H. unfold deltas.
  rewrite nth_error_map, range_nth_error by (rewrite Z.sub_0_r; lia).
  reflexivity.
Qed.

Lemma tts_length : List.length tts = 28%nat.
Proof. reflexivity. Qed.

Section WindowsProps.

Variable polyfit1 : list Q -> list Q -> Q * Q.

(** The grid point and the table entry that [surf_tts] works with. *)
Lemma surf_tts_spec :
  forall distance start_time : Q,
    let deg := ((1 # 1000) * distance / (11111 # 100))%Q in
    let mval := fst (polyfit1 deltas tts) in
    exists (im k : nat) (t : Q),
      (Z.of_nat im < 18010)%Z /\ (k < 28)%nat /\ nth_error tts k = Some t /\
      let g := (inject_Z (Z.of_nat im) * (1 # 100))%Q in
      surf_tts polyfit1 distance start_time
        = Ok (Np.floor (start_time + mval * g) + (mval * g - t))%Q /\
      (forall j : nat, (Z.of_nat j < 18010)%Z ->
         (Qabs (deg - g) <= Qabs (deg - inject_Z (Z.of_nat j) * (1 # 100)))%Q) /\
      ((0 <= deg)%Q -> (deg <= 180)%Q -> (Qabs (deg - g) <= 1 # 200)%Q) /\
      (forall j : nat, (j < 28)%nat ->
         (Qabs (g - inject_Z (5 * Z.of_nat k))
            <= Qabs (g - inject_Z (5 * Z.of_nat j)))%Q).
Proof.
  intros distance start_time deg mval.
  unfold surf_tts. fold deg. fold mval.
  set (F := fun g : Q => Qabs (deg - g)).
  assert (Hlen : Py.len (map (Qmult mval) degree_grid) = Py.len degree_grid).
  { unfold Py.len. now rewrite length_map. }
  assert (Hdifer :
    mapM (fun i4 : Z =>
            g <- Py.index degree_grid i4 ;; Ok (Qabs (deg - g)))
         (Py.range 0 (Py.len (map (Qmult mval) degree_grid)))
      = Ok (map F degree_grid)).
  { exact (mapM_index_range F degree_grid _ Hlen). }
  rewrite Hdifer. cbn [bind].
  destruct (argmin_spec (map F degree_grid)) as (im & m & Him & Hlt & Hnth & Hlb).
  { intros E. apply (f_equal (@Py.len Q)) in E.
    unfold Py.len at 1 in E. rewrite length_map in E.
    fold (Py.len degree_grid) in E. rewrite degree_grid_length in E.
    discriminate. }
  rewrite length_map in Hlt.
  assert (Hlt' : (Z.of_nat im < 18010)%Z).
  { rewrite <- degree_grid_length. unfold Py.len. lia. }
  clear Hlt. rename Hlt' into Hlt.
  rewrite Him. cbn [bind].
  rewrite index_of_nat, nth_error_map, degree_grid_nth_error by exact Hlt.
  cbn [option_map bind].
  set (g := (inject_Z (Z.of_nat im) * (1 # 100))%Q).
  set (G := fun d : Q => Qabs (g - d)).
  assert (Hgi : Py.index degree_grid (Z.of_nat im) = Ok g).
  { now rewrite index_of_nat, degree_grid_nth_error by exact Hlt. }
  assert (Hloop' : mapM (fun i1 : Z =>
                           g0 <- Py.index degree_grid (Z.of_nat im) ;;
                           d <- Py.index deltas i1 ;; Ok (Qabs (g0 - d)))
                        (Py.range 0 (Py.len deltas))
                   = Ok (map G deltas)).
  { rewrite Hgi. cbn [bind]. apply (mapM_index_range G deltas _ eq_refl). }
  rewrite Hloop'. cbn [bind].
  destruct (argmin_spec (map G deltas)) as (k & m2 & Hk & Hklt & Hknth & Hklb).
  { discriminate. }
  rewrite length_map, deltas_length in Hklt.
  rewrite Hk. cbn [bind].
  rewrite index_of_nat.
  destruct (nth_error tts k) as [t |] eqn:Et.
  2:{ apply nth_error_None in Et. rewrite tts_length in Et. lia. }
  cbn [bind].
  exists im, k, t.
  split; [exact Hlt |]. split; [exact Hklt |]. split; [exact Et |].
  cbv zeta. fold g.
  split; [reflexivity |].
  rewrite nth_error_map, degree_grid_nth_error in Hnth by exact Hlt.
  cbn [option_map] in Hnth. injection Hnth as <-. fold g in Hlb.
  assert (Hbest : forall j : nat, (Z.of_nat j < 18010)%Z ->
            (F g <= F (inject_Z (Z.of_nat j) * (1 # 100)))%Q).
  { intros j Hj. apply Hlb. apply in_map.
    apply nth_error_In with j. now apply degree_grid_nth_error. }
  split; [exact Hbest |].
  split.
  - intros H0 H180.
    set (j := Qfloor (deg * 100 + (1 # 2))).
    pose proof (Qfloor_le (deg * 100 + (1 # 2))) as F1.
    pose proof (Qlt_floor (deg * 100 + (1 # 2))) as F2.
    fold j in F1, F2. rewrite inject_Z_plus in F2.
    change (inject_Z 1) with 1%Q in F2.
    assert (Hj0 : (0 <= j)%Z).
    { change 0%Z with (Qfloor 0). apply Qfloor_resp_le. lra. }
    assert (Hj1 : (j <= 18000)%Z).
    { change 18000%Z with (Qfloor (18000 + (1 # 2))).
      apply Qfloor_resp_le. lra. }
    assert (Hjn : (Z.of_nat (Z.to_nat j) < 18010)%Z) by lia.
    specialize (Hbest (Z.to_nat j) Hjn).
    rewrite Z2Nat.id in Hbest by exact Hj0.
    apply Qle_trans with (1 := Hbest).
    unfold F. apply Qabs_Qle_condition. split; lra.
  - intros j Hj.
    assert (Hk' : nth_error (map G deltas) k
                  = Some (G (inject_Z (5 * Z.of_nat k)))).
    { rewrite nth_error_map, deltas_nth_error by exact Hklt. reflexivity. }
    assert (Em2 : m2 = G (inject_Z (5 * Z.of_nat k))) by congruence.
    subst m2.
    change (G (inject_Z (5 * Z.of_nat k)) <= G (inject_Z (5 * Z.of_nat j)))%Q.
    apply Hklb. apply in_map. apply nth_error_In with j.
    now apply deltas_nth_error.
Qed.

(** X15: [surf_tts] never fails.  It takes the point [g] of the grid of
    hundredths of a degree (0.00 to 180.09) that is closest to the distance
    of the event in degrees, at most 0.005 degrees away for a distance from
    0 to 180 degrees, and the tabulated distance [5 * k] (0 to 135 degrees)
    closest to [g]; with [s] the fitted travel time at [g], the arrival is
    [floor(start_time + s) + (s - tts[k])]. *)
Theorem surf_tts_closest_grid_point :
  forall distance start_time : Q,
    let deg := ((1 # 1000) * distance / (11111 # 100))%Q in
    let mval := fst (polyfit1 deltas tts) in
    exists (im k : nat) (t : Q),
      (Z.of_nat im < 18010)%Z /\ (k < 28)%nat /\ nth_error tts k = Some t /\
      let g := (inject_Z (Z.of_nat im) * (1 # 100))%Q in
      surf_tts polyfit1 distance start_time
        = Ok (Np.floor (start_time + mval * g) + (mval * g - t))%Q /\
      (forall j : nat, (Z.of_nat j < 18010)%Z ->
         (Qabs (deg - g) <= Qabs (deg - inject_Z (Z.of_nat j) * (1 # 100)))%Q) /\
      ((0 <= deg)%Q -> (deg <= 180)%Q -> (Qabs (deg - g) <= 1 # 200)%Q) /\
      (forall j : nat, (j < 28)%nat ->
         (Qabs (g - inject_Z (5 * Z.of_nat k))
            <= Qabs (g - inject_Z (5 * Z.of_nat j)))%Q).
Proof. exact surf_tts_spec. Qed.

End WindowsProps.

Section TimeWindowsProps.

Variable polyfit1 : list Q -> list Q -> Q * Q.




End TimeWindowsProps.

(** ** Means of the phase velocities *)

Lemma fold_add_finite (qs : list Q) (a : Q) :
  fold_left Np2.add (map Np.Fin qs) (Np.Fin a) = Np.Fin (fold_left Qplus qs a).
Proof.
  revert a. induction qs as [| q tl IH]; intros a; [reflexivity |].
  simpl. apply IH.
Qed.

Lemma drop_nan_finite (vs : list Np.npfloat) :
  (forall v, In v vs -> v = Np.NaN \/ exists q, v = Np.Fin q) ->
  drop_nan vs = map Np.Fin (finite_values vs).
Proof.
  induction vs as [| v tl IH]; intros H; [reflexivity |].
  assert (Htl : drop_nan tl = map Np.Fin (finite_values tl)).
  { apply IH. intros x Hx. apply H. now right. }
  destruct (H v (or_introl eq_refl)) as [-> | [q ->]]; simpl.
  - exact Htl.
  - unfold drop_nan in *. simpl. now rewrite Htl.
Qed.

Lemma drop_nan_no_nan (vs : list Np.npfloat) : ~ In Np.NaN (drop_nan vs).
Proof.
  unfold drop_nan. intros H. apply filter_In in H. now destruct H.
Qed.

Lemma mean_finite (qs : list Q) :
  qs <> [] ->
  exists mu : Q,
    Np2.mean (map Np.Fin qs) = Np.Fin mu /\
    (mu == Py.sum qs / inject_Z (Py.len qs))%Q.
Proof.
  intros Hne.
  pose proof (len_pos qs Hne) as Hpos.
  destruct qs as [| q tl]; [congruence |].
  unfold Np2.mean. cbn [map].
  change (Np.Fin q :: map Np.Fin tl) with (map Np.Fin (q :: tl)).
  rewrite fold_add_finite.
  assert (Hlen : Py.len (map Np.Fin (q :: tl)) = Py.len (q :: tl)).
  { unfold Py.len. now rewrite length_map. }
  rewrite Hlen. unfold Np.div.
  rewrite Qeq_bool_false
    by (intros E; rewrite E in Hpos; revert Hpos; apply Qlt_irrefl).
  eexists. split; reflexivity.
Qed.

Lemma drop_nan_all_nan (vs : list Np.npfloat) :
  (forall v, In v vs -> v = Np.NaN) -> drop_nan vs = [].
Proof.
  induction vs as [| v tl IH]; intros H; [reflexivity |].
  unfold drop_nan. simpl. rewrite (H v (or_introl eq_refl)). simpl.
  apply IH. intros x Hx. apply H. now right.
Qed.

Section AggregationProps.

Variable np_std : list Np.npfloat -> Np.npfloat.

(** X18: the mean and the standard deviation of a band are taken over the
    velocities that are not [nan] only.  For a band of finite velocities and
    [nan]s: the mean is the sum of the finite velocities over their number
    and the standard deviation is that of the finite velocities; a band
    with no finite velocity has [nan] for both, and [np.mean] and [np.std]
    never see an empty array. *)
Theorem phasv_means_over_defined :
  forall (bands : list (list Np.npfloat)),
    List.length (fst (phasv_means_stds np_std bands)) = List.length bands /\
    List.length (snd (phasv_means_stds np_std bands)) = List.length bands /\
    forall (i : nat) (vs : list Np.npfloat),
      nth_error bands i = Some vs ->
      (forall v, In v vs -> v = Np.NaN \/ exists q, v = Np.Fin q) ->
      (finite_values vs = [] ->
       nth_error (fst (phasv_means_stds np_std bands)) i = Some Np.NaN /\
       nth_error (snd (phasv_means_stds np_std bands)) i = Some Np.NaN) /\
      (finite_values vs <> [] ->
       (exists mu : Q,
          nth_error (fst (phasv_means_stds np_std bands)) i = Some (Np.Fin mu) /\
          (mu == Py.sum (finite_values vs)
                 / inject_Z (Py.len (finite_values vs)))%Q) /\
       nth_error (snd (phasv_means_stds np_std bands)) i
         = Some (np_std (map Np.Fin (finite_values vs)))).
Proof.
  intros bands. unfold phasv_means_stds. cbn [fst snd].
  rewrite !length_map.
  split; [reflexivity |]. split; [reflexivity |].
  intros i vs Hi Hvs.
  rewrite !nth_error_map, Hi. cbn [option_map].
  rewrite (drop_nan_finite vs Hvs).
  split.
  - intros ->. split; reflexivity.
  - intros Hne.
    destruct (finite_values vs) as [| q qs] eqn:Ef; [congruence |].
    rewrite <- Ef in *.
    assert (Hlen : Py.len (map Np.Fin (finite_values vs))
                   = Py.len (finite_values vs)).
    { unfold Py.len. now rewrite length_map. }
    assert (Hpos : (0 < inject_Z (Py.len (finite_values vs)))%Q).
    { apply len_pos. rewrite Ef. discriminate. }
    assert (Hnz : (Py.len (map Np.Fin (finite_values vs)) =? 0)%Z = false).
    { apply Z.eqb_neq. rewrite Hlen, Ef. unfold Py.len. simpl. lia. }
    rewrite Hnz. cbn [negb].
    split; [| reflexivity].
    destruct (mean_finite (finite_values vs) Hne) as (mu & -> & Emu).
    exists mu. split; [reflexivity | exact Emu].
Qed.

(** X19: a band of which no window, from the start index on, correlates at
    0.75 or more has only [nan] velocities, and so [nan] for its mean and
    for its standard deviation. *)
Theorem uncorrelated_band_has_no_mean :
  forall rt sec corrcoefs rotate corrsum backas2 (ind_band : bool)
         (ind_surf : Z) phasv EBA,
    phase_vel rt sec corrcoefs rotate corrsum backas2 ind_band ind_surf
      = Ok (phasv, EBA) ->
    (forall (i8 : Z) (c : option Q),
       ((if ind_band then ind_surf else 0) <= i8 < Py.len corrcoefs)%Z ->
       Py.index corrcoefs i8 = Ok c -> Np.ge c (3 # 4) = false) ->
    (forall v, In v phasv -> v = Np.NaN) /\
    phasv_means_stds np_std [phasv] = ([Np.NaN], [Np.NaN]).
Proof.
  intros rt sec corrcoefs rotate corrsum backas2 ind_band ind_surf phasv EBA
         H Hlow.
  destruct (phase_vel_windows_from _ _ _ _ _ _ _ _ _ _ H)
    as (rt0 & _ & Hlen & Hent).
  assert (Hall : forall v, In v phasv -> v = Np.NaN).
  { intros v Hv. apply In_nth_error in Hv. destruct Hv as [k Hk].
    assert (Hklt : (k < List.length phasv)%nat).
    { apply nth_error_Some. congruence. }
    destruct (Hent k Hklt) as (v' & Hv' & Hw).
    assert (v' = v) by congruence. subst v'.
    unfold phase_vel_window in Hw.
    destruct (Py.index corrcoefs _) as [c |] eqn:Ec; cbn [bind] in Hw;
      [| discriminate].
    rewrite (Hlow ((if ind_band then ind_surf else 0%Z) + Z.of_nat k)%Z c)
      in Hw; [congruence | | exact Ec].
    split; [lia |].
    unfold Py.index in Ec.
    destruct ((if ind_band then ind_surf else 0%Z) + Z.of_nat k <? 0)%Z eqn:En.
    - rewrite Hlen in Hklt. lia.
    - rewrite En in Ec.
      destruct (nth_error corrcoefs _) eqn:Enth; [| discriminate].
      assert (Hb : (Z.to_nat ((if ind_band then ind_surf else 0%Z)
                              + Z.of_nat k) < List.length corrcoefs)%nat).
      { apply nth_error_Some. congruence. }
      apply Z.ltb_ge in En. unfold Py.len. lia. }
  split; [exact Hall |].
  unfold phasv_means_stds. cbn [map fst snd].
  rewrite (drop_nan_all_nan phasv Hall). reflexivity.
Qed.

End AggregationProps.

(** ** Backazimuth analysis *)

Lemma Forall2_impl_In {A B : Type} (R R' : A -> B -> Prop) l ys :
  Forall2 R l ys ->
  (forall x y, In x l -> R x y -> R' x y) ->
  Forall2 R' l ys.
Proof.
  intros H. induction H as [| x y l' ys' Hxy _ IH]; intros Himp;
    constructor.
  - apply Himp; [now left | exact Hxy].
  - apply IH. intros x' y' Hx'. apply Himp. now right.
Qed.

Lemma first_nan_spec (l : list (option Q)) :
  forall i : nat,
    match Np2.first_nan l i with
    | Some j => (i <= j < i + List.length l)%nat /\
                nth_error l (j - i) = Some None
    | None => exists xs, Np.all_some l = Some xs /\ l = map Some xs
    end.
Proof.
  induction l as [| c tl IH]; intros i; simpl.
  - now exists [].
  - destruct c as [q |].
    + specialize (IH (S i)). destruct (Np2.first_nan tl (S i)) as [j |].
      * destruct IH as [Hj Hn]. split; [lia |].
        replace (j - i)%nat with (S (j - S i)) by lia. exact Hn.
      * destruct IH as (xs & -> & ->). now exists (q :: xs).
    + split; [lia |]. now rewrite Nat.sub_diag.
Qed.

Lemma backas_grid_length : List.length backas_grid = 36%nat.
Proof. reflexivity. Qed.

Lemma backas_grid_nth_error (k : nat) :
  (k < 36)%nat -> nth_error backas_grid k = Some (inject_Z (10 * Z.of_nat k)).
Proof.
  intros H. unfold backas_grid.
  rewrite nth_error_map, range_nth_error by (simpl; lia).
  reflexivity.
Qed.

Section ScanProps.

Variable xcorr : list Q -> list Q -> option Q.
Variable rotate_ne_rt : list Q -> list Q -> Q -> list Q * list Q.

Lemma backas_grid_range (ba : Q) :
  In ba backas_grid -> (0 <= ba)%Q /\ (ba <= 360)%Q.
Proof.
  intros H. unfold backas_grid in H. apply in_map_iff in H.
  destruct H as (k & <- & Hk). apply range_In in Hk.
  split.
  - change 0%Q with (inject_Z 0). rewrite <- Zle_Qle. lia.
  - change 360%Q with (inject_Z 360). rewrite <- Zle_Qle. lia.
Qed.

(** One pass of the loop body of [backas_analysis] that returns, the north
    component being [trN]. *)
Lemma backas_analysis_entry rotra rodat acstr sec ind station
      (trN trE : Trace) (ba : Q) (i7 : Z) (c : option Q) :
  Py.index (select acstr (fst (station_components station))) 0 = Ok trE ->
  (trE' <- Py.index (select acstr (fst (station_components station))) 0 ;;
   rotated <- rotate_ne_rt_checked rotate_ne_rt (slice_to (data trN) ind)
                (slice_to (data trE') ind) ba ;;
   xcorr_checked xcorr
     (Py.slice rodat (Py.int (sampling_rate rotra) * sec * i7)
                     (Py.int (sampling_rate rotra) * sec * (i7 + 1)))
     (Py.slice (snd rotated) (Py.int (sampling_rate trN) * sec * i7)
                             (Py.int (sampling_rate trN) * sec * (i7 + 1))))
    = Ok c ->
  c = corrbaz_entry xcorr rotate_ne_rt rotra rodat trN trE sec ind ba i7 /\
  Py.len (slice_to (data trN) ind) = Py.len (slice_to (data trE) ind) /\
  Py.slice rodat (Py.int (sampling_rate rotra) * sec * i7)
                 (Py.int (sampling_rate rotra) * sec * (i7 + 1)) <> [] /\
  Py.slice (snd (rotate_ne_rt (slice_to (data trN) ind)
                              (slice_to (data trE) ind) ba))
           (Py.int (sampling_rate trN) * sec * i7)
           (Py.int (sampling_rate trN) * sec * (i7 + 1)) <> [].
Proof.
  intros HE H. rewrite HE in H. cbn [bind] in H.
  destruct (rotate_ne_rt_checked rotate_ne_rt _ _ ba) as [r |] eqn:Er;
    cbn [bind] in H; [| discriminate].
  destruct (rotate_ne_rt_checked_ok _ _ _ _ _ Er) as [-> Hlen].
  destruct (xcorr_checked_ok _ _ _ _ H) as (-> & Hne1 & Hne2).
  unfold corrbaz_entry. repeat split; assumption.
Qed.

(** The scan as a table: one row per candidate, one entry per window. *)
Lemma backas_analysis_table rotra rodat acstr sec corrcoefs ind station
      (trN trE : Trace) res :
  Py.index (select acstr (snd (station_components station))) 0 = Ok trN ->
  Py.index (select acstr (fst (station_components station))) 0 = Ok trE ->
  backas_analysis xcorr rotate_ne_rt rotra rodat acstr sec corrcoefs ind station
    = Ok res ->
  let corrbaz :=
    map (fun ba => map (corrbaz_entry xcorr rotate_ne_rt rotra rodat trN trE sec ind ba)
                       (Py.range 0 (Py.len corrcoefs)))
        backas_grid in
  backas_analysis xcorr rotate_ne_rt rotra rodat acstr sec corrcoefs ind station
    = (maxcorr <- mapM (fun l1 =>
                          col <- column corrbaz l1 ;;
                          i <- Np2.argmax col ;;
                          Py.index backas_grid i)
                       (Py.range 0 (Py.len corrcoefs)) ;;
       coefs <- mapM (fun m1 =>
                        col <- column corrbaz m1 ;;
                        Np.max col)
                     (Py.range 0 (Py.len corrcoefs)) ;;
       Ok (corrbaz, maxcorr, backas_grid, coefs)).
Proof.
  intros HN HE Hret corrbaz.
  unfold backas_analysis in Hret |- *. rewrite HN in Hret |- *.
  cbn [bind] in Hret |- *.
  set (pairs := flat_map (fun ba => map (fun i7 => (ba, i7))
                                        (Py.range 0 (Py.len corrcoefs)))
                         backas_grid) in *.
  destruct (mapM _ pairs) as [flat |] eqn:Em; [| discriminate Hret].
  clear Hret. cbn [bind].
  apply (mapM_ok_pure _
           (fun p : Q * Z =>
              corrbaz_entry xcorr rotate_ne_rt rotra rodat trN trE sec ind
                            (fst p) (snd p))) in Em.
  2:{ intros [ba i7] c _ Hc. cbn [fst snd].
      now destruct (backas_analysis_entry rotra rodat acstr sec ind station
                      trN trE ba i7 c HE Hc) as [-> _]. }
  assert (Hflat : flat
                  = flat_map (fun ba => map (corrbaz_entry xcorr rotate_ne_rt rotra rodat trN trE sec ind ba)
                                            (Py.range 0 (Py.len corrcoefs)))
                             backas_grid).
  { rewrite Em. unfold pairs.
    apply (map_pairs (corrbaz_entry xcorr rotate_ne_rt rotra rodat trN trE
                                    sec ind)). }
  rewrite Hflat.
  rewrite (reshape_flat_map _ (List.length backas_grid)
             (List.length corrcoefs)); [reflexivity | reflexivity |].
  intros ba. rewrite length_map, range_length. unfold Py.len. lia.
Qed.

(** What a scan that returns with a window to correlate has met: a north
    and an east component of the same length, and no empty window. *)
Lemma backas_analysis_conditions rotra rodat acstr sec corrcoefs ind station
      res :
  backas_analysis xcorr rotate_ne_rt rotra rodat acstr sec corrcoefs ind station
    = Ok res ->
  exists trN : Trace,
    Py.index (select acstr (snd (station_components station))) 0 = Ok trN /\
    ((0 < Py.len corrcoefs)%Z ->
     exists trE : Trace,
       Py.index (select acstr (fst (station_components station))) 0 = Ok trE /\
       Py.len (slice_to (data trN) ind) = Py.len (slice_to (data trE) ind) /\
       forall (ba : Q) (i7 : Z),
         In ba backas_grid -> (0 <= i7 < Py.len corrcoefs)%Z ->
         Py.slice rodat (Py.int (sampling_rate rotra) * sec * i7)
                        (Py.int (sampling_rate rotra) * sec * (i7 + 1)) <> [] /\
         Py.slice (snd (rotate_ne_rt (slice_to (data trN) ind)
                                     (slice_to (data trE) ind) ba))
                  (Py.int (sampling_rate trN) * sec * i7)
                  (Py.int (sampling_rate trN) * sec * (i7 + 1)) <> []).
Proof.
  intros Hret. unfold backas_analysis in Hret.
  destruct (Py.index (select acstr (snd (station_components station))) 0)
    as [trN |] eqn:HN; cbn [bind] in Hret; [| discriminate].
  exists trN. split; [reflexivity |].
  intros Hn.
  set (pairs := flat_map (fun ba => map (fun i7 => (ba, i7))
                                        (Py.range 0 (Py.len corrcoefs)))
                         backas_grid) in *.
  destruct (mapM _ pairs) as [flat |] eqn:Em; [| discriminate Hret].
  clear Hret.
  pose proof (mapM_ok_each _ _ _ Em) as Heach.
  assert (Hin : forall ba i7, In ba backas_grid ->
                  (0 <= i7 < Py.len corrcoefs)%Z -> In (ba, i7) pairs).
  { intros ba i7 Hba Hi. apply in_pairs. split; [exact Hba |].
    now apply range_In. }
  assert (H0 : In (inject_Z (10 * Z.of_nat 0)) backas_grid).
  { apply nth_error_In with 0%nat.
    exact (backas_grid_nth_error 0 ltac:(lia)). }
  destruct (Heach _ (Hin _ 0%Z H0 ltac:(lia))) as [c0 Hc0].
  cbn [fst snd] in Hc0.
  assert (HEx : exists trE : Trace,
             Py.index (select acstr (fst (station_components station))) 0
             = Ok trE).
  { destruct (Py.index (select acstr (fst (station_components station))) 0)
      as [trE |] eqn:HE; [now exists trE | discriminate Hc0]. }
  destruct HEx as [trE HE].
  exists trE. split; [exact HE |].
  destruct (backas_analysis_entry rotra rodat acstr sec ind station
              trN trE _ 0%Z c0 HE Hc0) as (_ & Hlen & _).
  split; [exact Hlen |].
  intros ba i7 Hba Hi.
  destruct (Heach _ (Hin ba i7 Hba Hi)) as [c Hc].
  cbn [fst snd] in Hc.
  destruct (backas_analysis_entry rotra rodat acstr sec ind station
              trN trE ba i7 c HE Hc) as (_ & _ & Hne1 & Hne2).
  split; assumption.
Qed.

Lemma index_range_map {B : Type} (G : Z -> B) (n l : Z) :
  (0 <= l < n)%Z -> Py.index (map G (Py.range 0 n)) l = Ok (G l).
Proof.
  intros Hl.
  replace l with (Z.of_nat (Z.to_nat l)) at 1 by lia.
  rewrite index_of_nat, nth_error_map, range_nth_error by lia.
  cbn [option_map]. do 2 f_equal. lia.
Qed.

Lemma column_of_table {A : Type} (F : A -> Z -> option Q) (n : Z) (grid : list A)
      (l : Z) :
  (0 <= l < n)%Z ->
  column (map (fun ba => map (F ba) (Py.range 0 n)) grid) l
    = Ok (map (fun ba => F ba l) grid).
Proof.
  intros Hl. unfold column.
  induction grid as [| ba tl IH]; [reflexivity |].
  cbn [map mapM]. rewrite index_range_map by exact Hl. cbn [bind].
  now rewrite IH.
Qed.

Lemma all_some_map_Some (xs : list Q) : Np.all_some (map Some xs) = Some xs.
Proof.
  induction xs as [| x tl IH]; [reflexivity |]. simpl. now rewrite IH.
Qed.

Lemma first_nan_map_Some (xs : list Q) (i : nat) :
  Np2.first_nan (map Some xs) i = None.
Proof.
  revert i. induction xs as [| x tl IH]; intros i; [reflexivity |].
  simpl. apply IH.
Qed.

(** [np.argmax] over a column of coefficients: the first [nan], or else the
    first of the greatest coefficients. *)
Lemma argmax_nan_spec (col : list (option Q)) :
  col <> [] ->
  exists i : nat,
    Np2.argmax col = Ok (Z.of_nat i) /\ (i < List.length col)%nat /\
    (nth_error col i = Some None \/
     exists xs m, col = map Some xs /\ nth_error xs i = Some m /\
                  forall y, In y xs -> (y <= m)%Q).
Proof.
  intros Hne. unfold Np2.argmax.
  pose proof (first_nan_spec col 0) as Hf.
  destruct (Np2.first_nan col 0) as [j |].
  - destruct Hf as [Hj Hn]. rewrite Nat.sub_0_r in Hn.
    destruct col; [congruence |].
    exists j. split; [reflexivity |]. split; [lia | now left].
  - destruct Hf as (xs & -> & Hcol).
    destruct (Np.argmax xs) as [i |] eqn:Ei.
    + destruct (argmax_spec _ _ Ei) as (k & m & -> & Hk & Hnth & Hub & _).
      exists k. split; [reflexivity |].
      rewrite Hcol, length_map. split; [exact Hk |].
      right. exists xs, m. repeat split; assumption.
    + destruct xs; [simpl in Hcol; congruence | discriminate].
Qed.

Lemma np_max_spec (col : list (option Q)) :
  col <> [] ->
  exists v, Np.max col = Ok v /\
    (In None col -> v = Np.NaN) /\
    (forall xs, col = map Some xs ->
       exists m, v = Np.Fin m /\ In m xs /\ forall y, In y xs -> (y <= m)%Q).
Proof.
  intros Hne. unfold Np.max.
  destruct col as [| c tl] eqn:Ecol; [congruence |]. rewrite <- Ecol in *.
  destruct (Np.all_some col) as [xs |] eqn:Ea.
  - assert (Hcol : col = map Some xs).
    { clear Ecol Hne. revert xs Ea.
      induction col as [| c' tl' IH]; intros xs Ea; simpl in Ea.
      - now injection Ea as <-.
      - destruct c' as [q |]; [| discriminate].
        destruct (Np.all_some tl') as [xs' |]; [| discriminate].
        injection Ea as <-. simpl. f_equal. now apply IH. }
    destruct (max_total xs) as [m Hm].
    { intros ->. rewrite Hcol in Ecol. discriminate. }
    rewrite Hm. cbn [bind]. exists (Np.Fin m). split; [reflexivity |].
    destruct (max_spec _ _ Hm) as [Hin Hub].
    split.
    + intros Hnone. rewrite Hcol in Hnone. apply in_map_iff in Hnone.
      destruct Hnone as (x & Hx & _). discriminate.
    + intros xs' E. rewrite Hcol in E.
      assert (xs = xs').
      { clear -E. revert xs' E. induction xs as [| x tl IH]; intros [| y tl'] E;
          try discriminate; [reflexivity |].
        simpl in E. injection E as -> E. f_equal. now apply IH. }
      subst xs'. exists m. repeat split; assumption.
  - exists Np.NaN. split; [reflexivity |]. split; [reflexivity |].
    intros xs E. rewrite E, all_some_map_Some in Ea. discriminate.
Qed.

(** What [backas_analysis] returns when the stream has its north and east
    components: the table, and for each window the candidate that
    [np.argmax] picks and the value of [np.max]. *)
Lemma backas_analysis_returns rotra rodat acstr sec corrcoefs ind station
      (trN trE : Trace) res :
  Py.index (select acstr (snd (station_components station))) 0 = Ok trN ->
  Py.index (select acstr (fst (station_components station))) 0 = Ok trE ->
  backas_analysis xcorr rotate_ne_rt rotra rodat acstr sec corrcoefs ind station
    = Ok res ->
  let entry := corrbaz_entry xcorr rotate_ne_rt rotra rodat trN trE sec ind in
  exists maxcorr coefs,
    backas_analysis xcorr rotate_ne_rt rotra rodat acstr sec corrcoefs ind station
      = Ok (map (fun ba => map (entry ba) (Py.range 0 (Py.len corrcoefs)))
                backas_grid,
            maxcorr, backas_grid, coefs) /\
    Forall2 (fun l a =>
               exists i : nat,
                 (i < 36)%nat /\ a = inject_Z (10 * Z.of_nat i) /\
                 Np2.argmax (map (fun ba => entry ba l) backas_grid)
                   = Ok (Z.of_nat i))
            (Py.range 0 (Py.len corrcoefs)) maxcorr /\
    Forall2 (fun l v => Np.max (map (fun ba => entry ba l) backas_grid) = Ok v)
            (Py.range 0 (Py.len corrcoefs)) coefs.
Proof.
  intros HN HE Hret entry.
  rewrite (backas_analysis_table _ _ _ _ _ _ _ _ _ _ HN HE Hret). cbv zeta.
  fold entry.
  set (n := Py.len corrcoefs).
  set (table := map (fun ba => map (entry ba) (Py.range 0 n)) backas_grid).
  assert (Hcolne : forall l, map (fun ba => entry ba l) backas_grid <> []).
  { intros l E. apply (f_equal (@List.length (option Q))) in E.
    rewrite length_map in E. discriminate. }
  destruct (mapM_total
              (fun l1 => col <- column table l1 ;; i <- Np2.argmax col ;;
                         Py.index backas_grid i)
              (Py.range 0 n)) as [maxcorr Hmax].
  { intros l Hl. apply range_In in Hl.
    unfold table. rewrite (column_of_table entry n backas_grid l Hl).
    cbn [bind].
    destruct (argmax_nan_spec _ (Hcolne l)) as (i & -> & Hi & _).
    cbn [bind]. rewrite length_map, backas_grid_length in Hi.
    rewrite index_of_nat, backas_grid_nth_error by exact Hi. eauto. }
  destruct (mapM_total
              (fun m1 => col <- column table m1 ;; Np.max col)
              (Py.range 0 n)) as [coefs Hcoefs].
  { intros l Hl. apply range_In in Hl.
    unfold table. rewrite (column_of_table entry n backas_grid l Hl).
    cbn [bind].
    destruct (np_max_spec _ (Hcolne l)) as (v & -> & _). eauto. }
  rewrite Hmax. cbn [bind]. rewrite Hcoefs. cbn [bind].
  exists maxcorr, coefs. split; [reflexivity |].
  split.
  - apply mapM_Forall2 in Hmax.
    apply (Forall2_impl_In _ _ _ _ Hmax).
    intros l a Hl Hla. apply range_In in Hl.
    unfold table in Hla.
    rewrite (column_of_table entry n backas_grid l Hl) in Hla.
    cbn [bind] in Hla.
    destruct (argmax_nan_spec _ (Hcolne l)) as (i & Hi & Hlt & _).
    rewrite Hi in Hla. cbn [bind] in Hla.
    rewrite length_map, backas_grid_length in Hlt.
    rewrite index_of_nat, backas_grid_nth_error in Hla by exact Hlt.
    injection Hla as <-. exists i. repeat split; assumption.
  - apply mapM_Forall2 in Hcoefs.
    apply (Forall2_impl_In _ _ _ _ Hcoefs).
    intros l v Hl Hlv. apply range_In in Hl.
    unfold table in Hlv.
    rewrite (column_of_table entry n backas_grid l Hl) in Hlv.
    exact Hlv.
Qed.

(** X20: without a north component in the stream [backas_analysis] raises
    [IndexError].  Whenever it returns, the candidate backazimuths are 0,
    10, ..., 350 degrees, the table has 36 rows, one per candidate, each
    with one coefficient per window, and there is one best backazimuth and
    one best coefficient per window, a best backazimuth being one of the 36
    candidates; moreover the stream then has a north component and, when
    there is a window at all, an east component whose data are as long as
    the north component's, and no window of the rotation rate or of the
    rotated transverse acceleration that the scan correlates is empty. *)
Theorem backas_analysis_shape :
  forall rotra rodat acstr sec (corrcoefs : list (option Q)) ind station,
    (select acstr (snd (station_components station)) = [] ->
     backas_analysis xcorr rotate_ne_rt rotra rodat acstr sec corrcoefs ind
                     station = Raise IndexError) /\
    (forall corrbaz maxcorr backas coefs,
       backas_analysis xcorr rotate_ne_rt rotra rodat acstr sec corrcoefs ind
                       station
         = Ok (corrbaz, maxcorr, backas, coefs) ->
       backas = backas_grid /\
       List.length corrbaz = 36%nat /\
       (forall row, In row corrbaz ->
                    List.length row = List.length corrcoefs) /\
       List.length maxcorr = List.length corrcoefs /\
       List.length coefs = List.length corrcoefs /\
       (forall a, In a maxcorr ->
          exists k : Z, (0 <= k < 36)%Z /\ a = inject_Z (10 * k)) /\
       exists trN : Trace,
         Py.index (select acstr (snd (station_components station))) 0
           = Ok trN /\
         ((0 < Py.len corrcoefs)%Z ->
          exists trE : Trace,
            Py.index (select acstr (fst (station_components station))) 0
              = Ok trE /\
            Py.len (slice_to (data trN) ind)
              = Py.len (slice_to (data trE) ind) /\
            forall (ba : Q) (i7 : Z),
              In ba backas_grid -> (0 <= i7 < Py.len corrcoefs)%Z ->
              Py.slice rodat (Py.int (sampling_rate rotra) * sec * i7)
                             (Py.int (sampling_rate rotra) * sec * (i7 + 1))
                <> [] /\
              Py.slice (snd (rotate_ne_rt (slice_to (data trN) ind)
                                          (slice_to (data trE) ind) ba))
                       (Py.int (sampling_rate trN) * sec * i7)
                       (Py.int (sampling_rate trN) * sec * (i7 + 1))
                <> [])).
Proof.
  intros rotra rodat acstr sec corrcoefs ind station. split.
  { intros E. unfold backas_analysis. now rewrite E. }
  intros corrbaz maxcorr backas coefs H.
  pose proof (backas_analysis_conditions _ _ _ _ _ _ _ _ H) as Hcond.
  assert (Hshape :
            backas = backas_grid /\
            List.length corrbaz = 36%nat /\
            (forall row, In row corrbaz ->
                         List.length row = List.length corrcoefs) /\
            List.length maxcorr = List.length corrcoefs /\
            List.length coefs = List.length corrcoefs /\
            (forall a, In a maxcorr ->
               exists k : Z, (0 <= k < 36)%Z /\ a = inject_Z (10 * k))).
  { destruct Hcond as (trN & HN & Hcond).
    destruct corrcoefs as [| c0 corrcoefs'].
    - (* no window: nothing is correlated *)
      unfold backas_analysis in H. rewrite HN in H. cbn [bind] in H.
      remember (flat_map _ backas_grid) as pairs eqn:Hp in H.
      assert (Hp' : pairs = []) by (rewrite Hp; reflexivity).
      clear Hp. subst pairs.
      change (Py.range 0 (Py.len (@nil (option Q)))) with (@nil Z) in H.
      cbn [mapM bind] in H.
      assert (Hb : backas = backas_grid) by congruence.
      assert (Hm : maxcorr = []) by congruence.
      assert (Hc : coefs = []) by congruence.
      assert (Hcb : corrbaz
                    = reshape (List.length backas_grid)
                              (List.length (@nil (option Q))) [])
        by congruence.
      subst. repeat split; try reflexivity.
      + intros row Hrow. vm_compute in Hrow.
        repeat (destruct Hrow as [<- | Hrow]; [reflexivity |]).
        contradiction.
      + intros a [].
    - destruct Hcond as (trE & HE & _).
      { unfold Py.len. cbn [List.length]. lia. }
      destruct (backas_analysis_returns rotra rodat acstr sec
                  (c0 :: corrcoefs') ind station trN trE _ HN HE H)
        as (maxcorr' & coefs' & H' & Hmax & Hcoefs).
      cbv zeta in H', Hmax, Hcoefs.
      set (n := c0 :: corrcoefs') in *.
      assert (Hcb : corrbaz
                    = map (fun ba =>
                             map (corrbaz_entry xcorr rotate_ne_rt rotra
                                    rodat trN trE sec ind ba)
                                 (Py.range 0 (Py.len n)))
                          backas_grid) by congruence.
      assert (Hm : maxcorr = maxcorr') by congruence.
      assert (Hb : backas = backas_grid) by congruence.
      assert (Hc : coefs = coefs') by congruence.
      subst corrbaz maxcorr backas coefs. clear H H'.
      assert (Hr : List.length (Py.range 0 (Py.len n)) = List.length n).
      { rewrite range_length. unfold Py.len. lia. }
      split; [reflexivity |].
      split; [now rewrite length_map |].
      split.
      { intros row Hrow. apply in_map_iff in Hrow.
        destruct Hrow as (ba & <- & _). now rewrite length_map. }
      split; [rewrite <- (Forall2_length Hmax); exact Hr |].
      split; [rewrite <- (Forall2_length Hcoefs); exact Hr |].
      intros a Ha. apply In_nth_error in Ha. destruct Ha as [l Hl].
      apply Forall2_flip in Hmax.
      destruct (Forall2_nth_error _ _ _ l a Hmax Hl)
        as (l' & _ & i & Hi & -> & _).
      exists (Z.of_nat i). split; [lia | reflexivity]. }
  destruct Hshape as (H1 & H2 & H3 & H4 & H5 & H6).
  repeat (split; [assumption |]).
  exact Hcond.
Qed.

(** What the best backazimuth and the best coefficient of one window are. *)
Lemma backas_analysis_window rotra rodat acstr sec corrcoefs ind station
      (trN trE : Trace) corrbaz maxcorr backas coefs (l : nat) :
  Py.index (select acstr (snd (station_components station))) 0 = Ok trN ->
  Py.index (select acstr (fst (station_components station))) 0 = Ok trE ->
  backas_analysis xcorr rotate_ne_rt rotra rodat acstr sec corrcoefs ind station
    = Ok (corrbaz, maxcorr, backas, coefs) ->
  (l < List.length corrcoefs)%nat ->
  let entry := corrbaz_entry xcorr rotate_ne_rt rotra rodat trN trE sec ind in
  exists (a : Q) (v : Np.npfloat),
    nth_error maxcorr l = Some a /\ nth_error coefs l = Some v /\
    In a backas_grid /\
    ((exists ba, In ba backas_grid /\ entry ba (Z.of_nat l) = None) ->
     v = Np.NaN /\ entry a (Z.of_nat l) = None) /\
    ((forall ba, In ba backas_grid -> entry ba (Z.of_nat l) <> None) ->
     exists m q : Q,
       v = Np.Fin m /\ entry a (Z.of_nat l) = Some q /\ (q == m)%Q /\
       forall ba x, In ba backas_grid -> entry ba (Z.of_nat l) = Some x ->
                    (x <= m)%Q).
Proof.
  intros HN HE H Hl entry.
  destruct (backas_analysis_returns rotra rodat acstr sec corrcoefs ind station
              trN trE _ HN HE H) as (maxcorr' & coefs' & H' & Hmax & Hcoefs).
  cbv zeta in H', Hmax, Hcoefs. fold entry in H', Hmax, Hcoefs.
  rewrite H in H'. injection H' as -> -> -> ->.
  assert (Hrl : nth_error (Py.range 0 (Py.len corrcoefs)) l
                = Some (Z.of_nat l)).
  { rewrite range_nth_error by (unfold Py.len; lia). f_equal. }
  destruct (Forall2_nth_error _ _ _ l _ Hmax Hrl)
    as (a & Ha & i & Hi & -> & Hamax).
  destruct (Forall2_nth_error _ _ _ l _ Hcoefs Hrl) as (v & Hv & Hnpmax).
  set (col := map (fun ba => entry ba (Z.of_nat l)) backas_grid) in *.
  assert (Hcolne : col <> []).
  { intros E. apply (f_equal (@List.length (option Q))) in E.
    unfold col in E. rewrite length_map in E. discriminate. }
  assert (Hgi : nth_error backas_grid i = Some (inject_Z (10 * Z.of_nat i)))
    by (now apply backas_grid_nth_error).
  assert (Hci : nth_error col i
                = Some (entry (inject_Z (10 * Z.of_nat i)) (Z.of_nat l))).
  { unfold col. now rewrite nth_error_map, Hgi. }
  exists (inject_Z (10 * Z.of_nat i)), v.
  split; [exact Ha |]. split; [exact Hv |].
  split; [now apply nth_error_In with i |].
  destruct (argmax_nan_spec col Hcolne) as (i' & Hi' & _ & Hcase).
  assert (i' = i) by (apply Nat2Z.inj; congruence). subst i'.
  destruct (np_max_spec col Hcolne) as (v' & Hv' & Hnan & Hfin).
  assert (v' = v) by congruence. subst v'.
  split.
  - intros (ba & Hba & Hnone).
    assert (Hin : In None col).
    { unfold col. apply in_map_iff. exists ba. split; assumption. }
    split; [now apply Hnan |].
    destruct Hcase as [Hc | (xs & m & Hxs & _)].
    + congruence.
    + rewrite Hxs in Hin. apply in_map_iff in Hin.
      destruct Hin as (x & Hx & _). discriminate.
  - intros Hall.
    destruct Hcase as [Hc | (xs & m & Hxs & Hnth & Hub)].
    + exfalso. rewrite Hci in Hc. injection Hc as Hc.
      apply (Hall (inject_Z (10 * Z.of_nat i))); [| exact Hc].
      now apply nth_error_In with i.
    + destruct (Hfin xs Hxs) as (m' & -> & Hin' & Hub').
      assert (Hq : nth_error col i = Some (Some m)).
      { rewrite Hxs, nth_error_map, Hnth. reflexivity. }
      exists m', m. split; [reflexivity |].
      split; [congruence |].
      split.
      * apply Qle_antisym; [apply Hub'; now apply nth_error_In with i |].
        now apply Hub.
      * intros ba x Hba Hx. apply Hub'.
        assert (Hin : In (Some x) col).
        { unfold col. apply in_map_iff. exists ba. split; assumption. }
        rewrite Hxs in Hin. apply in_map_iff in Hin.
        destruct Hin as (y & Hy & Hyin). congruence.
Qed.

(** X21: for each window, the best backazimuth of [backas_analysis] is a
    candidate whose coefficient equals the best coefficient returned, and no
    candidate has a greater one; when the coefficient of some candidate is
    [nan], the best coefficient is [nan] and the best backazimuth is a
    candidate whose coefficient is [nan]. *)
Theorem backas_analysis_best :
  forall rotra rodat acstr sec corrcoefs ind station (trN trE : Trace)
         corrbaz maxcorr backas coefs (l : nat),
    Py.index (select acstr (snd (station_components station))) 0 = Ok trN ->
    Py.index (select acstr (fst (station_components station))) 0 = Ok trE ->
    backas_analysis xcorr rotate_ne_rt rotra rodat acstr sec corrcoefs ind
                    station = Ok (corrbaz, maxcorr, backas, coefs) ->
    (l < List.length corrcoefs)%nat ->
    let entry := corrbaz_entry xcorr rotate_ne_rt rotra rodat trN trE sec ind in
    exists (a : Q) (v : Np.npfloat),
      nth_error maxcorr l = Some a /\ nth_error coefs l = Some v /\
      In a backas_grid /\
      ((exists ba, In ba backas_grid /\ entry ba (Z.of_nat l) = None) ->
       v = Np.NaN /\ entry a (Z.of_nat l) = None) /\
      ((forall ba, In ba backas_grid -> entry ba (Z.of_nat l) <> None) ->
       exists m q : Q,
         v = Np.Fin m /\ entry a (Z.of_nat l) = Some q /\ (q == m)%Q /\
         forall ba x, In ba backas_grid -> entry ba (Z.of_nat l) = Some x ->
                      (x <= m)%Q).
Proof. exact backas_analysis_window. Qed.

(** X22: when the backazimuth used for the rotation is one of the
    candidates [10 * k] and the whole traces are scanned, row [k] of the
    table of [backas_analysis] is the series of coefficients of
    [Get_corrcoefs], and the best coefficient of a window is not below the
    coefficient of that window in the series. *)
Theorem backas_analysis_row_is_corrcoefs :
  forall rotra rodat acstr sec station (trN trE : Trace) (k : nat)
         corrcoefs thres corrbaz maxcorr backas coefs,
    Py.index (select acstr (snd (station_components station))) 0 = Ok trN ->
    Py.index (select acstr (fst (station_components station))) 0 = Ok trE ->
    (k < 36)%nat ->
    Get_corrcoefs xcorr rotra rodat acstr
      (snd (rotate_ne_rt (data trN) (data trE) (inject_Z (10 * Z.of_nat k))))
      sec station = Ok (corrcoefs, thres) ->
    backas_analysis xcorr rotate_ne_rt rotra rodat acstr sec corrcoefs None
                    station = Ok (corrbaz, maxcorr, backas, coefs) ->
    nth_error corrbaz k = Some corrcoefs /\
    forall (l : nat) (c m : Q),
      nth_error corrcoefs l = Some (Some c) ->
      nth_error coefs l = Some (Np.Fin m) ->
      (c <= m)%Q.
Proof.
  intros rotra rodat acstr sec station trN trE k corrcoefs thres
         corrbaz maxcorr backas coefs HN HE Hk HG HB.
  set (entry := corrbaz_entry xcorr rotate_ne_rt rotra rodat trN trE sec None).
  assert (Hcc : corrcoefs
                = map (entry (inject_Z (10 * Z.of_nat k)))
                      (Py.range 0 (Py.len corrcoefs))).
  { unfold Get_corrcoefs in HG. rewrite HN in HG. cbn [bind] in HG.
    destruct (Py.floordiv _ _) as [n |] eqn:En; cbn [bind] in HG;
      [| discriminate].
    destruct (mapM _ (Py.range 0 n)) as [cc |] eqn:Em; cbn [bind] in HG;
      [| discriminate].
    assert (HG' : cc = corrcoefs) by congruence. clear HG. subst cc.
    apply (mapM_ok_pure _ (entry (inject_Z (10 * Z.of_nat k)))) in Em.
    2:{ intros i c _ Hc.
        now destruct (xcorr_checked_ok _ _ _ _ Hc) as [-> _]. }
    assert (Hr : Py.range 0 (Py.len corrcoefs) = Py.range 0 n).
    { unfold Py.range. do 2 f_equal.
      rewrite Em. unfold Py.len. rewrite length_map, range_length. lia. }
    rewrite Hr. exact Em. }
  destruct (backas_analysis_returns rotra rodat acstr sec corrcoefs None station
              trN trE _ HN HE HB) as (maxcorr' & coefs' & H' & _).
  cbv zeta in H'. fold entry in H'.
  assert (Hcb : corrbaz
                = map (fun ba => map (entry ba) (Py.range 0 (Py.len corrcoefs)))
                      backas_grid) by congruence.
  clear H'.
  split.
  - rewrite Hcb, nth_error_map, backas_grid_nth_error by exact Hk.
    cbn [option_map]. now rewrite <- Hcc.
  - intros l c m Hc Hm.
    assert (Hl : (l < List.length corrcoefs)%nat).
    { apply nth_error_Some. congruence. }
    destruct (backas_analysis_window rotra rodat acstr sec corrcoefs None
                station trN trE corrbaz maxcorr backas coefs l HN HE HB Hl)
      as (a & v & _ & Hv & _ & Hnan & Hfin).
    cbv zeta in Hnan, Hfin. fold entry in Hnan, Hfin.
    assert (v = Np.Fin m) by congruence. subst v.
    assert (Hentry : entry (inject_Z (10 * Z.of_nat k)) (Z.of_nat l) = Some c).
    { rewrite Hcc in Hc.
      rewrite nth_error_map, range_nth_error in Hc
        by (unfold Py.len; lia).
      cbn [option_map] in Hc. now injection Hc. }
    assert (Hgrid : In (inject_Z (10 * Z.of_nat k)) backas_grid).
    { apply nth_error_In with k. now apply backas_grid_nth_error. }
    assert (Hno : forall ba, In ba backas_grid ->
                             entry ba (Z.of_nat l) <> None).
    { intros ba Hba Hnone.
      destruct (Hnan (ex_intro _ ba (conj Hba Hnone))) as [Hv' _].
      discriminate. }
    destruct (Hfin Hno) as (m' & q & Hm' & _ & _ & Hub).
    injection Hm' as <-.
    now apply (Hub (inject_Z (10 * Z.of_nat k)) c).
Qed.

(** X23: on the table and the best backazimuths that [backas_analysis]
    returns, the selection [maxcorrp_over50] of [plotWaveformComp] never
    fails and has one entry per window: the best backazimuth of the window
    when its best coefficient is at least 0.5, and 0 when that coefficient
    is below 0.5 or [nan]. *)
Theorem maxcorrp_over50_of_scan :
  forall rotra rodat acstr sec corrcoefs ind station (trN trE : Trace)
         corrbazp maxcorrp backas coefs,
    Py.index (select acstr (snd (station_components station))) 0 = Ok trN ->
    Py.index (select acstr (fst (station_components station))) 0 = Ok trE ->
    backas_analysis xcorr rotate_ne_rt rotra rodat acstr sec corrcoefs ind
                    station = Ok (corrbazp, maxcorrp, backas, coefs) ->
    exists out,
      maxcorrp_over50 corrbazp maxcorrp = Ok out /\
      List.length out = List.length corrcoefs /\
      forall (l : nat) (a : Q) (v : Np.npfloat),
        nth_error maxcorrp l = Some a -> nth_error coefs l = Some v ->
        (v = Np.NaN -> nth_error out l = Some 0%Q) /\
        (forall m, v = Np.Fin m -> (m < 1 # 2)%Q -> nth_error out l = Some 0%Q) /\
        (forall m, v = Np.Fin m -> (1 # 2 <= m)%Q -> nth_error out l = Some a).
Proof.
  intros rotra rodat acstr sec corrcoefs ind station trN trE
         corrbazp maxcorrp backas coefs HN HE HB.
  set (entry := corrbaz_entry xcorr rotate_ne_rt rotra rodat trN trE sec ind).
  destruct (backas_analysis_returns rotra rodat acstr sec corrcoefs ind station
              trN trE _ HN HE HB) as (maxcorr' & coefs' & H' & Hmax & Hcoefs).
  cbv zeta in H', Hmax, Hcoefs. fold entry in H', Hmax, Hcoefs.
  set (n := Py.len corrcoefs) in *.
  assert (Hcb : corrbazp
                = map (fun ba => map (entry ba) (Py.range 0 n)) backas_grid)
    by congruence.
  assert (maxcorr' = maxcorrp) by congruence.
  assert (coefs' = coefs) by congruence.
  subst maxcorr' coefs'. clear H'.
  assert (Hn : List.length (Py.range 0 n) = List.length corrcoefs).
  { rewrite range_length. unfold n, Py.len. lia. }
  assert (Hlen : List.length maxcorrp = List.length corrcoefs).
  { rewrite <- (Forall2_length Hmax). exact Hn. }
  assert (Hlenz : Py.len maxcorrp = n).
  { unfold n, Py.len. now rewrite Hlen. }
  assert (Hcolne : forall l, map (fun ba => entry ba l) backas_grid <> []).
  { intros l E. apply (f_equal (@List.length (option Q))) in E.
    rewrite length_map in E. discriminate. }
  unfold maxcorrp_over50. rewrite Hlenz, Hcb.
  match goal with
  | |- exists out, mapM ?f _ = _ /\ _ => set (F := f)
  end.
  destruct (mapM_total F (Py.range 0 n)) as [out Hout].
  { intros l Hl. apply range_In in Hl. unfold F.
    rewrite (column_of_table entry n backas_grid l Hl). cbn [bind].
    destruct (np_max_spec _ (Hcolne l)) as (v & -> & _). cbn [bind].
    assert (Hidx : Py.index maxcorrp l
                   = match nth_error maxcorrp (Z.to_nat l) with
                     | Some x => Ok x
                     | None => Raise IndexError
                     end).
    { rewrite <- index_of_nat. f_equal. lia. }
    rewrite Hidx.
    destruct (nth_error maxcorrp (Z.to_nat l)) as [a |] eqn:Ea.
    - destruct v as [q | | |]; try destruct (Qle_bool (1 # 2) q); eauto.
    - apply nth_error_None in Ea. unfold n, Py.len in Hl. lia. }
  exists out. split; [exact Hout |].
  apply mapM_Forall2 in Hout.
  split; [rewrite <- (Forall2_length Hout); exact Hn |].
  intros l a v Ha Hv.
  assert (Hl : (l < List.length corrcoefs)%nat).
  { rewrite <- Hlen. apply nth_error_Some. congruence. }
  assert (Hrl : nth_error (Py.range 0 n) l = Some (Z.of_nat l)).
  { rewrite range_nth_error by (unfold n, Py.len; lia). f_equal. }
  destruct (Forall2_nth_error _ _ _ l _ Hout Hrl) as (o & Ho & Hf).
  destruct (Forall2_nth_error _ _ _ l _ Hcoefs Hrl) as (v' & Hv' & Hnp).
  assert (v' = v) by congruence. subst v'.
  unfold F in Hf.
  rewrite (column_of_table entry n backas_grid (Z.of_nat l)) in Hf
    by (unfold n, Py.len; lia).
  cbn [bind] in Hf. rewrite Hnp in Hf. cbn [bind] in Hf.
  rewrite index_of_nat, Ha in Hf.
  split; [| split].
  - intros ->. congruence.
  - intros m -> Hm.
    destruct (Qle_bool (1 # 2) m) eqn:Eb; [| congruence].
    apply Qle_bool_iff in Eb. exfalso. apply (Qlt_not_le _ _ Hm Eb).
  - intros m -> Hm. apply Qle_bool_iff in Hm. rewrite Hm in Hf. congruence.
Qed.

End ScanProps.

(** ** The event file *)

Lemma getitem_setitem_same (d : OrderedDict) (k : string) (v : json) :
  getitem (setitem d k v) k = Some v.
Proof.
  induction d as [| [k' v'] tl IH]; simpl.
  - now rewrite String.eqb_refl.
  - destruct (String.eqb k' k) eqn:E; simpl; rewrite E; [reflexivity | exact IH].
Qed.

Lemma getitem_setitem_other (d : OrderedDict) (k k' : string) (v : json) :
  k' <> k -> getitem (setitem d k v) k' = getitem d k'.
Proof.
  intros Hne. induction d as [| [k0 v0] tl IH]; simpl.
  - destruct (String.eqb_spec k k'); [congruence | reflexivity].
  - destruct (String.eqb_spec k0 k) as [-> | Hk]; simpl.
    + destruct (String.eqb_spec k k'); [congruence | reflexivity].
    + destruct (String.eqb k0 k'); [reflexivity | exact IH].
Qed.

Lemma setitem_keys (d : OrderedDict) (k : string) (v : json) :
  (In k (map fst d) -> map fst (setitem d k v) = map fst d) /\
  (~ In k (map fst d) -> map fst (setitem d k v) = (map fst d ++ [k])%list).
Proof.
  induction d as [| [k0 v0] tl [IH1 IH2]]; simpl.
  - split; [contradiction | reflexivity].
  - destruct (String.eqb_spec k0 k) as [-> | Hk]; simpl.
    + split; [reflexivity | intros H; elim H; now left].
    + split.
      * intros [E | Hin]; [congruence |]. now rewrite IH1.
      * intros Hnot. rewrite IH2; [reflexivity |]. intros Hin. apply Hnot. now right.
Qed.

Lemma station_key_injective (a b : string) :
  "station_information_" ++ a = "station_information_" ++ b -> a = b.
Proof. simpl. intros H. now injection H. Qed.

Ltac bind_ok H :=
  repeat match type of H with
  | bind ?c _ = Ok _ =>
      let E := fresh "E" in
      destruct c eqn:E; cbn [bind] in H; [| discriminate H]
  end.

Section EventFileProps.

Variable str : Q -> string.
Variable coordinates : Trace -> Q * Q.

(** What a call of [store_info_json] that returns has written. *)
Lemma store_info_json_written rotate ac rt corrcoefs baz arriv_p EBA
      folder_name tag_name station phasv_means phasv_stds startev event
      net_r net_s chan1 chan2 chan3 chan4 sta_r sta_s srcRT srcTR loc_r loc_s
      event_source depth gcdist max_ebaz_xcoef (files files' : Files) :
  store_info_json str coordinates rotate ac rt corrcoefs baz arriv_p EBA
    folder_name tag_name station phasv_means phasv_stds startev event
    net_r net_s chan1 chan2 chan3 chan4 sta_r sta_s srcRT srcTR loc_r loc_s
    event_source depth gcdist max_ebaz_xcoef files = Ok files' ->
  exists (dic_event info rp : OrderedDict) (PCC : option Q),
    files' = (fun f =>
                if String.eqb f (folder_name ++ tag_name ++ ".json")
                then Some (setitem
                             match files (folder_name ++ tag_name ++ ".json")
                             with
                             | Some loaded => loaded
                             | None => dic_event
                             end
                             ("station_information_" ++ station) (JObj info))
                else files f) /\
    map fst dic_event
      = ["event_id"; "event_source"; "event_latitude"; "event_longitude";
         "origin_time"; "trace_start"; "trace_end"; "magnitude";
         "magnitude_type"; "depth"; "depth_unit"] /\
    getitem dic_event "event_id" = Some (JStr (resource_id event)) /\
    getitem info "rotational_parameters" = Some (JObj rp) /\
    max_nan corrcoefs = Ok PCC /\
    getitem rp "epicentral_distance"
      = Some (JNum (Np.Fin ((1 # 1000) * baz0 baz))) /\
    getitem rp "theoretical_backazimuth" = Some (JNum (Np.Fin (snd baz))) /\
    getitem rp "peak_correlation_coefficient" = Some (JNum (of_coef PCC)).
Proof.
  intros H. unfold store_info_json in H. cbv zeta in H.
  bind_ok H.
  injection H as <-.
  do 4 eexists.
  split; [reflexivity |].
  repeat split; reflexivity.
Qed.

(** X24: a call of [store_info_json] that returns leaves every other file
    as it is and writes the file of the event.  When the file exists, only
    the entry of the station changes: every other key of the file, the
    event information included, keeps its value and its place, and what the
    call was given about the event is not written.  When the file does not
    exist, it holds the eleven keys of the event followed by the entry of
    the station. *)
Theorem store_info_json_keeps_the_file :
  forall rotate ac rt corrcoefs baz arriv_p EBA
         folder_name tag_name station phasv_means phasv_stds startev event
         net_r net_s chan1 chan2 chan3 chan4 sta_r sta_s srcRT srcTR
         loc_r loc_s event_source depth gcdist max_ebaz_xcoef
         (files files' : Files),
    store_info_json str coordinates rotate ac rt corrcoefs baz arriv_p EBA
      folder_name tag_name station phasv_means phasv_stds startev event
      net_r net_s chan1 chan2 chan3 chan4 sta_r sta_s srcRT srcTR loc_r loc_s
      event_source depth gcdist max_ebaz_xcoef files = Ok files' ->
    let f := folder_name ++ tag_name ++ ".json" in
    let key := "station_information_" ++ station in
    (forall g, g <> f -> files' g = files g) /\
    exists (d info : OrderedDict),
      files' f = Some d /\ getitem d key = Some (JObj info) /\
      (forall loaded, files f = Some loaded ->
         (forall k, k <> key -> getitem d k = getitem loaded k) /\
         (In key (map fst loaded) -> map fst d = map fst loaded) /\
         (~ In key (map fst loaded) ->
          map fst d = (map fst loaded ++ [key])%list)) /\
      (files f = None ->
         map fst d
           = ["event_id"; "event_source"; "event_latitude"; "event_longitude";
              "origin_time"; "trace_start"; "trace_end"; "magnitude";
              "magnitude_type"; "depth"; "depth_unit"; key] /\
         getitem d "event_id" = Some (JStr (resource_id event))).
Proof.
  intros rotate ac rt corrcoefs baz arriv_p EBA
         folder_name tag_name station phasv_means phasv_stds startev event
         net_r net_s chan1 chan2 chan3 chan4 sta_r sta_s srcRT srcTR
         loc_r loc_s event_source depth gcdist max_ebaz_xcoef
         files files' H f key.
  destruct (store_info_json_written _ _ _ _ _ _ _ _ _ _ _ _ _ _ _ _ _ _ _ _
              _ _ _ _ _ _ _ _ _ _ _ _ H)
    as (dic_event & info & rp & PCC & -> & Hkeys & Hid & _).
  fold f. fold key.
  split.
  { intros g Hg. destruct (String.eqb_spec g f); [contradiction | reflexivity]. }
  rewrite String.eqb_refl.
  eexists. exists info. split; [reflexivity |].
  split; [apply getitem_setitem_same |].
  split.
  - intros loaded ->. split; [| apply setitem_keys].
    intros k Hk. now apply getitem_setitem_other.
  - intros ->.
    assert (Hnot : ~ In key (map fst dic_event)).
    { rewrite Hkeys. unfold key. simpl.
      intros [E | [E | [E | [E | [E | [E | [E | [E | [E | [E | [E | []]]]]]]]]]]];
        discriminate E. }
    split.
    + rewrite (proj2 (setitem_keys dic_event key (JObj info)) Hnot), Hkeys.
      reflexivity.
    + rewrite getitem_setitem_other; [exact Hid |].
      unfold key. simpl. discriminate.
Qed.

(** X25: what [store_info_json] writes for a station is what
    [store_info_xml] reads back for it: after a call that returns, the three
    lookups succeed and give the distance in km, [0.001 * baz[0]], the
    theoretical backazimuth [baz[2]] and the peak coefficient
    [max(corrcoefs)]. *)
Theorem store_info_xml_reads_what_was_stored :
  forall rotate ac rt corrcoefs baz arriv_p EBA
         folder_name tag_name station phasv_means phasv_stds startev event
         net_r net_s chan1 chan2 chan3 chan4 sta_r sta_s srcRT srcTR
         loc_r loc_s event_source depth gcdist max_ebaz_xcoef
         (files files' : Files),
    store_info_json str coordinates rotate ac rt corrcoefs baz arriv_p EBA
      folder_name tag_name station phasv_means phasv_stds startev event
      net_r net_s chan1 chan2 chan3 chan4 sta_r sta_s srcRT srcTR loc_r loc_s
      event_source depth gcdist max_ebaz_xcoef files = Ok files' ->
    exists PCC : option Q,
      max_nan corrcoefs = Ok PCC /\
      store_info_xml_params folder_name tag_name station files'
        = Some [("epicentral_distance", JNum (Np.Fin ((1 # 1000) * baz0 baz)));
                ("theoretical_backazimuth", JNum (Np.Fin (snd baz)));
                ("peak_correlation_coefficient", JNum (of_coef PCC))].
Proof.
  intros rotate ac rt corrcoefs baz arriv_p EBA
         folder_name tag_name station phasv_means phasv_stds startev event
         net_r net_s chan1 chan2 chan3 chan4 sta_r sta_s srcRT srcTR
         loc_r loc_s event_source depth gcdist max_ebaz_xcoef
         files files' H.
  destruct (store_info_json_written _ _ _ _ _ _ _ _ _ _ _ _ _ _ _ _ _ _ _ _
              _ _ _ _ _ _ _ _ _ _ _ _ H)
    as (dic_event & info & rp & PCC & -> & _ & _ & Hrp & HPCC & Hd & Ht & Hp).
  exists PCC. split; [exact HPCC |].
  unfold store_info_xml_params. rewrite String.eqb_refl.
  unfold read_params, RP_value.
  rewrite getitem_setitem_same, Hrp, Hd, Ht, Hp. reflexivity.
Qed.

(** X26: a call of [store_info_json] for one station leaves what
    [store_info_xml] reads for every other station as it is. *)
Theorem store_info_json_other_stations :
  forall rotate ac rt corrcoefs baz arriv_p EBA
         folder_name tag_name station phasv_means phasv_stds startev event
         net_r net_s chan1 chan2 chan3 chan4 sta_r sta_s srcRT srcTR
         loc_r loc_s event_source depth gcdist max_ebaz_xcoef
         (files files' : Files) (loaded : OrderedDict) (other : string),
    store_info_json str coordinates rotate ac rt corrcoefs baz arriv_p EBA
      folder_name tag_name station phasv_means phasv_stds startev event
      net_r net_s chan1 chan2 chan3 chan4 sta_r sta_s srcRT srcTR loc_r loc_s
      event_source depth gcdist max_ebaz_xcoef files = Ok files' ->
    files (folder_name ++ tag_name ++ ".json") = Some loaded ->
    other <> station ->
    store_info_xml_params folder_name tag_name other files'
      = store_info_xml_params folder_name tag_name other files.
Proof.
  intros rotate ac rt corrcoefs baz arriv_p EBA
         folder_name tag_name station phasv_means phasv_stds startev event
         net_r net_s chan1 chan2 chan3 chan4 sta_r sta_s srcRT srcTR
         loc_r loc_s event_source depth gcdist max_ebaz_xcoef
         files files' loaded other H Hfile Hother.
  destruct (store_info_json_written _ _ _ _ _ _ _ _ _ _ _ _ _ _ _ _ _ _ _ _
              _ _ _ _ _ _ _ _ _ _ _ _ H)
    as (dic_event & info & rp & PCC & -> & _).
  unfold store_info_xml_params. rewrite String.eqb_refl, Hfile.
  unfold read_params, RP_value.
  rewrite getitem_setitem_other; [reflexivity |].
  intros E. apply Hother. now apply station_key_injective.
Qed.

End EventFileProps.

Lemma fold_max_nan_None (tl : list (option Q)) :
  fold_left
    (fun m y =>
       match y, m with
       | Some a, Some b => if Py.Qlt_bool b a then y else m
       | _, _ => m
       end) tl None = None.
Proof.
  induction tl as [| y tl IH]; [reflexivity |]. simpl.
  destruct y; exact IH.
Qed.

Lemma fold_min_nan_None (tl : list (option Q)) :
  fold_left
    (fun m y =>
       match y, m with
       | Some a, Some b => if Py.Qlt_bool a b then y else m
       | _, _ => m
       end) tl None = None.
Proof.
  induction tl as [| y tl IH]; [reflexivity |]. simpl.
  destruct y; exact IH.
Qed.

Lemma fold_max_nan_Some (tl : list (option Q)) :
  forall x : Q,
  exists M : Q,
    fold_left
      (fun m y =>
         match y, m with
         | Some a, Some b => if Py.Qlt_bool b a then y else m
         | _, _ => m
         end) tl (Some x) = Some M /\
    (M = x \/ In (Some M) tl) /\ (x <= M)%Q /\
    (forall c, In (Some c) tl -> (c <= M)%Q).
Proof.
  induction tl as [| y tl IH]; intros x; simpl.
  - exists x. repeat split; [now left | lra | contradiction].
  - destruct y as [a |].
    + destruct (Py.Qlt_bool x a) eqn:E.
      * apply Qlt_bool_iff in E.
        destruct (IH a) as (M & -> & Hin & Hle & Hub).
        exists M. split; [reflexivity |].
        split; [right; destruct Hin as [-> | Hin]; [now left | now right] |].
        split; [lra |].
        intros c [Ec | Hc]; [injection Ec as <-; exact Hle | now apply Hub].
      * apply Qlt_bool_false_iff in E.
        destruct (IH x) as (M & -> & Hin & Hle & Hub).
        exists M. split; [reflexivity |].
        split; [destruct Hin as [-> | Hin]; [now left | right; now right] |].
        split; [exact Hle |].
        intros c [Ec | Hc]; [injection Ec as <-; lra | now apply Hub].
    + destruct (IH x) as (M & -> & Hin & Hle & Hub).
      exists M. split; [reflexivity |].
      split; [destruct Hin as [-> | Hin]; [now left | right; now right] |].
      split; [exact Hle |].
      intros c [Ec | Hc]; [discriminate | now apply Hub].
Qed.

Lemma fold_min_nan_Some (tl : list (option Q)) :
  forall x : Q,
  exists m : Q,
    fold_left
      (fun m y =>
         match y, m with
         | Some a, Some b => if Py.Qlt_bool a b then y else m
         | _, _ => m
         end) tl (Some x) = Some m /\
    (m = x \/ In (Some m) tl) /\ (m <= x)%Q /\
    (forall c, In (Some c) tl -> (m <= c)%Q).
Proof.
  induction tl as [| y tl IH]; intros x; simpl.
  - exists x. repeat split; [now left | lra | contradiction].
  - destruct y as [a |].
    + destruct (Py.Qlt_bool a x) eqn:E.
      * apply Qlt_bool_iff in E.
        destruct (IH a) as (m & -> & Hin & Hle & Hlb).
        exists m. split; [reflexivity |].
        split; [right; destruct Hin as [-> | Hin]; [now left | now right] |].
        split; [lra |].
        intros c [Ec | Hc]; [injection Ec as <-; exact Hle | now apply Hlb].
      * apply Qlt_bool_false_iff in E.
        destruct (IH x) as (m & -> & Hin & Hle & Hlb).
        exists m. split; [reflexivity |].
        split; [destruct Hin as [-> | Hin]; [now left | right; now right] |].
        split; [exact Hle |].
        intros c [Ec | Hc]; [injection Ec as <-; lra | now apply Hlb].
    + destruct (IH x) as (m & -> & Hin & Hle & Hlb).
      exists m. split; [reflexivity |].
      split; [destruct Hin as [-> | Hin]; [now left | right; now right] |].
      split; [exact Hle |].
      intros c [Ec | Hc]; [discriminate | now apply Hlb].
Qed.

(** X27: the peak and the minimum coefficient that [store_info_json]
    stores are taken with the builtin [max] and [min]: when the coefficient
    of the first window is [nan] both are [nan], whatever the other windows
    hold; otherwise the windows whose coefficient is [nan] are passed over
    and the two are the greatest and the least of the other coefficients;
    without any window the call raises [ValueError]. *)
Theorem peak_coefficients_and_nan :
  forall corrcoefs : list (option Q),
    (corrcoefs = [] -> max_nan corrcoefs = Raise ValueError) /\
    (forall tl, corrcoefs = None :: tl ->
       max_nan corrcoefs = Ok None /\ min_nan corrcoefs = Ok None) /\
    (forall x tl, corrcoefs = Some x :: tl ->
       exists M m : Q,
         max_nan corrcoefs = Ok (Some M) /\ min_nan corrcoefs = Ok (Some m) /\
         In (Some M) corrcoefs /\ In (Some m) corrcoefs /\
         (forall c, In (Some c) corrcoefs -> (m <= c)%Q /\ (c <= M)%Q)).
Proof.
  intros corrcoefs. split; [intros ->; reflexivity |]. split.
  - intros tl ->. unfold max_nan, min_nan.
    now rewrite fold_max_nan_None, fold_min_nan_None.
  - intros x tl ->. unfold max_nan, min_nan.
    destruct (fold_max_nan_Some tl x) as (M & -> & HinM & HleM & HubM).
    destruct (fold_min_nan_Some tl x) as (m & -> & Hinm & Hlem & Hlbm).
    exists M, m. split; [reflexivity |]. split; [reflexivity |].
    split; [destruct HinM as [-> | H]; [now left | now right] |].
    split; [destruct Hinm as [-> | H]; [now left | now right] |].
    intros c [Ec | Hc].
    + injection Ec as <-. split; assumption.
    + split; [now apply Hlbm | now apply HubM].
Qed.

(** ** The panel of the S wave *)

Lemma pymax_map_Fin (l : list Q) :
  Np2.pymax (map Np.Fin l) = (m <- Py.max l ;; Ok (Np.Fin m)).
Proof.
  destruct l as [| x tl]; [reflexivity |]. simpl. f_equal.
  revert x. induction tl as [| y tl IH]; intros x; [reflexivity |].
  simpl. destruct (Py.Qlt_bool x y); apply IH.
Qed.

Lemma pymin_map_Fin (l : list Q) :
  Np2.pymin (map Np.Fin l) = (m <- Py.min l ;; Ok (Np.Fin m)).
Proof.
  destruct l as [| x tl]; [reflexivity |]. simpl. f_equal.
  revert x. induction tl as [| y tl IH]; intros x; [reflexivity |].
  simpl. destruct (Py.Qlt_bool y x); apply IH.
Qed.

Lemma pymax_all_nan (l : list Np.npfloat) :
  l <> [] -> (forall v, In v l -> v = Np.NaN) -> Np2.pymax l = Ok Np.NaN.
Proof.
  destruct l as [| x tl]; [congruence |]. intros _ H.
  rewrite (H x (or_introl eq_refl)). simpl. f_equal.
  assert (Htl : forall v, In v tl -> v = Np.NaN) by (intros v Hv; apply H; now right).
  clear H. induction tl as [| y tl IH]; [reflexivity |].
  simpl. apply IH. intros v Hv. apply Htl. now right.
Qed.

Lemma pymin_all_nan (l : list Np.npfloat) :
  l <> [] -> (forall v, In v l -> v = Np.NaN) -> Np2.pymin l = Ok Np.NaN.
Proof.
  destruct l as [| x tl]; [congruence |]. intros _ H.
  rewrite (H x (or_introl eq_refl)). simpl. f_equal.
  assert (Htl : forall v, In v tl -> v = Np.NaN) by (intros v Hv; apply H; now right).
  clear H. induction tl as [| y tl IH]; [reflexivity |].
  simpl. rewrite (Htl y (or_introl eq_refl)). apply IH.
  intros v Hv. apply Htl. now right.
Qed.

Lemma max_abs_nonneg (l : list Q) (m : Q) :
  Py.max (map Qabs l) = Ok m -> (0 <= m)%Q.
Proof.
  intros H. destruct (max_spec _ _ H) as [Hin _].
  apply in_map_iff in Hin. destruct Hin as (x & <- & _). apply Qabs_nonneg.
Qed.

Lemma max_abs_zero (l : list Q) (m : Q) :
  Py.max (map Qabs l) = Ok m -> (m == 0)%Q -> forall x, In x l -> (x == 0)%Q.
Proof.
  intros H Hm x Hx. destruct (max_spec _ _ H) as [_ Hub].
  assert (Hle : (Qabs x <= 0)%Q).
  { rewrite <- Hm. apply Hub. now apply in_map. }
  pose proof (Qabs_nonneg x) as Hge.
  destruct (Qabs_Qle_condition x 0) as [Hc _].
  destruct (Hc Hle) as [H1 H2]. lra.
Qed.

Lemma max_abs_nonempty (l : list Q) (m : Q) :
  Py.max (map Qabs l) = Ok m -> l <> [].
Proof. destruct l; [discriminate | discriminate]. Qed.

(** X29: the two flat windows.  When the transverse acceleration is zero
    throughout the S window and the rotation rate is not, [cs] is zero, the
    scaled acceleration is [nan] throughout and so are both limits of the
    axis.  When the rotation rate is zero throughout the window and the
    acceleration is not, [cs] is infinite, the scaled acceleration is zero
    throughout and both limits are zero.  Neither case raises. *)
Theorem s_wave_panel_flat_window :
  forall (rotate : list Q * list Q) (rt : Stream) (min_sw max_sw : Q)
         (rt0 : Trace) (ma mr : Q),
    Py.index rt 0 = Ok rt0 ->
    let lo := Py.round (inject_Z (Py.int (sampling_rate rt0)) * min_sw) in
    let hi := Py.round (inject_Z (Py.int (sampling_rate rt0)) * max_sw) in
    Py.max (map Qabs (Py.slice (snd rotate) lo hi)) = Ok ma ->
    Py.max (map Qabs (Py.slice (data rt0) lo hi)) = Ok mr ->
    ((ma == 0)%Q -> ~ (mr == 0)%Q ->
     exists c : Q,
       (c == 0)%Q /\
       plotWaveformComp_s_wave rotate rt min_sw max_sw
         = Ok (Np.Fin c,
               map (fun _ => Np.NaN) (Py.slice (snd rotate) lo hi),
               Np.NaN, Np.NaN)) /\
    (~ (ma == 0)%Q -> (mr == 0)%Q ->
     exists (zs : list Q) (ymin ymax : Q),
       plotWaveformComp_s_wave rotate rt min_sw max_sw
         = Ok (Np.PInf, map Np.Fin zs, Np.Fin ymin, Np.Fin ymax) /\
       List.length zs = List.length (Py.slice (snd rotate) lo hi) /\
       (forall z, In z zs -> (z == 0)%Q) /\
       (ymin == 0)%Q /\ (ymax == 0)%Q).
Proof.
  intros rotate rt min_sw max_sw rt0 ma mr Hrt lo hi Hma Hmr.
  pose proof (max_abs_nonneg _ _ Hma) as Hma_nn.
  pose proof (max_abs_nonneg _ _ Hmr) as Hmr_nn.
  set (a := Py.slice (snd rotate) lo hi) in *.
  set (r := Py.slice (data rt0) lo hi) in *.
  assert (Hane : a <> []) by exact (max_abs_nonempty _ _ Hma).
  assert (Hrne : r <> []) by exact (max_abs_nonempty _ _ Hmr).
  destruct (min_total r Hrne) as [m2 Hm2].
  destruct (max_total r Hrne) as [M2 HM2].
  split.
  - intros Hma0 Hmr0.
    set (c := ((1 # 2) * (ma / mr))%Q).
    assert (Hc0 : (c == 0)%Q) by (unfold c; rewrite Hma0; field; exact Hmr0).
    exists c. split; [exact Hc0 |].
    assert (Hscaled : map (fun x => Np2.mul (Np.div (Np.Fin (1 # 2)) (Np.Fin c))
                                             (Np.Fin x)) a
                      = map (fun _ => Np.NaN) a).
    { apply map_ext_in. intros x Hx.
      unfold Np.div. rewrite (proj2 (Qeq_bool_iff c 0) Hc0).
      cbn. rewrite (proj2 (Qeq_bool_iff x 0) (max_abs_zero _ _ Hma Hma0 x Hx)).
      reflexivity. }
    assert (Hnan : forall v, In v (map (fun _ : Q => Np.NaN) a) -> v = Np.NaN).
    { intros v Hv. apply in_map_iff in Hv. now destruct Hv as (x & <- & _). }
    assert (Hne : map (fun _ : Q => Np.NaN) a <> []).
    { destruct a; [congruence | discriminate]. }
    unfold plotWaveformComp_s_wave. rewrite Hrt. cbn [bind].
    fold lo. fold hi. fold a. fold r.
    rewrite Hma. cbn [bind]. rewrite Hmr. cbn [bind].
    assert (Hcs : Np2.mul (Np.Fin (1 # 2)) (Np.div (Np.Fin ma) (Np.Fin mr))
                  = Np.Fin c).
    { unfold Np.div. rewrite (Qeq_bool_false _ _ Hmr0). reflexivity. }
    rewrite Hcs, Hscaled.
    rewrite (pymin_all_nan _ Hne Hnan). cbn [bind]. rewrite Hm2. cbn [bind].
    rewrite (pymax_all_nan _ Hne Hnan). cbn [bind]. rewrite HM2. cbn [bind].
    reflexivity.
  - intros Hma0 Hmr0.
    assert (Hma_pos : (0 < ma)%Q).
    { apply Qle_lteq in Hma_nn. destruct Hma_nn as [H | H];
        [exact H | elim Hma0; now symmetry]. }
    assert (Hr0 : forall x, In x r -> (x == 0)%Q)
      by exact (max_abs_zero _ _ Hmr Hmr0).
    assert (Hcs : Np2.mul (Np.Fin (1 # 2)) (Np.div (Np.Fin ma) (Np.Fin mr))
                  = Np.PInf).
    { unfold Np.div. rewrite (proj2 (Qeq_bool_iff mr 0) Hmr0).
      rewrite (Qeq_bool_false _ _ Hma0).
      rewrite (proj2 (Qlt_bool_iff 0 ma) Hma_pos). reflexivity. }
    set (zs := map (Qmult 0) a).
    assert (Hscaled : map (fun x => Np2.mul (Np.div (Np.Fin (1 # 2)) Np.PInf)
                                             (Np.Fin x)) a
                      = map Np.Fin zs).
    { unfold zs. rewrite map_map. reflexivity. }
    assert (Hzs0 : forall z, In z zs -> (z == 0)%Q).
    { intros z Hz. apply in_map_iff in Hz. destruct Hz as (x & <- & _). ring. }
    assert (Hzsne : zs <> []).
    { unfold zs. destruct a; [congruence | discriminate]. }
    destruct (min_total zs Hzsne) as [m1 Hm1].
    destruct (max_total zs Hzsne) as [M1 HM1].
    exists zs, (if Py.Qlt_bool m2 m1 then m2 else m1),
           (if Py.Qlt_bool M1 M2 then M2 else M1).
    split.
    { unfold plotWaveformComp_s_wave. rewrite Hrt. cbn [bind].
      fold lo. fold hi. fold a. fold r.
      rewrite Hma. cbn [bind]. rewrite Hmr. cbn [bind].
      rewrite Hcs, Hscaled.
      rewrite pymin_map_Fin, Hm1. cbn [bind]. rewrite Hm2. cbn [bind].
      rewrite pymax_map_Fin, HM1. cbn [bind]. rewrite HM2. cbn [bind].
      simpl. destruct (Py.Qlt_bool m2 m1), (Py.Qlt_bool M1 M2); reflexivity. }
    split; [unfold zs; now rewrite length_map |].
    split; [exact Hzs0 |].
    pose proof (Hzs0 _ (proj1 (min_spec _ _ Hm1))) as Z1.
    pose proof (Hzs0 _ (proj1 (max_spec _ _ HM1))) as Z2.
    pose proof (Hr0 _ (proj1 (min_spec _ _ Hm2))) as Z3.
    pose proof (Hr0 _ (proj1 (max_spec _ _ HM2))) as Z4.
    split; [destruct (Py.Qlt_bool m2 m1) | destruct (Py.Qlt_bool M1 M2)];
      assumption.
Qed.

(** ** The further properties on the examples *)

Example backas_est_no_estimate :
  backas_est ExMore.xcorr_half Ex.rotate_ne_rt Ex.scan_rt Ex.scan_ac 0 60 "RLAS"
    = Ok (repeat 0%Q 360, backas2_grid, Np.Fin (1 # 2), 0%Q).
Proof. vm_compute. reflexivity. Qed.

Example phase_vel_uncorrelated :
  phase_vel Ex.rt 2 [Some (1 # 2)%Q; None] Ex.rotate Ex.corrsum backas2_grid
            false 0
    = Ok ([Np.NaN; Np.NaN], Np.Fin 1).
Proof. vm_compute. reflexivity. Qed.

Example Get_corrcoefs_at_40 :
  Get_corrcoefs Ex.xcorr_eq ExMore.rotra (data ExMore.rotra) ExMore.acstr
    (snd (ExMore.rotate_at_40 [0; 0; 0; 0]%Q [1; 1; 1; 1]%Q
            (inject_Z (10 * Z.of_nat 4))))
    2 "RLAS"
    = Ok ([Some 1%Q; Some 1%Q], repeat (3 # 4)%Q 3).
Proof. vm_compute. reflexivity. Qed.

Example backas_analysis_example :
  backas_analysis Ex.xcorr_eq ExMore.rotate_at_40 ExMore.rotra
                  (data ExMore.rotra) ExMore.acstr 2 [Some 1%Q; Some 1%Q] None
                  "RLAS"
    = Ok (ExMore.table, [40; 40]%Q, backas_grid, [Np.Fin 1; Np.Fin 1]).
Proof. vm_compute. reflexivity. Qed.

(** On the example of the start index, every band has the estimate of the
    full-band call, 1 degree. *)
Lemma band_EBA_is_main_EBA_witness :
  plotWaveformComp_phase_vel Ex.rt 2 Ex.corrcoefs Ex.rotate Ex.corrsum
    backas2_grid (5 # 2)
    Ex.band Ex.band Ex.band Ex.band Ex.band Ex.band Ex.band Ex.band
    = Ok (([Np.Fin (1 # 2000); Np.NaN], Np.Fin 1),
          repeat ([Np.NaN], Np.Fin 1) 8) /\
  List.length (repeat ([Np.NaN], Np.Fin 1%Q) 8) = 8%nat /\
  Forall (fun p : list Np.npfloat * Np.npfloat => snd p = Np.Fin 1)
         (repeat ([Np.NaN], Np.Fin 1) 8).
Proof.
  split; [reflexivity |].
  exact (band_EBA_is_main_EBA Ex.rt 2 Ex.corrcoefs Ex.rotate Ex.corrsum
           backas2_grid (5 # 2)
           Ex.band Ex.band Ex.band Ex.band Ex.band Ex.band Ex.band Ex.band
           ([Np.Fin (1 # 2000); Np.NaN], Np.Fin 1)
           (repeat ([Np.NaN], Np.Fin 1) 8) eq_refl).
Defined.

(** On the example scan both functions give 45 degrees, and a sum is
    positive. *)
Lemma best_ebaz_and_EBA_witness :
  exists s : Q, In s Ex.scan_corrsum /\ (0 < s)%Q.
Proof.
  destruct (best_ebaz_and_EBA Ex.xcorr_eq Ex.rotate_at_45
              Ex.scan_rt Ex.scan_ac 0 60 "RLAS"
              Ex.scan_corrsum backas2_grid (Np.Fin 1) 45%Q
              Ex.rt 2%Z Ex.corrcoefs Ex.rotate false 0%Z
              [Np.Fin (1 # 2000); Np.NaN] (Np.Fin 45)
              backas_est_example phase_vel_EBA_example)
    as [[_ H] | [H _]]; [exact H | discriminate H].
Defined.

(** A scan of which every coefficient is 0.5 gives no estimate. *)
Lemma EBA_undefined_iff_witness :
  exists (rt0 trN trE : Trace),
    Py.index Ex.scan_rt 0 = Ok rt0 /\
    Py.index (select Ex.scan_ac (snd (station_components "RLAS"))) 0 = Ok trN /\
    Py.index (select Ex.scan_ac (fst (station_components "RLAS"))) 0 = Ok trE /\
    let rt_SR := Py.int (sampling_rate rt0) in
    let lo := Py.round (0 * inject_Z rt_SR) in
    let hi := Py.round (60 * inject_Z rt_SR) in
    let rt2 := Py.slice (data rt0) lo hi in
    let acn2 := Py.slice (data trN) lo hi in
    let ace2 := Py.slice (data trE) lo hi in
    let nw := (Py.len rt2 / (rt_SR * 30))%Z in
    (Np.NaN = Np.NaN <->
     forall (ba : Q) (c : option Q),
       In ba backas2_grid ->
       In c (corrbaz2_row ExMore.xcorr_half Ex.rotate_ne_rt rt_SR rt2 acn2 ace2
                          nw ba) ->
       Np.ge c (9 # 10) = false).
Proof.
  exact (EBA_undefined_iff ExMore.xcorr_half Ex.rotate_ne_rt
           Ex.scan_rt Ex.scan_ac 0 60 "RLAS"
           (repeat 0%Q 360) backas2_grid (Np.Fin (1 # 2)) 0%Q
           Ex.rt 2%Z Ex.corrcoefs Ex.rotate false 0%Z
           [Np.Fin (1 # 2000); Np.NaN] Np.NaN
           backas_est_no_estimate phase_vel_EBA_undefined).
Defined.


(** Two coefficients for a rotation trace of one window: the second window
    has no sample. *)
Lemma phase_vel_empty_window_witness :
  phase_vel [Ex.trace [1; 1]%Q 1 "Z"] 2 [Some 1%Q; Some 1%Q] Ex.rotate
            Ex.corrsum backas2_grid false 0
    = Raise ValueError.
Proof.
  apply (phase_vel_empty_window [Ex.trace [1; 1]%Q 1 "Z"] 2
           [Some 1%Q; Some 1%Q] Ex.rotate Ex.corrsum backas2_grid false 0
           (Ex.trace [1; 1]%Q 1 "Z") 1 (Some 1%Q)).
  - reflexivity.
  - lia.
  - unfold Py.len. simpl. lia.
  - reflexivity.
  - reflexivity.
  - right. reflexivity.
Defined.

(** A P arrival 150 s after the first of 82 samples at 1 Hz. *)
Lemma sn_ratio_early_arrival_witness :
  sn_ratio Ex.full_signal 150 1 = Ok Np.NaN.
Proof.
  apply (sn_ratio_early_arrival Ex.full_signal 150 1).
  - vm_compute. discriminate.
  - reflexivity.
  - vm_compute. split; [discriminate | reflexivity].
  - vm_compute. discriminate.
Defined.

(** A P arrival 50 s after the first of 100 samples at 1 Hz: the window
    would start 130 s before the end, so it starts at the first sample and
    holds the first 50 samples. *)
Lemma sn_ratio_window_from_end_witness :
  exists (m : Q) (noise : list Q),
    In m (repeat 1%Q 100) /\ (forall x, In x (repeat 1%Q 100) -> (x <= m)%Q) /\
    sn_ratio (repeat 1%Q 100) 50 1
      = Ok (Np.div (Np.Fin m) (Np.abs (Np.mean noise))) /\
    noise = firstn 50 (repeat 1%Q 100).
Proof.
  destruct (sn_ratio_window_from_end (repeat 1%Q 100) 50 1)
    as (m & noise & Hin & Hub & Heq & _ & Hshort & _).
  - vm_compute. discriminate.
  - reflexivity.
  - reflexivity.
  - exists m, noise. split; [exact Hin |]. split; [exact Hub |].
    split; [exact Heq |].
    apply Hshort. vm_compute. split; reflexivity.
Defined.

(** The example answer and the same answer, last phase first. *)
Lemma ps_arrival_times_order_witness :
  ps_arrival_times Ex.get_travel_times 5000000 10 180
    = ps_arrival_times ExMore.get_travel_times_rev 5000000 10 180.
Proof.
  apply (ps_arrival_times_order Ex.get_travel_times
           ExMore.get_travel_times_rev 5000000 10 180).
  apply Permutation_rev.
Defined.

(** The arrival times of the example, 580 s and 900 s. *)
Lemma ps_arrival_times_bounds_witness :
  let tt := Ex.get_travel_times ((1 # 1000) * 5000000 / (11111 # 100))%Q 10 in
  let tiemp := family_times pwave_list tt in
  let tiems := family_times swave_list tt in
  (exists z : Z, 580%Q = inject_Z z) /\
  (exists z : Z, 900%Q = inject_Z z) /\
  (forall t, In t tiemp -> (580 <= 180 + t)%Q) /\
  (exists t, In t tiemp /\ (180 + t < 580 + 1)%Q) /\
  (forall t, In t tiems -> (900 <= 180 + t)%Q) /\
  (exists t, In t tiems /\ (180 + t < 900 + 1)%Q) /\
  ((exists t, In t tiemp /\ forall t', In t' tiems -> (t <= t')%Q) ->
   (580 <= 900)%Q).
Proof.
  exact (ps_arrival_times_bounds Ex.get_travel_times 5000000 10 180 580 900
           ps_arrival_times_example).
Defined.



(** A band whose two windows correlate at 0.5 and at [nan]. *)
Lemma uncorrelated_band_has_no_mean_witness :
  (forall v, In v [Np.NaN; Np.NaN] -> v = Np.NaN) /\
  phasv_means_stds ExMore.np_std [[Np.NaN; Np.NaN]] = ([Np.NaN], [Np.NaN]).
Proof.
  apply (uncorrelated_band_has_no_mean ExMore.np_std
           Ex.rt 2 [Some (1 # 2)%Q; None] Ex.rotate Ex.corrsum backas2_grid
           false 0 [Np.NaN; Np.NaN] (Np.Fin 1) phase_vel_uncorrelated).
  intros i8 c Hi Hc. unfold Py.len in Hi. simpl in Hi.
  assert (Hcases : i8 = 0%Z \/ i8 = 1%Z) by lia.
  destruct Hcases as [-> | ->]; injection Hc as <-; reflexivity.
Defined.

(** The first window of the example scan: the best backazimuth is 40
    degrees and the best coefficient 1.0. *)
Lemma backas_analysis_best_witness :
  let entry :=
    corrbaz_entry Ex.xcorr_eq ExMore.rotate_at_40 ExMore.rotra
                  (data ExMore.rotra) (Ex.trace [0; 0; 0; 0]%Q 1 "N")
                  (Ex.trace [1; 1; 1; 1]%Q 1 "E") 2 None in
  exists (a : Q) (v : Np.npfloat),
    nth_error [40; 40]%Q 0 = Some a /\
    nth_error [Np.Fin 1; Np.Fin 1] 0 = Some v /\
    In a backas_grid /\
    ((exists ba, In ba backas_grid /\ entry ba (Z.of_nat 0) = None) ->
     v = Np.NaN /\ entry a (Z.of_nat 0) = None) /\
    ((forall ba, In ba backas_grid -> entry ba (Z.of_nat 0) <> None) ->
     exists m q : Q,
       v = Np.Fin m /\ entry a (Z.of_nat 0) = Some q /\ (q == m)%Q /\
       forall ba x, In ba backas_grid -> entry ba (Z.of_nat 0) = Some x ->
                    (x <= m)%Q).
Proof.
  apply (backas_analysis_best Ex.xcorr_eq ExMore.rotate_at_40 ExMore.rotra
           (data ExMore.rotra) ExMore.acstr 2 [Some 1%Q; Some 1%Q] None "RLAS"
           (Ex.trace [0; 0; 0; 0]%Q 1 "N") (Ex.trace [1; 1; 1; 1]%Q 1 "E")
           ExMore.table [40; 40]%Q backas_grid [Np.Fin 1; Np.Fin 1] 0%nat).
  - reflexivity.
  - reflexivity.
  - exact backas_analysis_example.
  - simpl. lia.
Defined.

(** Row 4 of the example scan, for 40 degrees, is the series of
    coefficients of the transverse acceleration at 40 degrees. *)
Lemma backas_analysis_row_is_corrcoefs_witness :
  nth_error ExMore.table 4 = Some [Some 1%Q; Some 1%Q] /\
  forall (l : nat) (c m : Q),
    nth_error [Some 1%Q; Some 1%Q] l = Some (Some c) ->
    nth_error [Np.Fin 1; Np.Fin 1] l = Some (Np.Fin m) ->
    (c <= m)%Q.
Proof.
  apply (backas_analysis_row_is_corrcoefs Ex.xcorr_eq ExMore.rotate_at_40
           ExMore.rotra (data ExMore.rotra) ExMore.acstr 2 "RLAS"
           (Ex.trace [0; 0; 0; 0]%Q 1 "N") (Ex.trace [1; 1; 1; 1]%Q 1 "E")
           4%nat [Some 1%Q; Some 1%Q] (repeat (3 # 4)%Q 3)
           ExMore.table [40; 40]%Q backas_grid [Np.Fin 1; Np.Fin 1]).
  - reflexivity.
  - reflexivity.
  - lia.
  - exact Get_corrcoefs_at_40.
  - exact backas_analysis_example.
Defined.

(** Both windows of the example scan keep their best backazimuth. *)
Lemma maxcorrp_over50_of_scan_witness :
  exists out,
    maxcorrp_over50 ExMore.table [40; 40]%Q = Ok out /\
    List.length out = 2%nat /\
    forall (l : nat) (a : Q) (v : Np.npfloat),
      nth_error [40; 40]%Q l = Some a ->
      nth_error [Np.Fin 1; Np.Fin 1] l = Some v ->
      (v = Np.NaN -> nth_error out l = Some 0%Q) /\
      (forall m, v = Np.Fin m -> (m < 1 # 2)%Q -> nth_error out l = Some 0%Q) /\
      (forall m, v = Np.Fin m -> (1 # 2 <= m)%Q -> nth_error out l = Some a).
Proof.
  apply (maxcorrp_over50_of_scan Ex.xcorr_eq ExMore.rotate_at_40 ExMore.rotra
           (data ExMore.rotra) ExMore.acstr 2 [Some 1%Q; Some 1%Q] None "RLAS"
           (Ex.trace [0; 0; 0; 0]%Q 1 "N") (Ex.trace [1; 1; 1; 1]%Q 1 "E")
           ExMore.table [40; 40]%Q backas_grid [Np.Fin 1; Np.Fin 1]).
  - reflexivity.
  - reflexivity.
  - exact backas_analysis_example.
Defined.

Example store_info_json_example :
  store_info_json ExMore.str ExMore.coordinates Ex.rotate Ex.scan_ac Ex.rt
    Ex.corrcoefs (5000000, 0, 90)%Q 580 (Np.Fin 45) "ev1/" "ev1" "RLAS"
    (repeat Np.NaN 8) (repeat Np.NaN 8) 180 ExMore.event
    "BW" "GR" "BJZ" "BHE" "BHN" "BHZ" "RLAS" "WET" "LMU" "BGR" "" ""
    "GCMT" 10 45 (Np.Fin 1) ExMore.no_files
    = Ok ExMore.stored.
Proof. vm_compute. reflexivity. Qed.

Example store_info_json_second_station :
  store_info_json ExMore.str ExMore.coordinates Ex.rotate
    [Ex.trace [0; 0; 0; 0]%Q 1 "2"; Ex.trace [1; 1; 1; 1]%Q 1 "1"]
    Ex.rt Ex.corrcoefs
    (5000000, 0, 90)%Q 580 (Np.Fin 45) "ev1/" "ev1" "ROMY"
    (repeat Np.NaN 8) (repeat Np.NaN 8) 180 ExMore.event
    "BW" "GR" "BJZ" "BH1" "BH2" "BHZ" "ROMY" "FUR" "LMU" "BGR" "" ""
    "GCMT" 10 45 (Np.Fin 1) ExMore.stored
    = Ok ExMore.stored_twice.
Proof. vm_compute. reflexivity. Qed.

(** The first call for an event: the file is new. *)
Lemma store_info_json_keeps_the_file_witness :
  let f := "ev1/" ++ "ev1" ++ ".json" in
  let key := "station_information_" ++ "RLAS" in
  (forall g, g <> f -> ExMore.stored g = ExMore.no_files g) /\
  exists (d info : OrderedDict),
    ExMore.stored f = Some d /\ getitem d key = Some (JObj info) /\
    (forall loaded, ExMore.no_files f = Some loaded ->
       (forall k, k <> key -> getitem d k = getitem loaded k) /\
       (In key (map fst loaded) -> map fst d = map fst loaded) /\
       (~ In key (map fst loaded) ->
        map fst d = (map fst loaded ++ [key])%list)) /\
    (ExMore.no_files f = None ->
       map fst d
         = ["event_id"; "event_source"; "event_latitude"; "event_longitude";
            "origin_time"; "trace_start"; "trace_end"; "magnitude";
            "magnitude_type"; "depth"; "depth_unit"; key] /\
       getitem d "event_id" = Some (JStr (resource_id ExMore.event))).
Proof.
  exact (store_info_json_keeps_the_file ExMore.str ExMore.coordinates
           Ex.rotate Ex.scan_ac Ex.rt
           Ex.corrcoefs (5000000, 0, 90)%Q 580 (Np.Fin 45) "ev1/" "ev1" "RLAS"
           (repeat Np.NaN 8) (repeat Np.NaN 8) 180 ExMore.event
           "BW" "GR" "BJZ" "BHE" "BHN" "BHZ" "RLAS" "WET" "LMU" "BGR" "" ""
           "GCMT" 10 45 (Np.Fin 1) ExMore.no_files ExMore.stored
           store_info_json_example).
Defined.

(** What is read back for "RLAS": 5000 km, 90 degrees and the peak
    coefficient 1.0. *)
Lemma store_info_xml_reads_what_was_stored_witness :
  exists PCC : option Q,
    max_nan Ex.corrcoefs = Ok PCC /\
    store_info_xml_params "ev1/" "ev1" "RLAS" ExMore.stored
      = Some [("epicentral_distance",
               JNum (Np.Fin ((1 # 1000) * baz0 (5000000, 0, 90)%Q)));
              ("theoretical_backazimuth", JNum (Np.Fin 90));
              ("peak_correlation_coefficient", JNum (of_coef PCC))].
Proof.
  exact (store_info_xml_reads_what_was_stored ExMore.str ExMore.coordinates
           Ex.rotate Ex.scan_ac Ex.rt
           Ex.corrcoefs (5000000, 0, 90)%Q 580 (Np.Fin 45) "ev1/" "ev1" "RLAS"
           (repeat Np.NaN 8) (repeat Np.NaN 8) 180 ExMore.event
           "BW" "GR" "BJZ" "BHE" "BHN" "BHZ" "RLAS" "WET" "LMU" "BGR" "" ""
           "GCMT" 10 45 (Np.Fin 1) ExMore.no_files ExMore.stored
           store_info_json_example).
Defined.

(** The call for "ROMY" leaves what is read for "RLAS" as it is. *)
Lemma store_info_json_other_stations_witness :
  store_info_xml_params "ev1/" "ev1" "RLAS" ExMore.stored_twice
    = store_info_xml_params "ev1/" "ev1" "RLAS" ExMore.stored.
Proof.
  apply (store_info_json_other_stations ExMore.str ExMore.coordinates
           Ex.rotate
           [Ex.trace [0; 0; 0; 0]%Q 1 "2"; Ex.trace [1; 1; 1; 1]%Q 1 "1"]
           Ex.rt Ex.corrcoefs
           (5000000, 0, 90)%Q 580 (Np.Fin 45) "ev1/" "ev1" "ROMY"
           (repeat Np.NaN 8) (repeat Np.NaN 8) 180 ExMore.event
           "BW" "GR" "BJZ" "BH1" "BH2" "BHZ" "ROMY" "FUR" "LMU" "BGR" "" ""
           "GCMT" 10 45 (Np.Fin 1) ExMore.stored ExMore.stored_twice
           match ExMore.stored "ev1/ev1.json" with
           | Some d => d
           | None => []
           end
           "RLAS").
  - exact store_info_json_second_station.
  - vm_compute. reflexivity.
  - discriminate.
Defined.

(** An S window without acceleration: the curve and the limits are [nan]. *)
Lemma s_wave_panel_flat_window_witness :
  exists c : Q,
    (c == 0)%Q /\
    plotWaveformComp_s_wave ([0; 0; 0; 0]%Q, [0; 0; 0; 0]%Q) Ex.rt 0 2
      = Ok (Np.Fin c, [Np.NaN; Np.NaN], Np.NaN, Np.NaN).
Proof.
  apply (proj1 (s_wave_panel_flat_window ([0; 0; 0; 0]%Q, [0; 0; 0; 0]%Q)
                  Ex.rt 0 2 (Ex.trace [1; -2; 1; 1]%Q 1 "Z") 0 2
                  eq_refl eq_refl eq_refl)).
  - reflexivity.
  - vm_compute. discriminate.
Defined.
